(** * Autoencoders of pylearn2 ([autoencoder.py]): a shallow embedding

    The module builds Theano graphs over shared variables.  The embedding
    keeps that structure:

    - numeric arrays ([ndarray]) are arrays of rationals; the floating
      point numbers of numpy are read as exact rationals;
    - a Theano expression is a term of type [tensor]; a shared variable is
      a reference into the store of the [World], so that an update of the
      store is seen by every expression that mentions the variable;
    - numpy's [RandomState] objects live in the [World] too and are shared
      by reference, as [build_stacked_ae] shares one generator between
      the layers it allocates;
    - Python exceptions are the [Raise] results of a state-and-exception
      monad [M]; the state survives an exception, as the heap does. *)

From Stdlib Require Import QArith Lqa ZArith String List.
From stdpp Require Import base option list gmap strings.

Set Warnings "-register-all".
Local Open Scope Z_scope.

(** ** Python exceptions and the monad of the interpreter *)

Inductive exn :=
| AssertionError (msg : string)
| ValueError (msg : string)
| TypeError (msg : string)
| AttributeError (msg : string)
| ReferenceError (msg : string).

Inductive result (A : Type) :=
| Ok (a : A)
| Raise (e : exn).
Arguments Ok {A} a.
Arguments Raise {A} e.

Definition is_ok {A} (r : result A) : bool :=
  match r with Ok _ => true | Raise _ => false end.

(** A computation reads and writes a state of type [S] and ends with a
    value or with an exception. *)
Definition state_exn (S A : Type) : Type := S -> result A * S.

Definition ret {S A} (a : A) : state_exn S A := fun w => (Ok a, w).
Definition raise {S A} (e : exn) : state_exn S A := fun w => (Raise e, w).
Definition bind {S A B} (m : state_exn S A) (k : A -> state_exn S B)
  : state_exn S B :=
  fun w => match m w with
           | (Ok a, w') => k a w'
           | (Raise e, w') => (Raise e, w')
           end.

Notation "'let*' x ':=' m 'in' k" := (bind m (fun x => k))
  (at level 10, x name, m at level 100, k at level 200).

(** ** Arrays of numbers

    Ranks 0 to 3 are enough for the module: biases are vectors, weights
    and minibatches are matrices, and a Python list of minibatches handed
    to a Theano function is stacked into a rank-3 array.  A matrix keeps
    its shape next to its rows, so that an array with no row or no column
    still has one. *)

Inductive ndarray :=
| Scalar (q : Q)
| Vector (v : list Q)
| Matrix (r c : nat) (rows : list (list Q))
| Stack (k r c : nat) (mats : list (list (list Q))).

Definition Qsum (l : list Q) : Q := fold_right Qplus 0%Q l.

Definition nd_map (f : Q -> Q) (x : ndarray) : ndarray :=
  match x with
  | Scalar q => Scalar (f q)
  | Vector v => Vector (map f v)
  | Matrix r c rows => Matrix r c (map (map f) rows)
  | Stack k r c mats => Stack k r c (map (map (map f)) mats)
  end.

(** [numpy.sum] over every axis. *)
Definition nd_sum (x : ndarray) : Q :=
  match x with
  | Scalar q => q
  | Vector v => Qsum v
  | Matrix _ _ rows => Qsum (map Qsum rows)
  | Stack _ _ _ mats => Qsum (map (fun m => Qsum (map Qsum m)) mats)
  end.

(** Elementwise binary operation.  A scalar broadcasts over anything and
    a vector over the rows of a matrix; a matrix never broadcasts (the
    type of a Theano matrix has no broadcastable axis). *)
Definition nd_zip (f : Q -> Q -> Q) (x y : ndarray) : option ndarray :=
  match x, y with
  | Scalar a, _ => Some (nd_map (f a) y)
  | _, Scalar b => Some (nd_map (fun a => f a b) x)
  | Vector u, Vector v =>
      if (length u =? length v)%nat then Some (Vector (zip_with f u v))
      else None
  | Vector u, Matrix r c rows =>
      if (length u =? c)%nat then Some (Matrix r c (map (zip_with f u) rows))
      else None
  | Matrix r c rows, Vector v =>
      if (length v =? c)%nat
      then Some (Matrix r c (map (fun row => zip_with f row v) rows))
      else None
  | Matrix r c a, Matrix r' c' b =>
      if ((r =? r') && (c =? c'))%nat
      then Some (Matrix r c (zip_with (zip_with f) a b))
      else None
  | _, _ => None
  end.

Definition column (j : nat) (rows : list (list Q)) : list Q :=
  map (fun row => nth j row 0%Q) rows.

(** [x.T]: the axes of a matrix are exchanged, an array of lower rank is
    its own transpose. *)
Definition nd_transpose (x : ndarray) : option ndarray :=
  match x with
  | Scalar q => Some (Scalar q)
  | Vector v => Some (Vector v)
  | Matrix r c rows => Some (Matrix c r (map (fun j => column j rows) (seq 0 c)))
  | Stack _ _ _ _ => None
  end.

(** [numpy.dot] of two matrices; the inner dimensions must agree. *)
Definition nd_dot (x y : ndarray) : option ndarray :=
  match x, y with
  | Matrix b k xs, Matrix k' n ws =>
      if (k =? k')%nat
      then Some (Matrix b n
                   (map (fun xrow =>
                           map (fun j => Qsum (zip_with Qmult xrow (column j ws)))
                               (seq 0 n))
                        xs))
      else None
  | _, _ => None
  end.

(** What a Theano function makes of a Python list of arrays: it stacks
    them along a new first axis, and they must have one shape. *)
Definition as_scalar (x : ndarray) : option Q :=
  match x with Scalar q => Some q | _ => None end.
Definition as_vector (n : nat) (x : ndarray) : option (list Q) :=
  match x with
  | Vector v => if (length v =? n)%nat then Some v else None
  | _ => None
  end.
Definition as_matrix (r c : nat) (x : ndarray) : option (list (list Q)) :=
  match x with
  | Matrix r' c' rows => if ((r' =? r) && (c' =? c))%nat then Some rows else None
  | _ => None
  end.

Definition nd_stack (xs : list ndarray) : option ndarray :=
  match xs with
  | [] => Some (Vector [])
  | Scalar _ :: _ => v ← mapM as_scalar xs; Some (Vector v)
  | Vector u :: _ =>
      rows ← mapM (as_vector (length u)) xs;
      Some (Matrix (length xs) (length u) rows)
  | Matrix r c _ :: _ =>
      mats ← mapM (as_matrix r c) xs;
      Some (Stack (length xs) r c mats)
  | Stack _ _ _ _ :: _ => None
  end.

(** The shape, and whether the data fill it. *)
Definition shape (x : ndarray) : list nat :=
  match x with
  | Scalar _ => []
  | Vector v => [length v]
  | Matrix r c _ => [r; c]
  | Stack k r c _ => [k; r; c]
  end.

Definition rows_wf (r c : nat) (rows : list (list Q)) : Prop :=
  length rows = r /\ Forall (fun row => length row = c) rows.

Definition nd_wf (x : ndarray) : Prop :=
  match x with
  | Scalar _ | Vector _ => True
  | Matrix r c rows => rows_wf r c rows
  | Stack k r c mats => length mats = k /\ Forall (rows_wf r c) mats
  end.

Definition entry (x : ndarray) (i j : nat) : option Q :=
  match x with
  | Matrix _ _ rows => row ← rows !! i; row !! j
  | _ => None
  end.

(** ** Theano graphs

    An activation is a Theano op applied to a whole array.  The docstring
    of [Autoencoder.__init__] asks for an elementwise nonlinearity; the
    registry of [theano.tensor.nnet] also holds [softmax], which mixes the
    coordinates of a row.  Both keep the shape of their argument.
    [__init__] takes any callable, though, and any name of
    [theano.tensor]: [Sum] is [tensor.sum], a callable that does not
    keep the shape of its argument. *)

Inductive callable :=
| Elemwise (scalar_op : string)
| Softmax
| Sum.

(** [TList] is a Python list of variables: it is not a
    [tensor.Variable] itself, and a Theano function that receives one
    stacks its items. *)
Inductive tensor :=
| TVar (id : nat)
| TConst (q : Q)
| TShared (id : nat)
| TTranspose (a : tensor)
| TDot (a b : tensor)
| TAdd (a b : tensor)
| TSub (a b : tensor)
| TMul (a b : tensor)
| TSqr (a : tensor)
| TSum (a : tensor)
| TApply (op : callable) (a : tensor)
| TList (items : list tensor).

(** [isinstance(x, tensor.Variable)] *)
Definition is_Variable (x : tensor) : bool :=
  match x with TList _ => false | _ => true end.

Definition softmax_row (exp : Q -> Q) (row : list Q) : list Q :=
  let e := map exp row in map (fun x => x / Qsum e)%Q e.

Definition nd_apply (impl : string -> Q -> Q) (op : callable) (x : ndarray)
  : option ndarray :=
  match op with
  | Elemwise s => Some (nd_map (impl s) x)
  | Softmax =>
      match x with
      | Vector v => Some (Vector (softmax_row (impl "exp"%string) v))
      | Matrix r c rows =>
          Some (Matrix r c (map (softmax_row (impl "exp"%string)) rows))
      | _ => None
      end
  | Sum => Some (Scalar (nd_sum x))
  end.

Section Eval.
(** The scalar functions behind the elementwise ops, the contents of
    the shared variables, and the arrays fed to the placeholders. *)
Variable impl : string -> Q -> Q.
Variable values : list ndarray.
Variable feed : gmap nat ndarray.

Fixpoint eval (t : tensor) : option ndarray :=
  match t with
  | TVar i => feed !! i
  | TConst q => Some (Scalar q)
  | TShared i => values !! i
  | TTranspose a => eval a ≫= nd_transpose
  | TDot a b => x ← eval a; y ← eval b; nd_dot x y
  | TAdd a b => x ← eval a; y ← eval b; nd_zip Qplus x y
  | TSub a b => x ← eval a; y ← eval b; nd_zip Qminus x y
  | TMul a b => x ← eval a; y ← eval b; nd_zip Qmult x y
  | TSqr a => nd_map (fun q => q * q)%Q <$> eval a
  | TSum a => (fun x => Scalar (nd_sum x)) <$> eval a
  | TApply op a => eval a ≫= nd_apply impl op
  | TList items =>
      (fix go (l : list tensor) : option (list ndarray) :=
         match l with
         | [] => Some []
         | x :: rest => v ← eval x; vs ← go rest; Some (v :: vs)
         end) items ≫= nd_stack
  end.
End Eval.

(** ** The collaborators outside the module *)

(** numpy's generator: [RandomState(seed)], one draw of [rand()], one
    draw of [randint(high)].  A draw of [rand] lies in [[0, 1)]. *)
Class NumpyRandom := {
  RandomState : Type;
  seed_state : Z -> RandomState;
  random_sample : RandomState -> Q * RandomState;
  randint : Z -> RandomState -> Z * RandomState;
  random_sample_range :
    forall g, (0 <= fst (random_sample g))%Q /\ (fst (random_sample g) < 1)%Q
}.

(** The namespaces in which the name of an activation is looked up, and
    the scalar function behind each elementwise op.  The embedding keeps
    the entries that are callable; a name bound to an attribute that is
    not callable is outside it. *)
Class TheanoNames := {
  module_globals : string -> option callable;
  tensor_nnet : string -> option callable;
  tensor_ns : string -> option callable;
  scalar_impl : string -> Q -> Q
}.

(** ** The heap

    [G] is the type of the states of a generator. *)

Record Heap (G : Type) := {
  values : list ndarray;   (* contents of the shared variables *)
  generators : list G;     (* the RandomState objects *)
  placeholders : nat       (* how many [tensor.matrix()] were made *)
}.
Arguments values {G} _.
Arguments generators {G} _.
Arguments placeholders {G} _.

Abbreviation World := (Heap RandomState).

Section Model.
Context {NR : NumpyRandom} {TN : TheanoNames}.

Definition M : Type -> Type := state_exn World.

(** [assert cond, msg] *)
Definition assert_ (cond : bool) (msg : string) : M unit :=
  if cond then ret tt else raise (AssertionError msg).

(** A new cell of the store, and a new state for the generator [r]. *)
Definition allocate (value : ndarray) (w : World) : World :=
  {| values := values w ++ [value];
     generators := generators w;
     placeholders := placeholders w |}.

Definition put_generator (r : nat) (g : RandomState) (w : World) : World :=
  {| values := values w;
     generators := <[r := g]> (generators w);
     placeholders := placeholders w |}.

(** [sharedX(value, name, borrow=True)]: a new shared variable. *)
Definition sharedX (value : ndarray) (name : string) : M tensor :=
  fun w => (Ok (TShared (length (values w))), allocate value w).

(** [tensor.matrix()]: a new placeholder. *)
Definition tensor_matrix : M tensor :=
  fun w => (Ok (TVar (placeholders w)),
            {| values := values w;
               generators := generators w;
               placeholders := S (placeholders w) |}).

(** The seeds that [numpy.random.RandomState] takes: the integers of 32
    bits. *)
Definition valid_seed (seed : Z) : bool :=
  (0 <=? seed) && (seed <? 2 ^ 32).

(** [numpy.random.RandomState(seed)]: a new generator object, or
    [ValueError] for a seed out of range. *)
Definition new_RandomState (seed : Z) : M nat :=
  fun w =>
    if valid_seed seed
    then (Ok (length (generators w)),
          {| values := values w;
             generators := generators w ++ [seed_state seed];
             placeholders := placeholders w |})
    else (Raise (ValueError "Seed must be between 0 and 2**32 - 1"), w).

(** [numpy.zeros(n)].  The arrays of the embedding have no bound on
    their size: the [MemoryError] of an allocation that does not fit in
    memory is outside it. *)
Definition numpy_zeros (n : Z) : M ndarray :=
  if n <? 0 then raise (ValueError "negative dimensions are not allowed")
  else ret (Vector (replicate (Z.to_nat n) 0%Q)).

Fixpoint rand_row (m : nat) (g : RandomState) : list Q * RandomState :=
  match m with
  | O => ([], g)
  | S m' => let (u, g1) := random_sample g in
            let (us, g2) := rand_row m' g1 in
            (u :: us, g2)
  end.

Fixpoint rand_rows (n m : nat) (g : RandomState)
  : list (list Q) * RandomState :=
  match n with
  | O => ([], g)
  | S n' => let (row, g1) := rand_row m g in
            let (rows, g2) := rand_rows n' m g1 in
            (row :: rows, g2)
  end.

(** A method call on the generator object [r]: the object is read from
    the heap, and its new state is written back. *)
Definition with_generator {A} (r : nat)
  (f : RandomState -> result A * RandomState) : M A :=
  fun w => match generators w !! r with
           | None => (Raise (ReferenceError "no such generator"), w)
           | Some g => let (a, g') := f g in (a, put_generator r g' w)
           end.

(** [rng.rand(n, m)]: [n * m] draws, row by row. *)
Definition rng_rand (r : nat) (n m : Z) : M ndarray :=
  with_generator r (fun g =>
    if (n <? 0) || (m <? 0)
    then (Raise (ValueError "negative dimensions are not allowed"), g)
    else let (rows, g') := rand_rows (Z.to_nat n) (Z.to_nat m) g in
         (Ok (Matrix (Z.to_nat n) (Z.to_nat m) rows), g')).

(** [rng.randint(high)] *)
Definition rng_randint (r : nat) (high : Z) : M Z :=
  with_generator r (fun g => let (z, g') := randint high g in (Ok z, g')).

(** ** Python values met in the module *)

Inductive pyval :=
| PyNone
| PyBool (b : bool)
| PyInt (z : Z)
| PyStr (s : string)
| PyTuple (items : list pyval).

(** The truth value Python gives to an object, as [assert], [if] and
    [not] take it. *)
Definition truthy (v : pyval) : bool :=
  match v with
  | PyNone => false
  | PyBool b => b
  | PyInt z => negb (z =? 0)
  | PyStr s => negb (String.eqb s "")
  | PyTuple items => negb (Nat.eqb (length items) 0)
  end.

(** [assert value] without a message. *)
Definition assert_value (v : pyval) : M unit := assert_ (truthy v) "".

(** An activation as the caller gives it: [None], a name, a callable. *)
Inductive act_conf :=
| ActNone
| ActName (name : string)
| ActCallable (f : callable).

(** The [rng] argument: a seed or a RandomState object. *)
Inductive rng_arg :=
| Seed (seed : Z)
| Generator (ref : nat).

(** A corruptor is an object of another module; only its identity is
    kept. *)
Inductive Corruptor := CorruptorObject (id : nat).

(** ** class Autoencoder *)

Inductive ae_class := Plain | Denoising | Contracting.

(** The attributes of an instance.  An attribute that is [None] in
    Python, or not set yet, is [None] here. *)
Record Autoencoder := {
  class_of : ae_class;
  nhid : Z;
  irange : Q;
  tied_weights : bool;
  rng : nat;
  hidbias : option tensor;
  visbias : option tensor;
  weights : option tensor;
  s_rng : option Z;
  w_prime : option tensor;
  act_enc : option callable;
  act_dec : option callable;
  _params : list (option tensor);
  solution : option string;
  sparse_penalty : Q;
  sparsity_target : Q;
  sparsity_target_penalty : Q;
  regularization : tensor;
  hiddens : option tensor;
  corruptor : option Corruptor
}.

(** A new object of class [c], before [__init__] has run. *)
Definition new_instance (c : ae_class) : Autoencoder :=
  {| class_of := c; nhid := 0; irange := 0%Q; tied_weights := false; rng := O;
     hidbias := None; visbias := None; weights := None; s_rng := None;
     w_prime := None; act_enc := None; act_dec := None; _params := [];
     solution := None; sparse_penalty := 0%Q; sparsity_target := 0%Q;
     sparsity_target_penalty := 0%Q; regularization := TConst 0%Q;
     hiddens := None; corruptor := None |}.

(** Attribute assignments [self.x = v]. *)
Definition set_sizes (n : Z) (ir : Q) (tied : bool) (s : Autoencoder) :=
  {| class_of := class_of s; nhid := n; irange := ir; tied_weights := tied;
     rng := rng s; hidbias := hidbias s; visbias := visbias s;
     weights := weights s; s_rng := s_rng s; w_prime := w_prime s;
     act_enc := act_enc s; act_dec := act_dec s; _params := _params s;
     solution := solution s; sparse_penalty := sparse_penalty s;
     sparsity_target := sparsity_target s;
     sparsity_target_penalty := sparsity_target_penalty s;
     regularization := regularization s; hiddens := hiddens s;
     corruptor := corruptor s |}.

Definition set_rng (r : nat) (s : Autoencoder) :=
  {| class_of := class_of s; nhid := nhid s; irange := irange s;
     tied_weights := tied_weights s;
     rng := r; hidbias := hidbias s; visbias := visbias s;
     weights := weights s; s_rng := s_rng s; w_prime := w_prime s;
     act_enc := act_enc s; act_dec := act_dec s; _params := _params s;
     solution := solution s; sparse_penalty := sparse_penalty s;
     sparsity_target := sparsity_target s;
     sparsity_target_penalty := sparsity_target_penalty s;
     regularization := regularization s; hiddens := hiddens s;
     corruptor := corruptor s |}.

Definition set_hidbias (v : option tensor) (s : Autoencoder) :=
  {| class_of := class_of s; nhid := nhid s; irange := irange s;
     tied_weights := tied_weights s;
     rng := rng s; hidbias := v; visbias := visbias s;
     weights := weights s; s_rng := s_rng s; w_prime := w_prime s;
     act_enc := act_enc s; act_dec := act_dec s; _params := _params s;
     solution := solution s; sparse_penalty := sparse_penalty s;
     sparsity_target := sparsity_target s;
     sparsity_target_penalty := sparsity_target_penalty s;
     regularization := regularization s; hiddens := hiddens s;
     corruptor := corruptor s |}.

Definition set_visbias (v : option tensor) (s : Autoencoder) :=
  {| class_of := class_of s; nhid := nhid s; irange := irange s;
     tied_weights := tied_weights s;
     rng := rng s; hidbias := hidbias s; visbias := v;
     weights := weights s; s_rng := s_rng s; w_prime := w_prime s;
     act_enc := act_enc s; act_dec := act_dec s; _params := _params s;
     solution := solution s; sparse_penalty := sparse_penalty s;
     sparsity_target := sparsity_target s;
     sparsity_target_penalty := sparsity_target_penalty s;
     regularization := regularization s; hiddens := hiddens s;
     corruptor := corruptor s |}.

Definition set_weights (v : option tensor) (s : Autoencoder) :=
  {| class_of := class_of s; nhid := nhid s; irange := irange s;
     tied_weights := tied_weights s;
     rng := rng s; hidbias := hidbias s; visbias := visbias s;
     weights := v; s_rng := s_rng s; w_prime := w_prime s;
     act_enc := act_enc s; act_dec := act_dec s; _params := _params s;
     solution := solution s; sparse_penalty := sparse_penalty s;
     sparsity_target := sparsity_target s;
     sparsity_target_penalty := sparsity_target_penalty s;
     regularization := regularization s; hiddens := hiddens s;
     corruptor := corruptor s |}.

Definition set_s_rng (v : option Z) (s : Autoencoder) :=
  {| class_of := class_of s; nhid := nhid s; irange := irange s;
     tied_weights := tied_weights s;
     rng := rng s; hidbias := hidbias s; visbias := visbias s;
     weights := weights s; s_rng := v; w_prime := w_prime s;
     act_enc := act_enc s; act_dec := act_dec s; _params := _params s;
     solution := solution s; sparse_penalty := sparse_penalty s;
     sparsity_target := sparsity_target s;
     sparsity_target_penalty := sparsity_target_penalty s;
     regularization := regularization s; hiddens := hiddens s;
     corruptor := corruptor s |}.

Definition set_w_prime (v : option tensor) (s : Autoencoder) :=
  {| class_of := class_of s; nhid := nhid s; irange := irange s;
     tied_weights := tied_weights s;
     rng := rng s; hidbias := hidbias s; visbias := visbias s;
     weights := weights s; s_rng := s_rng s; w_prime := v;
     act_enc := act_enc s; act_dec := act_dec s; _params := _params s;
     solution := solution s; sparse_penalty := sparse_penalty s;
     sparsity_target := sparsity_target s;
     sparsity_target_penalty := sparsity_target_penalty s;
     regularization := regularization s; hiddens := hiddens s;
     corruptor := corruptor s |}.

Definition set_act_enc (v : option callable) (s : Autoencoder) :=
  {| class_of := class_of s; nhid := nhid s; irange := irange s;
     tied_weights := tied_weights s;
     rng := rng s; hidbias := hidbias s; visbias := visbias s;
     weights := weights s; s_rng := s_rng s; w_prime := w_prime s;
     act_enc := v; act_dec := act_dec s; _params := _params s;
     solution := solution s; sparse_penalty := sparse_penalty s;
     sparsity_target := sparsity_target s;
     sparsity_target_penalty := sparsity_target_penalty s;
     regularization := regularization s; hiddens := hiddens s;
     corruptor := corruptor s |}.

Definition set_act_dec (v : option callable) (s : Autoencoder) :=
  {| class_of := class_of s; nhid := nhid s; irange := irange s;
     tied_weights := tied_weights s;
     rng := rng s; hidbias := hidbias s; visbias := visbias s;
     weights := weights s; s_rng := s_rng s; w_prime := w_prime s;
     act_enc := act_enc s; act_dec := v; _params := _params s;
     solution := solution s; sparse_penalty := sparse_penalty s;
     sparsity_target := sparsity_target s;
     sparsity_target_penalty := sparsity_target_penalty s;
     regularization := regularization s; hiddens := hiddens s;
     corruptor := corruptor s |}.

Definition set_params (v : list (option tensor)) (s : Autoencoder) :=
  {| class_of := class_of s; nhid := nhid s; irange := irange s;
     tied_weights := tied_weights s;
     rng := rng s; hidbias := hidbias s; visbias := visbias s;
     weights := weights s; s_rng := s_rng s; w_prime := w_prime s;
     act_enc := act_enc s; act_dec := act_dec s; _params := v;
     solution := solution s; sparse_penalty := sparse_penalty s;
     sparsity_target := sparsity_target s;
     sparsity_target_penalty := sparsity_target_penalty s;
     regularization := regularization s; hiddens := hiddens s;
     corruptor := corruptor s |}.

Definition set_penalties (sol : option string) (sp st stp : Q)
  (s : Autoencoder) :=
  {| class_of := class_of s; nhid := nhid s; irange := irange s;
     tied_weights := tied_weights s;
     rng := rng s; hidbias := hidbias s; visbias := visbias s;
     weights := weights s; s_rng := s_rng s; w_prime := w_prime s;
     act_enc := act_enc s; act_dec := act_dec s; _params := _params s;
     solution := sol; sparse_penalty := sp;
     sparsity_target := st;
     sparsity_target_penalty := stp;
     regularization := regularization s; hiddens := hiddens s;
     corruptor := corruptor s |}.

Definition set_regularization (v : tensor) (s : Autoencoder) :=
  {| class_of := class_of s; nhid := nhid s; irange := irange s;
     tied_weights := tied_weights s;
     rng := rng s; hidbias := hidbias s; visbias := visbias s;
     weights := weights s; s_rng := s_rng s; w_prime := w_prime s;
     act_enc := act_enc s; act_dec := act_dec s; _params := _params s;
     solution := solution s; sparse_penalty := sparse_penalty s;
     sparsity_target := sparsity_target s;
     sparsity_target_penalty := sparsity_target_penalty s;
     regularization := v; hiddens := hiddens s;
     corruptor := corruptor s |}.

Definition set_hiddens (v : option tensor) (s : Autoencoder) :=
  {| class_of := class_of s; nhid := nhid s; irange := irange s;
     tied_weights := tied_weights s;
     rng := rng s; hidbias := hidbias s; visbias := visbias s;
     weights := weights s; s_rng := s_rng s; w_prime := w_prime s;
     act_enc := act_enc s; act_dec := act_dec s; _params := _params s;
     solution := solution s; sparse_penalty := sparse_penalty s;
     sparsity_target := sparsity_target s;
     sparsity_target_penalty := sparsity_target_penalty s;
     regularization := regularization s; hiddens := v;
     corruptor := corruptor s |}.

Definition set_corruptor (v : option Corruptor) (s : Autoencoder) :=
  {| class_of := class_of s; nhid := nhid s; irange := irange s;
     tied_weights := tied_weights s;
     rng := rng s; hidbias := hidbias s; visbias := visbias s;
     weights := weights s; s_rng := s_rng s; w_prime := w_prime s;
     act_enc := act_enc s; act_dec := act_dec s; _params := _params s;
     solution := solution s; sparse_penalty := sparse_penalty s;
     sparsity_target := sparsity_target s;
     sparsity_target_penalty := sparsity_target_penalty s;
     regularization := regularization s; hiddens := hiddens s;
     corruptor := v |}.

(** [if x is None: x = d] *)
Definition or_else {A} (x : option A) (d : A) : A :=
  match x with None => d | Some a => a end.

Definition _initialize_weights (self : Autoencoder) (nvis : Z)
  (rng' : option nat) (irange' : option Q) : M Autoencoder :=
  let rng' := or_else rng' (rng self) in
  let irange' := or_else irange' (irange self) in
  let* u := rng_rand rng' nvis (nhid self) in
  let* W := sharedX (nd_map (fun x => (1 # 2) - x * irange self)%Q u) "W" in
  ret (set_weights (Some W) self).

Definition _initialize_hidbias (self : Autoencoder) : M Autoencoder :=
  let* z := numpy_zeros (nhid self) in
  let* hb := sharedX z "hb" in
  ret (set_hidbias (Some hb) self).

Definition _initialize_visbias (self : Autoencoder) (nvis : Z)
  : M Autoencoder :=
  let* z := numpy_zeros nvis in
  let* vb := sharedX z "vb" in
  ret (set_visbias (Some vb) self).

(** The [assert] of the source is given one parenthesised pair, the
    condition and the message: a tuple. *)
Definition _initialize_w_prime (self : Autoencoder) (nvis : Z)
  (rng' : option nat) (irange' : option Q) : M Autoencoder :=
  let* _ := assert_value
              (PyTuple [PyBool (negb (tied_weights self));
                        PyStr "Can't initialize w_prime in tied weights model; this method shouldn't have been called"]) in
  let rng' := or_else rng' (rng self) in
  let irange' := or_else irange' (irange self) in
  let* u := rng_rand rng' (nhid self) nvis in
  let* W := sharedX (nd_map (fun x => (1 # 2) - x * irange')%Q u) "Wprime" in
  ret (set_w_prime (Some W) self).

(** Modelled from the spec: [_set_params] is not defined in
    [autoencoder.py] (it would come from [Block], in [base.py]).  The
    parameter container "exposes the learnable tensors as an ordered
    parameter set": the list is rebuilt as [__init__] builds it. *)
Definition build_params (self : Autoencoder) : list (option tensor) :=
  [visbias self; hidbias self; weights self]
    ++ (if negb (tied_weights self) then [w_prime self] else []).

Definition _set_params (self : Autoencoder) : M Autoencoder :=
  ret (set_params (build_params self) self).

(** [x.T] *)
Definition attr_T (x : option tensor) : M tensor :=
  match x with
  | None => raise (AttributeError "'NoneType' object has no attribute 'T'")
  | Some t => ret (TTranspose t)
  end.

(** [if not hasattr(rng, 'randn'): RandomState(rng) else: rng] *)
Definition as_generator (rng : rng_arg) : M nat :=
  match rng with
  | Seed z => new_RandomState z
  | Generator r => ret r
  end.

Definition _resolve_callable (conf : act_conf) (conf_attr : string)
  : M (option callable) :=
  match conf with
  | ActNone => ret None
  | ActCallable f => ret (Some f)
  | ActName name =>
      if String.eqb name "linear" then ret None
      else match module_globals name with
           | Some f => ret (Some f)
           | None =>
               match tensor_nnet name with
               | Some f => ret (Some f)
               | None =>
                   match tensor_ns name with
                   | Some f => ret (Some f)
                   | None =>
                       raise (ValueError ("Couldn't interpret " ++ conf_attr
                                            ++ " value: '" ++ name ++ "'"))
                   end
               end
           end
  end.

Definition __init__ (self : Autoencoder) (nvis nhid : Z)
  (act_enc act_dec : act_conf) (tied_weights' : bool)
  (solution : option string)
  (sparse_penalty sparsity_target sparsity_target_penalty irange : Q)
  (rng' : rng_arg) : M Autoencoder :=
  let* _ := assert_ (0 <=? nvis) "Number of visible units must be non-negative" in
  let* _ := assert_ (0 <? nhid) "Number of hidden units must be positive" in
  let self := set_sizes nhid irange tied_weights' self in
  let* r := as_generator rng' in
  let self := set_rng r self in
  let* self := _initialize_hidbias self in
  let* self :=
    (if 0 <? nvis
     then let* self := _initialize_visbias self nvis in
          _initialize_weights self nvis None None
     else ret (set_weights None (set_visbias None self))) in
  let* seed := rng_randint (rng self) (2 ^ 30) in
  let self := set_s_rng (Some seed) self in
  let* self :=
    (if tied_weights'
     then let* wT := attr_T (weights self) in
          ret (set_w_prime (Some wT) self)
     else _initialize_w_prime self nvis None None) in
  let* enc := _resolve_callable act_enc "act_enc" in
  let self := set_act_enc enc self in
  let* dec := _resolve_callable act_dec "act_dec" in
  let self := set_act_dec dec self in
  let self := set_params [visbias self; hidbias self; weights self] self in
  let self :=
    (if negb (tied_weights self)
     then set_params (_params self ++ [w_prime self]) self
     else self) in
  let self := set_penalties solution sparse_penalty sparsity_target
                sparsity_target_penalty self in
  ret (set_regularization (TConst 0%Q) self).

Definition set_visible_size (self : Autoencoder) (nvis : Z)
  (rng' : option nat) : M Autoencoder :=
  match weights self with
  | Some _ =>
      raise (ValueError "parameters of this model already initialized; create a new object instead")
  | None =>
      let self := match rng' with Some r => set_rng r self | None => self end in
      let rng' := or_else rng' (rng self) in
      let* self := _initialize_visbias self nvis in
      let* self := _initialize_weights self nvis (Some rng') None in
      let* self :=
        (if negb (tied_weights self)
         then _initialize_w_prime self nvis (Some rng') None
         else ret self) in
      _set_params self
  end.

(** [tensor.dot(x, w)] and [b + y], where the attribute [w] or [b] may be
    [None]. *)
Definition tensor_dot (x : tensor) (w : option tensor) : result tensor :=
  match w with
  | None => Raise (TypeError "Cannot convert None to TensorType")
  | Some w => Ok (TDot x w)
  end.

Definition tensor_add (b : option tensor) (y : tensor) : result tensor :=
  match b with
  | None => Raise (TypeError "unsupported operand type(s) for +: 'NoneType' and 'TensorVariable'")
  | Some b => Ok (TAdd b y)
  end.

Definition _hidden_input (self : Autoencoder) (x : tensor) : result tensor :=
  match tensor_dot x (weights self) with
  | Raise e => Raise e
  | Ok xw => tensor_add (hidbias self) xw
  end.

Definition _hidden_activation (self : Autoencoder) (x : tensor)
  : result tensor :=
  let act_enc :=
    match act_enc self with
    | None => fun x => x
    | Some f => TApply f
    end in
  match _hidden_input self x with
  | Raise e => Raise e
  | Ok a => Ok (act_enc a)
  end.

Fixpoint encode (self : Autoencoder) (inputs : tensor) : result tensor :=
  match inputs with
  | TList vs =>
      match (fix each (l : list tensor) : result (list tensor) :=
               match l with
               | [] => Ok []
               | v :: rest =>
                   match encode self v with
                   | Raise e => Raise e
                   | Ok h => match each rest with
                             | Raise e => Raise e
                             | Ok hs => Ok (h :: hs)
                             end
                   end
               end) vs
      with
      | Raise e => Raise e
      | Ok hs => Ok (TList hs)
      end
  | _ => _hidden_activation self inputs
  end.

(** [a - b] for a Python number [b]: a list has no subtraction. *)
Definition py_sub (a : tensor) (b : Q) : result tensor :=
  if is_Variable a then Ok (TSub a (TConst b))
  else Raise (TypeError "unsupported operand type(s) for -: 'list' and 'float'").

Definition compute_regularization (self : Autoencoder) (hiddens : tensor)
  : result tensor :=
  if bool_decide (solution self = Some "l1_penalty"%string)
  then Ok (TMul (TConst (sparse_penalty self)) (TSum hiddens))
  else if bool_decide (solution self = Some "sqr_penalty"%string)
  then match py_sub hiddens (sparsity_target self) with
       | Raise e => Raise e
       | Ok d => Ok (TMul (TConst (sparsity_target_penalty self))
                          (TSum (TSqr d)))
       end
  else Ok (TConst 0%Q).

(** A method that reads [self], and one that assigns to it. *)
Definition reading {A} (f : Autoencoder -> result A)
  : state_exn Autoencoder A := fun self => (f self, self).
Definition assign (f : Autoencoder -> Autoencoder)
  : state_exn Autoencoder unit := fun self => (Ok tt, f self).

(** [reconstruct] assigns to [self.hiddens] and [self.regularization];
    the state of the computation is the instance.  The recursive call on
    the items of a list is the method of this class: this is
    [self.reconstruct] on an instance of a class that does not override
    it.  [self_reconstruct], further down, resolves the method on the
    class of [self] and follows the override of
    [DenoisingAutoencoder]. *)
Fixpoint reconstruct (inputs : tensor) : state_exn Autoencoder tensor :=
  let* hiddens := reading (fun self => encode self inputs) in
  let* _ := assign (set_hiddens (Some hiddens)) in
  let* reg := reading (fun self => compute_regularization self hiddens) in
  let* _ := assign (set_regularization reg) in
  let* act_dec :=
    reading (fun self => Ok (match act_dec self with
                             | None => fun x => x
                             | Some f => TApply f
                             end)) in
  match inputs with
  | TList inps =>
      let* rs :=
        (fix each (l : list tensor) : state_exn Autoencoder (list tensor) :=
           match l with
           | [] => ret []
           | inp :: rest =>
               let* r := reconstruct inp in
               let* rs := each rest in
               ret (r :: rs)
           end) inps in
      ret (TList rs)
  | _ =>
      reading (fun self =>
        match tensor_dot hiddens (w_prime self) with
        | Raise e => Raise e
        | Ok hw => match tensor_add (visbias self) hw with
                   | Raise e => Raise e
                   | Ok y => Ok (act_dec y)
                   end
        end)
  end.

Definition compute_penalty_value (self : Autoencoder) : tensor :=
  regularization self.

(** [__call__] aliases [encode]. *)
Definition __call__ (self : Autoencoder) (inputs : tensor) : result tensor :=
  encode self inputs.

(** ** class DenoisingAutoencoder *)

Definition DenoisingAutoencoder__init__ (self : Autoencoder)
  (corruptor : Corruptor) (nvis nhid : Z)
  (act_enc act_dec : act_conf) (tied_weights : bool)
  (solution : option string)
  (sparse_penalty sparsity_target sparsity_target_penalty irange : Q)
  (rng : rng_arg) : M Autoencoder :=
  let* self := __init__ self nvis nhid act_enc act_dec tied_weights solution
                 sparse_penalty sparsity_target sparsity_target_penalty
                 irange rng in
  ret (set_corruptor (Some corruptor) self).

(** ** class ContractingAutoencoder *)

(** Modelled from the spec: [is_pure_elemwise] lives in
    [utils/theano_graph.py], which is not among the sources.  A graph is
    purely elementwise when it "applies independently to each coordinate,
    no cross-coordinate mixing": it is one of the inputs, a constant, or
    an elementwise op applied to purely elementwise graphs. *)
Fixpoint is_pure_elemwise (graph : tensor) (inputs : list tensor) : bool :=
  match graph with
  | TVar i =>
      existsb (fun x => match x with TVar j => Nat.eqb i j | _ => false end)
              inputs
  | TConst _ => true
  | TApply (Elemwise _) a => is_pure_elemwise a inputs
  | TAdd a b | TSub a b | TMul a b =>
      is_pure_elemwise a inputs && is_pure_elemwise b inputs
  | TSqr a => is_pure_elemwise a inputs
  | _ => false
  end.

(** [f(x)] where [f] is an attribute that may be [None]. *)
Definition call_attr (f : option callable) (x : tensor) : M tensor :=
  match f with
  | None => raise (TypeError "'NoneType' object is not callable")
  | Some f => ret (TApply f x)
  end.

Definition ContractingAutoencoder__init__ (self : Autoencoder)
  (nvis nhid : Z)
  (act_enc' act_dec : act_conf) (tied_weights : bool)
  (solution : option string)
  (sparse_penalty sparsity_target sparsity_target_penalty irange : Q)
  (rng : rng_arg) : M Autoencoder :=
  let* self := __init__ self nvis nhid act_enc' act_dec tied_weights solution
                 sparse_penalty sparsity_target sparsity_target_penalty
                 irange rng in
  let* dummyinput := tensor_matrix in
  let* graph := call_attr (act_enc self) dummyinput in
  if negb (is_pure_elemwise graph [dummyinput])
  then raise (ValueError "Invalid encoder activation function: not an elementwise function of its input")
  else ret self.

(** ** The stack *)

(** Modelled from the spec: [StackedBlocks] is defined in [base.py],
    which is not among the sources.  It is "an ordered sequence of
    layers", "exposing chained encode across the whole stack": each
    layer encodes the output of the layer below. *)
Record StackedBlocks := { layers : list Autoencoder }.

Fixpoint chain (ls : list Autoencoder) (x : tensor) : result tensor :=
  match ls with
  | [] => Ok x
  | l :: rest =>
      match __call__ l x with
      | Raise e => Raise e
      | Ok h => chain rest h
      end
  end.

Definition StackedBlocks_encode (s : StackedBlocks) (inputs : tensor)
  : result tensor := chain (layers s) inputs.

(** An argument of [build_stacked_ae] is one value for all the layers
    or a sequence with one value for each ([hasattr(x, '__len__')], a
    [str] apart). *)
Inductive per_layer (A : Type) :=
| Single (a : A)
| Sequence (l : list A).
Arguments Single {A} a.
Arguments Sequence {A} l.

Definition broadcast {A} (x : per_layer A) (n : nat) : M (list A) :=
  match x with
  | Sequence l => let* _ := assert_ (Nat.eqb n (length l)) "" in ret l
  | Single a => ret (replicate n a)
  end.

(** One item of [izip(nhids, nviss, final['act_enc'], ...)]. *)
Definition layer_args : Type :=
  Z * (Z * (act_conf * (act_conf * (option Corruptor * (bool * (bool *
  (Q * (option string * (Q * (Q * Q)))))))))).

(** The body of the loop "Create each layer". *)
Definition build_layer (rng : nat) (item : layer_args) : M Autoencoder :=
  let '(nhid, (nvis, (act_enc, (act_dec, (corr, (cae, (tied, (ir,
        (sol, (spar_pen, (spar_tar, spar_tar_pen))))))))))) := item in
  if cae && bool_decide (corr <> None)
  then raise (ValueError "Can't specify denoising and contracting objectives simultaneously")
  else if cae
  then ContractingAutoencoder__init__ (new_instance Contracting) nvis nhid
         act_enc act_dec tied sol spar_pen spar_tar spar_tar_pen ir
         (Generator rng)
  else match corr with
       | Some corr =>
           DenoisingAutoencoder__init__ (new_instance Denoising) corr
             nvis nhid act_enc act_dec tied sol spar_pen spar_tar
             spar_tar_pen ir (Generator rng)
       | None =>
           __init__ (new_instance Plain) nvis nhid act_enc act_dec tied sol
             spar_pen spar_tar spar_tar_pen ir (Generator rng)
       end.

Fixpoint build_layers (rng : nat) (seq : list layer_args)
  (layers : list Autoencoder) : M (list Autoencoder) :=
  match seq with
  | [] => ret layers
  | item :: rest =>
      let* autoenc := build_layer rng item in
      build_layers rng rest (layers ++ [autoenc])
  end.

Definition build_stacked_ae (nvis : Z) (nhids : list Z)
  (act_enc act_dec : per_layer act_conf)
  (tied_weights : per_layer bool) (irange : per_layer Q) (rng : rng_arg)
  (corruptor : per_layer (option Corruptor)) (contracting : per_layer bool)
  (solution : per_layer (option string))
  (sparse_penalty sparsity_target sparsity_target_penalty : per_layer Q)
  : M StackedBlocks :=
  let* rng := as_generator rng in
  let n := length nhids in
  let* final_corruptor := broadcast corruptor n in
  let* final_contracting := broadcast contracting n in
  let* final_act_enc := broadcast act_enc n in
  let* final_act_dec := broadcast act_dec n in
  let* final_tied_weights := broadcast tied_weights n in
  let* final_irange := broadcast irange n in
  let* final_solution := broadcast solution n in
  let* final_sparse_penalty := broadcast sparse_penalty n in
  let* final_sparsity_target := broadcast sparsity_target n in
  let* final_sparsity_target_penalty := broadcast sparsity_target_penalty n in
  let nviss := nvis :: removelast nhids in
  let seq :=
    zip nhids (zip nviss (zip final_act_enc (zip final_act_dec
    (zip final_corruptor (zip final_contracting (zip final_tied_weights
    (zip final_irange (zip final_solution (zip final_sparse_penalty
    (zip final_sparsity_target final_sparsity_target_penalty)))))))))) in
  let* layers := build_layers rng seq [] in
  ret {| layers := layers |}.

End Model.

Arguments Single {A} a.
Arguments Sequence {A} l.

(** ** A generator and a registry to run the model on

    numpy's Mersenne twister and Theano's namespaces are outside the
    module.  To evaluate the model on concrete inputs it is run on a
    linear congruential generator and on a registry with the usual
    names; the scalar functions are rational stand-ins. *)

Definition lcg_modulus : positive := 2147483648.
Definition lcg_next (s : Z) : Z :=
  (1103515245 * s + 12345) mod Z.pos lcg_modulus.

#[local] Instance lcg : NumpyRandom := {|
  RandomState := Z;
  seed_state z := z mod Z.pos lcg_modulus;
  random_sample g := (Qmake (lcg_next g) lcg_modulus, lcg_next g);
  randint high g := (lcg_next g mod high, lcg_next g);
  random_sample_range g :=
    ltac:(abstract
            (assert (0 <= lcg_next g < Z.pos lcg_modulus)
               by (apply Z.mod_pos_bound; reflexivity);
             unfold Qle, Qlt; cbn [fst Qnum Qden]; split; lia))
|}.

Definition Qabs' (x : Q) : Q := if Qle_bool 0 x then x else (- x)%Q.

Definition standin (op : string) (x : Q) : Q :=
  if String.eqb op "rectifier" then (if Qle_bool 0 x then x else 0%Q)
  else if String.eqb op "sigmoid" then ((1 + x / (1 + Qabs' x)) / 2)%Q
  else if String.eqb op "tanh" then (x / (1 + Qabs' x))%Q
  else if String.eqb op "exp" then (if Qle_bool 0 x then 1 + x else 1 / (1 - x))%Q
  else x.

#[local] Instance registry : TheanoNames := {|
  module_globals name :=
    if String.eqb name "rectifier" then Some (Elemwise "rectifier") else None;
  tensor_nnet name :=
    if String.eqb name "sigmoid" then Some (Elemwise "sigmoid")
    else if String.eqb name "softmax" then Some Softmax
    else None;
  tensor_ns name :=
    if String.eqb name "tanh" then Some (Elemwise "tanh")
    else if String.eqb name "exp" then Some (Elemwise "exp")
    else if String.eqb name "sum" then Some Sum
    else None;
  scalar_impl := standin
|}.

Definition empty_world {G : Type} : Heap G :=
  {| values := []; generators := []; placeholders := 0 |}.

(** The value of an attribute that holds a graph, for a content of the
    store and a feed of the placeholders; and its value in a world, with
    nothing fed. *)
Definition value_in_store `{TheanoNames} (store : list ndarray)
  (feed : gmap nat ndarray) (t : option tensor) : option ndarray :=
  t ≫= eval scalar_impl store feed.

Definition value_in `{NumpyRandom} `{TheanoNames} (w : World)
  (t : option tensor) : option ndarray :=
  value_in_store (values w) ∅ t.

(** ** The vocabulary of the statements *)

(** The array [.5 - u * irange] drawn for a weight matrix. *)
Definition centred (ir : Q) (u : Q) : Q := ((1 # 2) - u * ir)%Q.

(** What a construction draws from a generator in state [g0]: the
    encoder weights (when [nvis > 0]), then the seed of the Theano
    stream, then the decoder weights (when the weights are not tied). *)
Definition drawn_weights `{NumpyRandom} (nvis nhid' : Z) (ir : Q)
  (g0 : RandomState) : ndarray :=
  Matrix (Z.to_nat nvis) (Z.to_nat nhid')
    (map (map (centred ir))
       (rand_rows (Z.to_nat nvis) (Z.to_nat nhid') g0).1).

Definition before_seed `{NumpyRandom} (nvis nhid' : Z) (g0 : RandomState)
  : RandomState :=
  if 0 <? nvis
  then (rand_rows (Z.to_nat nvis) (Z.to_nat nhid') g0).2
  else g0.

Definition stream_seed `{NumpyRandom} (nvis nhid' : Z) (g0 : RandomState)
  : Z :=
  (randint (2 ^ 30) (before_seed nvis nhid' g0)).1.

Definition after_weights `{NumpyRandom} (nvis nhid' : Z) (g0 : RandomState)
  : RandomState :=
  (randint (2 ^ 30) (before_seed nvis nhid' g0)).2.

Definition drawn_w_prime `{NumpyRandom} (nvis nhid' : Z) (ir : Q)
  (g0 : RandomState) : ndarray :=
  Matrix (Z.to_nat nhid') (Z.to_nat nvis)
    (map (map (centred ir))
       (rand_rows (Z.to_nat nhid') (Z.to_nat nvis)
          (after_weights nvis nhid' g0)).1).

Definition after_w_prime `{NumpyRandom} (nvis nhid' : Z) (g0 : RandomState)
  : RandomState :=
  (rand_rows (Z.to_nat nhid') (Z.to_nat nvis) (after_weights nvis nhid' g0)).2.

(** The outcome of a construction, attribute by attribute: [__init__]
    was run on [self] in the heap [w] and returned [a] in the heap [w'];
    [r] is its generator, in state [g0] when the construction started,
    in the heap [w0]. *)
Set Implicit Arguments.
Record initialised `{NumpyRandom} `{TheanoNames} (self : Autoencoder)
    (nvis nhid' : Z) (enc dec : act_conf) (tied : bool)
    (sol : option string) (sp st stp ir : Q) (w : World)
    (a : Autoencoder) (w' : World) (r : nat) (w0 : World)
    (g0 : RandomState) : Prop := {
  init_generator : generators w0 !! r = Some g0;
  init_nvis : 0 <= nvis;
  init_nhid_positive : 0 < nhid';
  init_tied_nvis : tied = true -> 0 < nvis;
  init_class : class_of a = class_of self;
  init_nhid : nhid a = nhid';
  init_irange : irange a = ir;
  init_tied : tied_weights a = tied;
  init_rng : rng a = r;
  init_hidbias : hidbias a = Some (TShared (length (values w)));
  init_visbias :
    visbias a = (if 0 <? nvis then Some (TShared (1 + length (values w)))
                 else None);
  init_weights :
    weights a = (if 0 <? nvis then Some (TShared (2 + length (values w)))
                 else None);
  init_s_rng : s_rng a = Some (stream_seed nvis nhid' g0);
  init_w_prime :
    w_prime a = (if tied then TTranspose <$> weights a
                 else Some (TShared (if 0 <? nvis
                                     then (3 + length (values w))%nat
                                     else (1 + length (values w))%nat)));
  init_act_enc : _resolve_callable enc "act_enc" w' = (Ok (act_enc a), w');
  init_act_dec : _resolve_callable dec "act_dec" w' = (Ok (act_dec a), w');
  init_params : _params a = build_params a;
  init_solution : solution a = sol;
  init_sparse_penalty : sparse_penalty a = sp;
  init_sparsity_target : sparsity_target a = st;
  init_sparsity_target_penalty : sparsity_target_penalty a = stp;
  init_regularization : regularization a = TConst 0%Q;
  init_hiddens : hiddens a = hiddens self;
  init_corruptor : corruptor a = corruptor self;
  init_store :
    values w' =
      values w ++ [Vector (replicate (Z.to_nat nhid') 0%Q)]
        ++ (if 0 <? nvis
            then [Vector (replicate (Z.to_nat nvis) 0%Q);
                  drawn_weights nvis nhid' ir g0]
            else [])
        ++ (if tied then [] else [drawn_w_prime nvis nhid' ir g0]);
  init_generators :
    generators w' =
      <[r := if tied then after_weights nvis nhid' g0
             else after_w_prime nvis nhid' g0]> (generators w0);
  init_placeholders : placeholders w' = placeholders w
}.
Unset Implicit Arguments.

(** The [rng] argument is accepted: a seed that [RandomState] takes, or
    a generator of the heap. *)
Definition generator_exists `{NumpyRandom} (rng' : rng_arg) (w : World)
  : Prop :=
  match rng' with
  | Seed z => valid_seed z = true
  | Generator r => is_Some (generators w !! r)
  end.
(** The sum of the squared deviations of the entries of [x] from [t]. *)
Definition squared_deviations (t : Q) (x : ndarray) : Q :=
  nd_sum (nd_map (fun v => (v - t) * (v - t))%Q x).
(** The penalty settings of an instance. *)
Definition same_penalties (s1 s2 : Autoencoder) : Prop :=
  solution s1 = solution s2 /\ sparse_penalty s1 = sparse_penalty s2 /\
  sparsity_target s1 = sparsity_target s2 /\
  sparsity_target_penalty s1 = sparsity_target_penalty s2.
(** The heap after [tensor.matrix()]. *)
Definition one_more_placeholder {G} (w : Heap G) : Heap G :=
  {| values := values w; generators := generators w;
     placeholders := S (placeholders w) |}.
(** The class [build_stacked_ae] selects for a layer, from its
    [contracting] flag and its corruptor. *)
Definition selected_class (cae : bool) (corr : option Corruptor) : ae_class :=
  if cae then Contracting
  else match corr with Some _ => Denoising | None => Plain end.
(** The value of an argument of [build_stacked_ae] for layer [i]. *)
Definition at_layer {A} (x : per_layer A) (i : nat) : option A :=
  match x with
  | Single a => Some a
  | Sequence s => s !! i
  end.
(** The instance after [reconstruct] has cached [h] and [reg]. *)
Definition cached (h reg : tensor) (self : Autoencoder) : Autoencoder :=
  set_regularization reg (set_hiddens (Some h) self).
(** The loop [[self.reconstruct(inp) for inp in inputs]]. *)
Definition reconstruct_each
  : list tensor -> state_exn Autoencoder (list tensor) :=
  fix each (l : list tensor) : state_exn Autoencoder (list tensor) :=
    match l with
    | [] => ret []
    | inp :: rest =>
        let* r := reconstruct inp in
        let* rs := each rest in
        ret (r :: rs)
    end.
(** A layer whose weights and hidden bias are in the store, with [nv]
    visible and [nh] hidden units. *)
Definition layer_ready (store : list ndarray) (a : Autoencoder)
  (nv nh : nat) : Prop :=
  exists iw ib rows,
    weights a = Some (TShared iw) /\ hidbias a = Some (TShared ib) /\
    store !! iw = Some (Matrix nv nh rows) /\ rows_wf nv nh rows /\
    store !! ib = Some (Vector (replicate nh 0%Q)).
(** Instances and heaps on which the statements are tried. *)
Definition l1_instance : Autoencoder :=
  set_penalties (Some "l1_penalty"%string) (1 # 10) 0 0 (new_instance Plain).
Definition sqr_instance : Autoencoder :=
  set_penalties (Some "sqr_penalty"%string) 0 (1 # 10) 1
    (set_hidbias (Some (TShared 0))
       (set_weights (Some (TShared 1)) (new_instance Plain))).
Definition tied_instance : Autoencoder :=
  set_weights (Some (TShared 0))
    (set_sizes 3 (1 # 1000) true (new_instance Plain)).
Definition one_generator : Heap Z :=
  {| values := [Matrix 2 3 [[0; 0; 0]; [0; 0; 0]]%Q];
     generators := [9001];
     placeholders := 0 |}.

(** ** Further vocabulary: errors, stores, lists and stacks *)

(** An activation that keeps the shape of its argument: the identity
    ([None]), an elementwise op, [softmax]. *)
Definition keeps_shape (f : option callable) : bool :=
  match f with
  | Some Sum => false
  | _ => true
  end.

(** The message of the [ValueError] of [_resolve_callable]. *)
Definition unknown_activation (conf_attr name : string) : exn :=
  ValueError ("Couldn't interpret " ++ conf_attr ++ " value: '" ++ name ++ "'").

(** How many shared variables a construction allocates. *)
Definition allocated (nvis : Z) (tied : bool) : nat :=
  ((if (0 <? nvis)%Z then 3 else 1) + (if tied then 0 else 1))%nat.

(** An array with [n] rows and no column. *)
Definition no_column (n : nat) : ndarray := Matrix n 0 (replicate n []).

(** The state in which a construction leaves its generator. *)
Definition generator_after `{NumpyRandom} (nvis nhid' : Z) (tied : bool)
  (g0 : RandomState) : RandomState :=
  if tied then after_weights nvis nhid' g0 else after_w_prime nvis nhid' g0.

(** The entries of a matrix lie in [(1/2 - ir, 1/2]]. *)
Definition entries_below_half (ir : Q) (x : option ndarray) (r c : nat)
  : Prop :=
  exists rows,
    x = Some (Matrix r c rows) /\ rows_wf r c rows /\
    Forall (Forall (fun v => (1 # 2) - ir < v /\ v <= 1 # 2)%Q) rows.

(** The comprehension [[self.encode(v) for v in inputs]]. *)
Definition encode_each (self : Autoencoder)
  : list tensor -> result (list tensor) :=
  fix each (l : list tensor) : result (list tensor) :=
    match l with
    | [] => Ok []
    | v :: rest =>
        match encode self v with
        | Raise e => Raise e
        | Ok h => match each rest with
                  | Raise e => Raise e
                  | Ok hs => Ok (h :: hs)
                  end
        end
    end.

(** A model whose visible bias and decoder weights are in the store,
    with [nv] visible and [nh] hidden units. *)
Definition decoder_ready `{TheanoNames} (store : list ndarray)
  (a : Autoencoder) (nv nh : nat) : Prop :=
  exists iv wp rows,
    visbias a = Some (TShared iv) /\
    store !! iv = Some (Vector (replicate nv 0%Q)) /\
    w_prime a = Some wp /\
    (forall feed, eval scalar_impl store feed wp = Some (Matrix nh nv rows)) /\
    rows_wf nh nv rows.

(** What [reconstruct] returns for the hidden activations [h]. *)
Definition decode (self : Autoencoder) (h : tensor) : result tensor :=
  match tensor_dot h (w_prime self) with
  | Raise e => Raise e
  | Ok hw =>
      match tensor_add (visbias self) hw with
      | Raise e => Raise e
      | Ok y => Ok (match act_dec self with
                    | None => y
                    | Some f => TApply f y
                    end)
      end
  end.

(** An argument of [build_stacked_ae] fits [n] layers: it is one value,
    or a sequence of [n] values. *)
Definition fits {A} (n : nat) (x : per_layer A) : bool :=
  match x with
  | Single _ => true
  | Sequence l => Nat.eqb n (length l)
  end.

(** The number of parameters of a model: the entries of [_params] that
    are not [None]. *)
Definition parameter_count (a : Autoencoder) : nat :=
  length (omap id (_params a)).

(** ** Method resolution: [DenoisingAutoencoder.reconstruct]

    [Autoencoder.reconstruct] calls [self.reconstruct] on the items of a
    list, and a [DenoisingAutoencoder] overrides the method: which body
    runs depends on the class of [self].  A corruptor is a callable of
    the caller; it may keep a state of its own (a random stream), and
    what it returns for a list is its own business, so that the mutual
    recursion of the two methods need not end: a computation gets some
    fuel, one unit for each call of [self.reconstruct], and is [None]
    when it runs out. *)

Definition partial (S A : Type) : Type := S -> option (result A * S).

Definition pret {S A} (a : A) : partial S A := fun s => Some (Ok a, s).
Definition pbind {S A B} (m : partial S A) (k : A -> partial S B)
  : partial S B :=
  fun s => match m s with
           | None => None
           | Some (Ok a, s') => k a s'
           | Some (Raise e, s') => Some (Raise e, s')
           end.

Notation "'let+' x ':=' m 'in' k" := (pbind m (fun x => k))
  (at level 10, x name, m at level 100, k at level 200).

Section Dispatch.
(** The state of the corruptors, and what calling one does. *)
Context {CS : Type}.
Variable corrupt : Corruptor -> tensor -> state_exn CS tensor.

(** A step on the instance, and a step on the corruptors. *)
Definition of_self {A} (m : state_exn Autoencoder A)
  : partial (Autoencoder * CS) A :=
  fun s => let (r, self') := m s.1 in Some (r, (self', s.2)).
Definition of_corruptor {A} (m : state_exn CS A)
  : partial (Autoencoder * CS) A :=
  fun s => let (r, cs') := m s.2 in Some (r, (s.1, cs')).

(** [[self.reconstruct(inp) for inp in inputs]] *)
Fixpoint reconstruct_items
  (self_reconstruct : tensor -> partial (Autoencoder * CS) tensor)
  (inputs : list tensor) : partial (Autoencoder * CS) (list tensor) :=
  match inputs with
  | [] => pret []
  | inp :: rest =>
      let+ r := self_reconstruct inp in
      let+ rs := reconstruct_items self_reconstruct rest in
      pret (r :: rs)
  end.

(** The body of [Autoencoder.reconstruct]; [self_reconstruct] is the
    method that [self.reconstruct] resolves to. *)
Definition Autoencoder_reconstruct
  (self_reconstruct : tensor -> partial (Autoencoder * CS) tensor)
  (inputs : tensor) : partial (Autoencoder * CS) tensor :=
  let+ hiddens := of_self (reading (fun self => encode self inputs)) in
  let+ _ := of_self (assign (set_hiddens (Some hiddens))) in
  let+ reg :=
    of_self (reading (fun self => compute_regularization self hiddens)) in
  let+ _ := of_self (assign (set_regularization reg)) in
  let+ act_dec :=
    of_self (reading (fun self => Ok (match act_dec self with
                                      | None => fun x => x
                                      | Some f => TApply f
                                      end))) in
  match inputs with
  | TList inps =>
      let+ rs := reconstruct_items self_reconstruct inps in
      pret (TList rs)
  | _ =>
      of_self (reading (fun self =>
        match tensor_dot hiddens (w_prime self) with
        | Raise e => Raise e
        | Ok hw => match tensor_add (visbias self) hw with
                   | Raise e => Raise e
                   | Ok y => Ok (act_dec y)
                   end
        end))
  end.

(** The body of [DenoisingAutoencoder.reconstruct]; [super_reconstruct]
    is [Autoencoder.reconstruct] on the same instance.  An instance on
    which [DenoisingAutoencoder.__init__] has not run has no attribute
    [corruptor]. *)
Definition DenoisingAutoencoder_reconstruct
  (super_reconstruct : tensor -> partial (Autoencoder * CS) tensor)
  (inputs : tensor) : partial (Autoencoder * CS) tensor :=
  let+ c :=
    of_self (reading (fun self =>
      match corruptor self with
      | None => Raise (AttributeError "'DenoisingAutoencoder' object has no attribute 'corruptor'")
      | Some c => Ok c
      end)) in
  let+ corrupted := of_corruptor (corrupt c inputs) in
  super_reconstruct corrupted.

(** [self.reconstruct(inputs)] *)
Fixpoint self_reconstruct (fuel : nat) (inputs : tensor)
  : partial (Autoencoder * CS) tensor :=
  match fuel with
  | O => fun _ => None
  | S fuel' => fun s =>
      match class_of s.1 with
      | Denoising =>
          DenoisingAutoencoder_reconstruct
            (Autoencoder_reconstruct (self_reconstruct fuel')) inputs s
      | _ => Autoencoder_reconstruct (self_reconstruct fuel') inputs s
      end
  end.

(** The corruptor called on each item of a list, in order. *)
Fixpoint corrupt_each (c : Corruptor) (l : list tensor)
  : state_exn CS (list tensor) :=
  match l with
  | [] => ret []
  | x :: rest =>
      let* y := corrupt c x in
      let* ys := corrupt_each c rest in
      ret (y :: ys)
  end.

End Dispatch.

(** A corruptor to run the model on: it halves a batch, or every batch
    of a list, and counts its calls. *)
Definition halve (x : tensor) : tensor :=
  match x with
  | TList l => TList (map (TMul (TConst (1 # 2))) l)
  | _ => TMul (TConst (1 # 2)) x
  end.
Definition counting_corruptor (c : Corruptor) (x : tensor)
  : state_exn nat tensor :=
  fun calls => (Ok (halve x), S calls).
Definition denoising_instance : Autoencoder :=
  set_corruptor (Some (CorruptorObject 0))
    (set_w_prime (Some (TTranspose (TShared 1)))
       (set_visbias (Some (TShared 2))
          (set_hidbias (Some (TShared 0))
             (set_weights (Some (TShared 1)) (new_instance Denoising))))).
Definition plain_instance : Autoencoder :=
  set_w_prime (Some (TTranspose (TShared 1)))
    (set_visbias (Some (TShared 2))
       (set_hidbias (Some (TShared 0))
          (set_weights (Some (TShared 1)) (new_instance Plain)))).

(** * Properties *)

(** ** Running a computation *)

Lemma bind_ok {S A B} (m : state_exn S A) (k : A -> state_exn S B) w b w' :
  bind m k w = (Ok b, w') ->
  exists a w1, m w = (Ok a, w1) /\ k a w1 = (Ok b, w').
Proof.
  unfold bind. destruct (m w) as [[a|e] w1]; [eauto | discriminate].
Qed.

Lemma bind_step {S A B} (m : state_exn S A) (k : A -> state_exn S B) w a w1 :
  m w = (Ok a, w1) -> bind m k w = k a w1.
Proof. unfold bind. intros ->. reflexivity. Qed.

Lemma bind_raise {S A B} (m : state_exn S A) (k : A -> state_exn S B) w e w1 :
  m w = (Raise e, w1) -> bind m k w = (Raise e, w1).
Proof. unfold bind. intros ->. reflexivity. Qed.

Ltac bind_inv H :=
  let a := fresh "a" in
  let w1 := fresh "w" in
  let E := fresh "E" in
  apply bind_ok in H; destruct H as (a & w1 & E & H).

Tactic Notation "step_in" hyp(H) "as" ident(a) ident(w) ident(E) :=
  apply bind_ok in H; destruct H as (a & w & E & H).

Section Primitives.
Context {NR : NumpyRandom} {TN : TheanoNames}.

Lemma assert_ok (c : bool) msg (w w' : World) u :
  assert_ c msg w = (Ok u, w') -> c = true /\ w' = w.
Proof.
  unfold assert_. destruct c; cbv [ret raise]; intros E; inversion E; auto.
Qed.

Lemma length_rand_row m g : length (rand_row m g).1 = m.
Proof.
  revert g. induction m as [|m IH]; intros g; simpl; [reflexivity|].
  destruct (random_sample g) as [u g1].
  specialize (IH g1). destruct (rand_row m g1) as [us g2].
  simpl in IH |- *. rewrite IH. reflexivity.
Qed.

Lemma rand_rows_wf n m g : rows_wf n m (rand_rows n m g).1.
Proof.
  revert g. induction n as [|n IH]; intros g; simpl.
  - split; [reflexivity | constructor].
  - pose proof (length_rand_row m g) as Hr.
    destruct (rand_row m g) as [row g1].
    specialize (IH g1). destruct (rand_rows n m g1) as [rows g2].
    destruct IH as [Hl Hf]. simpl in Hr, Hl, Hf |- *.
    split; [simpl; rewrite Hl; reflexivity | constructor; assumption].
Qed.

(** Every draw of [rand] lies in [[0, 1)]. *)
Lemma rand_row_range m g :
  Forall (fun u => 0 <= u /\ u < 1)%Q (rand_row m g).1.
Proof.
  revert g. induction m as [|m IH]; intros g; simpl; [constructor|].
  pose proof (random_sample_range g) as Hr.
  destruct (random_sample g) as [u g1].
  specialize (IH g1). destruct (rand_row m g1) as [us g2].
  simpl in *. constructor; assumption.
Qed.

Lemma rand_rows_range n m g :
  Forall (Forall (fun u => 0 <= u /\ u < 1)%Q) (rand_rows n m g).1.
Proof.
  revert g. induction n as [|n IH]; intros g; simpl; [constructor|].
  pose proof (rand_row_range m g) as Hr.
  destruct (rand_row m g) as [row g1].
  specialize (IH g1). destruct (rand_rows n m g1) as [rows g2].
  simpl in *. constructor; assumption.
Qed.

Lemma numpy_zeros_ok n (w w' : World) z :
  numpy_zeros n w = (Ok z, w') ->
  0 <= n /\ z = Vector (replicate (Z.to_nat n) 0%Q) /\ w' = w.
Proof.
  unfold numpy_zeros. destruct (Z.ltb_spec n 0); cbv [ret raise]; intros Hz;
    inversion Hz; subst. repeat split. lia.
Qed.

Lemma rng_rand_ok r n m (w w' : World) x :
  rng_rand r n m w = (Ok x, w') ->
  exists g, generators w !! r = Some g /\ 0 <= n /\ 0 <= m /\
    x = Matrix (Z.to_nat n) (Z.to_nat m)
          (rand_rows (Z.to_nat n) (Z.to_nat m) g).1 /\
    w' = put_generator r (rand_rows (Z.to_nat n) (Z.to_nat m) g).2 w.
Proof.
  unfold rng_rand, with_generator.
  destruct (generators w !! r) as [g|]; [|discriminate].
  destruct (Z.ltb_spec n 0); [discriminate|].
  destruct (Z.ltb_spec m 0); [discriminate|]. simpl.
  destruct (rand_rows (Z.to_nat n) (Z.to_nat m) g) as [rows g'] eqn:Er.
  intros E; inversion E; subst. exists g. rewrite Er.
  repeat split; solve [assumption | reflexivity].
Qed.

Lemma rng_rand_run r n m (w : World) g :
  generators w !! r = Some g -> 0 <= n -> 0 <= m ->
  rng_rand r n m w =
    (Ok (Matrix (Z.to_nat n) (Z.to_nat m)
           (rand_rows (Z.to_nat n) (Z.to_nat m) g).1),
     put_generator r (rand_rows (Z.to_nat n) (Z.to_nat m) g).2 w).
Proof.
  intros Hg Hn Hm. unfold rng_rand, with_generator. rewrite Hg.
  destruct (Z.ltb_spec n 0); [lia|]. destruct (Z.ltb_spec m 0); [lia|]. simpl.
  destruct (rand_rows (Z.to_nat n) (Z.to_nat m) g) as [rows g']. reflexivity.
Qed.

Lemma rng_randint_inv r high (w w' : World) z :
  rng_randint r high w = (Ok z, w') ->
  exists g, generators w !! r = Some g /\
    z = (randint high g).1 /\ w' = put_generator r (randint high g).2 w.
Proof.
  unfold rng_randint, with_generator.
  destruct (generators w !! r) as [g|]; [|discriminate].
  destruct (randint high g) as [z' g'] eqn:Er.
  intros E; inversion E; subst. exists g. rewrite Er. auto.
Qed.

Lemma rng_randint_run r high (w : World) g :
  generators w !! r = Some g ->
  rng_randint r high w =
    (Ok (randint high g).1, put_generator r (randint high g).2 w).
Proof.
  intros Hg. unfold rng_randint, with_generator. rewrite Hg.
  destruct (randint high g) as [z' g']. reflexivity.
Qed.

Lemma put_generator_lookup r g (w : World) g0 :
  generators w !! r = Some g0 ->
  generators (put_generator r g w) !! r = Some g.
Proof.
  intros Hg. simpl. apply list_lookup_insert_eq.
  eapply lookup_lt_Some; eassumption.
Qed.

Lemma numpy_zeros_run n (w : World) :
  0 <= n -> numpy_zeros n w = (Ok (Vector (replicate (Z.to_nat n) 0%Q)), w).
Proof.
  intros Hn. unfold numpy_zeros. destruct (Z.ltb_spec n 0); [lia|]. reflexivity.
Qed.

End Primitives.

(** ** What the allocation methods do *)

Section Construction.
Context {NR : NumpyRandom} {TN : TheanoNames}.

Lemma initialize_hidbias_inv self (w : World) s' w' :
  _initialize_hidbias self w = (Ok s', w') ->
  0 <= nhid self /\
  s' = set_hidbias (Some (TShared (length (values w)))) self /\
  w' = allocate (Vector (replicate (Z.to_nat (nhid self)) 0%Q)) w.
Proof.
  unfold _initialize_hidbias. intros H. bind_inv H.
  apply numpy_zeros_ok in E as (Hn & -> & ->).
  bind_inv H. unfold sharedX in E. inversion E; subst.
  cbv [ret] in H. inversion H; subst. auto.
Qed.

Lemma initialize_visbias_inv self nvis (w : World) s' w' :
  _initialize_visbias self nvis w = (Ok s', w') ->
  0 <= nvis /\
  s' = set_visbias (Some (TShared (length (values w)))) self /\
  w' = allocate (Vector (replicate (Z.to_nat nvis) 0%Q)) w.
Proof.
  unfold _initialize_visbias. intros H. bind_inv H.
  apply numpy_zeros_ok in E as (Hn & -> & ->).
  bind_inv H. unfold sharedX in E. inversion E; subst.
  cbv [ret] in H. inversion H; subst. auto.
Qed.

Lemma initialize_weights_inv self nvis rng' irange' (w : World) s' w' :
  _initialize_weights self nvis rng' irange' w = (Ok s', w') ->
  exists g,
    generators w !! or_else rng' (rng self) = Some g /\
    0 <= nvis /\ 0 <= nhid self /\
    s' = set_weights (Some (TShared (length (values w)))) self /\
    w' = allocate
           (Matrix (Z.to_nat nvis) (Z.to_nat (nhid self))
              (map (map (centred (irange self)))
                 (rand_rows (Z.to_nat nvis) (Z.to_nat (nhid self)) g).1))
           (put_generator (or_else rng' (rng self))
              (rand_rows (Z.to_nat nvis) (Z.to_nat (nhid self)) g).2 w).
Proof.
  unfold _initialize_weights. intros H. bind_inv H.
  apply rng_rand_ok in E as (g & Hg & Hn & Hm & -> & ->).
  bind_inv H. unfold sharedX in E. inversion E; subst.
  cbv [ret] in H. inversion H; subst. exists g. auto.
Qed.

(** The assertion of [_initialize_w_prime] holds whatever the model. *)
Lemma w_prime_assertion (b : bool) msg (w : World) :
  assert_value (PyTuple [PyBool b; PyStr msg]) w = (Ok tt, w).
Proof. reflexivity. Qed.

Lemma initialize_w_prime_inv self nvis rng' irange' (w : World) s' w' :
  _initialize_w_prime self nvis rng' irange' w = (Ok s', w') ->
  exists g,
    generators w !! or_else rng' (rng self) = Some g /\
    0 <= nvis /\ 0 <= nhid self /\
    s' = set_w_prime (Some (TShared (length (values w)))) self /\
    w' = allocate
           (Matrix (Z.to_nat (nhid self)) (Z.to_nat nvis)
              (map (map (centred (or_else irange' (irange self))))
                 (rand_rows (Z.to_nat (nhid self)) (Z.to_nat nvis) g).1))
           (put_generator (or_else rng' (rng self))
              (rand_rows (Z.to_nat (nhid self)) (Z.to_nat nvis) g).2 w).
Proof.
  unfold _initialize_w_prime. intros H.
  rewrite (bind_step _ _ _ _ _ (w_prime_assertion _ _ _)) in H.
  bind_inv H.
  apply rng_rand_ok in E as (g & Hg & Hn & Hm & -> & ->).
  bind_inv H. unfold sharedX in E. inversion E; subst.
  cbv [ret] in H. inversion H; subst. exists g. auto.
Qed.

Lemma initialize_w_prime_run self nvis rng' irange' (w : World) g :
  generators w !! or_else rng' (rng self) = Some g ->
  0 <= nvis -> 0 <= nhid self ->
  _initialize_w_prime self nvis rng' irange' w =
    (Ok (set_w_prime (Some (TShared (length (values w)))) self),
     allocate
       (Matrix (Z.to_nat (nhid self)) (Z.to_nat nvis)
          (map (map (centred (or_else irange' (irange self))))
             (rand_rows (Z.to_nat (nhid self)) (Z.to_nat nvis) g).1))
       (put_generator (or_else rng' (rng self))
          (rand_rows (Z.to_nat (nhid self)) (Z.to_nat nvis) g).2 w)).
Proof.
  intros Hg Hn Hm. unfold _initialize_w_prime.
  rewrite (bind_step _ _ _ _ _ (w_prime_assertion _ _ _)).
  rewrite (bind_step _ _ _ _ _ (rng_rand_run _ _ _ _ _ Hg Hm Hn)).
  reflexivity.
Qed.

End Construction.

(** ** What [__init__] does *)

Ltac init_facts Hb Hv0 Hp0 :=
  constructor;
  unfold stream_seed, after_w_prime, drawn_w_prime, after_weights,
    before_seed, drawn_weights;
  simpl;
  rewrite ?Hb, ?Hv0, ?Hp0;
  rewrite ?length_app; simpl; rewrite <- ?app_assoc;
  rewrite ?list_insert_insert_eq;
  try solve [reflexivity | assumption | discriminate | lia
            | apply Z.ltb_lt; assumption | do 2 f_equal; lia
            | intros; discriminate ].

Section Init.
Context {NR : NumpyRandom} {TN : TheanoNames}.

Lemma as_generator_inv rng' (w : World) r w0 :
  as_generator rng' w = (Ok r, w0) ->
  values w0 = values w /\ placeholders w0 = placeholders w /\
  match rng' with
  | Seed z => r = length (generators w) /\
              generators w0 = generators w ++ [seed_state z]
  | Generator r' => r = r' /\ generators w0 = generators w
  end.
Proof.
  destruct rng' as [z|r']; cbv [as_generator new_RandomState ret];
    [destruct (valid_seed z)|]; intros E;
    inversion E; subst; simpl; auto.
Qed.

Lemma resolve_callable_world conf attr (w : World) r w' :
  _resolve_callable conf attr w = (r, w') -> w' = w.
Proof.
  unfold _resolve_callable.
  destruct conf as [|name|f]; cbv [ret raise];
    try (intros E; inversion E; reflexivity).
  destruct (String.eqb name "linear");
    [intros E; inversion E; reflexivity|].
  destruct (module_globals name); [intros E; inversion E; reflexivity|].
  destruct (tensor_nnet name); [intros E; inversion E; reflexivity|].
  destruct (tensor_ns name); intros E; inversion E; reflexivity.
Qed.

(** A construction that succeeds is [initialised]. *)
Lemma init_inv self nvis nhid' enc dec tied sol sp st stp ir rng'
    (w : World) a w' :
  __init__ self nvis nhid' enc dec tied sol sp st stp ir rng' w = (Ok a, w') ->
  exists r w0 g0,
    as_generator rng' w = (Ok r, w0) /\
    initialised self nvis nhid' enc dec tied sol sp st stp ir w a w' r w0 g0.
Proof.
  unfold __init__. intros H.
  step_in H as u1 w1 E1. apply assert_ok in E1 as [Hnvis ->].
  step_in H as u2 w2 E2. apply assert_ok in E2 as [Hnhid ->].
  step_in H as r w0 Hgen.
  pose proof (as_generator_inv _ _ _ _ Hgen) as (Hv0 & Hp0 & Hg0).
  step_in H as s1 w1 E1. apply initialize_hidbias_inv in E1 as (_ & -> & ->).
  step_in H as s2 w2 Hvis.
  step_in H as seed w3 Hseed.
  step_in H as s3 w4 Hwp.
  step_in H as enc' w5 Henc.
  pose proof (resolve_callable_world _ _ _ _ _ Henc); subst w5.
  step_in H as dec' w6 Hdec.
  pose proof (resolve_callable_world _ _ _ _ _ Hdec); subst w6.
  cbv [ret] in H. inversion H; subst a w'. clear H.
  exists r, w0.
  destruct (Z.ltb_spec 0 nvis) as [Hpos|Hzero].
  - assert ((0 <? nvis) = true) as Hb by (apply Z.ltb_lt; exact Hpos).
    step_in Hvis as sv wv Ev.
    apply initialize_visbias_inv in Ev as (_ & -> & ->).
    apply initialize_weights_inv in Hvis as (g0 & Hg & _ & _ & -> & ->).
    simpl in Hg.
    apply rng_randint_inv in Hseed as (g1 & Hg1 & -> & ->).
    simpl in Hg1. rewrite list_lookup_insert_eq in Hg1
      by (eapply lookup_lt_Some; eassumption).
    inversion Hg1; subst g1. clear Hg1.
    exists g0. split; [exact Hgen|].
    destruct tied.
    + step_in Hwp as wT wq Ewt. cbv [attr_T ret] in Ewt. simpl in Ewt.
      inversion Ewt; subst wT wq. clear Ewt.
      cbv [ret] in Hwp. inversion Hwp; subst s3 w4. clear Hwp.
      init_facts Hb Hv0 Hp0.
    + apply initialize_w_prime_inv in Hwp as (g2 & Hg2 & _ & _ & -> & ->).
      simpl in Hg2. rewrite list_lookup_insert_eq in Hg2
        by (rewrite length_insert; eapply lookup_lt_Some; eassumption).
      inversion Hg2; subst g2. clear Hg2.
      init_facts Hb Hv0 Hp0.
  - assert (nvis = 0) as -> by (apply Z.leb_le in Hnvis; lia).
    assert ((0 <? 0) = false) as Hb by reflexivity.
    cbv [ret] in Hvis. inversion Hvis; subst s2 w2. clear Hvis.
    apply rng_randint_inv in Hseed as (g0 & Hg & -> & ->).
    simpl in Hg. exists g0. split; [exact Hgen|].
    destruct tied.
    + step_in Hwp as wT wq Ewt. cbv [attr_T raise] in Ewt. simpl in Ewt.
      discriminate Ewt.
    + apply initialize_w_prime_inv in Hwp as (g2 & Hg2 & _ & _ & -> & ->).
      simpl in Hg2. rewrite list_lookup_insert_eq in Hg2
        by (eapply lookup_lt_Some; eassumption).
      inversion Hg2; subst g2. clear Hg2.
      init_facts Hb Hv0 Hp0.
Qed.

End Init.

Section InitRuns.
Context {NR : NumpyRandom} {TN : TheanoNames}.

Lemma assert_run (c : bool) msg (w : World) :
  c = true -> assert_ c msg w = (Ok tt, w).
Proof. intros ->. reflexivity. Qed.

Lemma initialize_hidbias_run self (w : World) :
  0 <= nhid self ->
  _initialize_hidbias self w =
    (Ok (set_hidbias (Some (TShared (length (values w)))) self),
     allocate (Vector (replicate (Z.to_nat (nhid self)) 0%Q)) w).
Proof.
  intros Hn. unfold _initialize_hidbias.
  rewrite (bind_step _ _ _ _ _ (numpy_zeros_run _ _ Hn)). reflexivity.
Qed.

Lemma initialize_visbias_run self nvis (w : World) :
  0 <= nvis ->
  _initialize_visbias self nvis w =
    (Ok (set_visbias (Some (TShared (length (values w)))) self),
     allocate (Vector (replicate (Z.to_nat nvis) 0%Q)) w).
Proof.
  intros Hn. unfold _initialize_visbias.
  rewrite (bind_step _ _ _ _ _ (numpy_zeros_run _ _ Hn)). reflexivity.
Qed.

Lemma initialize_weights_run self nvis rng' irange' (w : World) g :
  generators w !! or_else rng' (rng self) = Some g ->
  0 <= nvis -> 0 <= nhid self ->
  _initialize_weights self nvis rng' irange' w =
    (Ok (set_weights (Some (TShared (length (values w)))) self),
     allocate
       (Matrix (Z.to_nat nvis) (Z.to_nat (nhid self))
          (map (map (centred (irange self)))
             (rand_rows (Z.to_nat nvis) (Z.to_nat (nhid self)) g).1))
       (put_generator (or_else rng' (rng self))
          (rand_rows (Z.to_nat nvis) (Z.to_nat (nhid self)) g).2 w)).
Proof.
  intros Hg Hn Hm. unfold _initialize_weights.
  rewrite (bind_step _ _ _ _ _ (rng_rand_run _ _ _ _ _ Hg Hn Hm)).
  reflexivity.
Qed.

(** A construction succeeds as soon as its arguments are admissible:
    sizes in range, a generator that exists, activations that resolve,
    and a visible size when the weights are tied. *)
Lemma init_total self nvis nhid' enc dec tied sol sp st stp ir rng'
    (w : World) r w0 g0 enc' dec' :
  as_generator rng' w = (Ok r, w0) -> generators w0 !! r = Some g0 ->
  0 <= nvis -> 0 < nhid' -> (tied = true -> 0 < nvis) ->
  (forall w1, _resolve_callable enc "act_enc" w1 = (Ok enc', w1)) ->
  (forall w1, _resolve_callable dec "act_dec" w1 = (Ok dec', w1)) ->
  exists a w',
    __init__ self nvis nhid' enc dec tied sol sp st stp ir rng' w = (Ok a, w').
Proof.
  intros Hgen Hg Hnvis Hnhid Htied Henc Hdec. unfold __init__.
  rewrite (bind_step _ _ _ _ _ (assert_run _ _ _ (proj2 (Z.leb_le _ _) Hnvis))).
  rewrite (bind_step _ _ _ _ _ (assert_run _ _ _ (proj2 (Z.ltb_lt _ _) Hnhid))).
  rewrite (bind_step _ _ _ _ _ Hgen).
  erewrite bind_step by (apply initialize_hidbias_run; simpl; lia).
  destruct (Z.ltb_spec 0 nvis) as [Hpos|Hzero].
  - erewrite bind_step; cycle 1.
    { erewrite bind_step by (apply initialize_visbias_run; exact Hnvis).
      apply initialize_weights_run with (g := g0);
        [exact Hg | exact Hnvis | simpl; lia]. }
    erewrite bind_step; cycle 1.
    { apply rng_randint_run. simpl. apply list_lookup_insert_eq.
      eapply lookup_lt_Some; eassumption. }
    destruct tied.
    + erewrite bind_step by reflexivity.
      rewrite (bind_step _ _ _ _ _ (Henc _)).
      rewrite (bind_step _ _ _ _ _ (Hdec _)).
      eexists _, _. reflexivity.
    + erewrite bind_step; cycle 1.
      { apply initialize_w_prime_run;
          [simpl; apply list_lookup_insert_eq; rewrite length_insert;
           eapply lookup_lt_Some; eassumption
          | exact Hnvis | simpl; lia]. }
      rewrite (bind_step _ _ _ _ _ (Henc _)).
      rewrite (bind_step _ _ _ _ _ (Hdec _)).
      eexists _, _. reflexivity.
  - destruct tied; [specialize (Htied eq_refl); lia|].
    erewrite bind_step by reflexivity.
    erewrite bind_step; cycle 1.
    { apply rng_randint_run. simpl. exact Hg. }
    erewrite bind_step; cycle 1.
    { apply initialize_w_prime_run;
        [simpl; apply list_lookup_insert_eq; eapply lookup_lt_Some; eassumption
        | exact Hnvis | simpl; lia]. }
    rewrite (bind_step _ _ _ _ _ (Henc _)).
    rewrite (bind_step _ _ _ _ _ (Hdec _)).
    eexists _, _. reflexivity.
Qed.

End InitRuns.

(** ** Arrays: the transpose *)

Lemma transpose_rows_wf r c (rows : list (list Q)) :
  length rows = r ->
  rows_wf c r (map (fun j => column j rows) (seq 0 c)).
Proof.
  intros Hr. split.
  - rewrite length_map, length_seq. reflexivity.
  - apply List.Forall_forall. intros col Hin.
    apply in_map_iff in Hin as (j & <- & _).
    unfold column. rewrite length_map. exact Hr.
Qed.

Lemma transpose_entry r c (rows : list (list Q)) i j :
  rows_wf r c rows -> (i < r)%nat -> (j < c)%nat ->
  entry (Matrix c r (map (fun j => column j rows) (seq 0 c))) j i
  = entry (Matrix r c rows) i j.
Proof.
  intros [Hr Hc] Hi Hj. unfold entry.
  change (map (fun j0 => column j0 rows) (seq 0 c))
    with ((fun j0 => column j0 rows) <$> seq 0 c).
  rewrite list_lookup_fmap, lookup_seq_lt by exact Hj. simpl.
  destruct (lookup_lt_is_Some_2 rows i) as [row Hrow]; [lia|].
  rewrite Hrow. simpl.
  unfold column. change (map ?f rows) with (f <$> rows).
  rewrite list_lookup_fmap, Hrow. simpl.
  assert (length row = c) as Hlen
    by (eapply (Forall_lookup_1 _ _ _ _ Hc); exact Hrow).
  destruct (lookup_lt_is_Some_2 row j) as [x Hx]; [lia|].
  rewrite Hx. f_equal. apply nth_lookup_Some. exact Hx.
Qed.

(** ** C1: tied weights *)

(** C1.  An [Autoencoder] built with [tied_weights=True] and [nvis > 0]
    has for [w_prime] the graph [weights.T]: in every state of the store
    (so after any update of the encoder weights) its value is the
    transpose of the value of [weights], entry [(j, i)] of the one being
    entry [(i, j)] of the other; the construction allocates the two
    biases and the weights and nothing else, and [w_prime] is not in
    [_params]. *)
Theorem C1_tied_w_prime_is_transpose `{NumpyRandom} `{TheanoNames}
    self nvis nhid' enc dec sol sp st stp ir rng' (w : World) a w' :
  0 < nvis ->
  __init__ self nvis nhid' enc dec true sol sp st stp ir rng' w = (Ok a, w') ->
  exists W,
    weights a = Some W /\ w_prime a = Some (TTranspose W) /\
    _params a = [visbias a; hidbias a; weights a] /\
    ~ In (w_prime a) (_params a) /\
    length (values w') = (length (values w) + 3)%nat /\
    forall (store : list ndarray) (feed : gmap nat ndarray),
      value_in_store store feed (w_prime a)
      = value_in_store store feed (weights a) ≫= nd_transpose /\
      forall r c rows,
        value_in_store store feed (weights a) = Some (Matrix r c rows) ->
        rows_wf r c rows ->
        exists rows',
          value_in_store store feed (w_prime a) = Some (Matrix c r rows') /\
          rows_wf c r rows' /\
          forall i j, (i < r)%nat -> (j < c)%nat ->
            entry (Matrix c r rows') j i = entry (Matrix r c rows) i j.
Proof.
  intros Hpos Hinit.
  apply init_inv in Hinit as (r0 & w0 & g0 & _ & O).
  pose proof (init_tied O) as Htied. pose proof (init_hidbias O) as Hhb.
  pose proof (init_visbias O) as Hvb. pose proof (init_weights O) as HW.
  pose proof (init_w_prime O) as Hwp. pose proof (init_params O) as Hpar.
  pose proof (init_store O) as Hvals. clear O.
  apply Z.ltb_lt in Hpos. rewrite Hpos in Hvb, HW, Hvals.
  exists (TShared (S (S (length (values w))))).
  rewrite HW in Hwp. simpl in Hwp.
  unfold build_params in Hpar. rewrite Htied in Hpar. simpl in Hpar.
  repeat split.
  - exact HW.
  - exact Hwp.
  - exact Hpar.
  - rewrite Hpar, Hwp, Hvb, Hhb, HW. simpl.
    intros [E|[E|[E|[]]]]; discriminate E.
  - rewrite Hvals, !length_app. simpl. lia.
  - rewrite Hwp, HW. reflexivity.
  - intros r c rows Hval Hwf. rewrite Hwp. rewrite HW in Hval.
    simpl in Hval |- *. rewrite Hval. simpl.
    eexists. split; [reflexivity|]. split.
    + exact (transpose_rows_wf r c rows (proj1 Hwf)).
    + intros i j Hi Hj. exact (transpose_entry r c rows i j Hwf Hi Hj).
Qed.

Lemma C1_witness :
  0 < 2 /\
  exists a w',
    __init__ (new_instance Plain) 2 3 (ActName "sigmoid") ActNone
      true None 0%Q 0%Q 0%Q (1 # 1000)%Q (Seed 9001) empty_world = (Ok a, w') /\
    exists W,
      weights a = Some W /\ w_prime a = Some (TTranspose W) /\
      _params a = [visbias a; hidbias a; weights a] /\
      ~ In (w_prime a) (_params a) /\
      length (values w') = 3%nat /\
      forall (store : list ndarray) (feed : gmap nat ndarray),
        value_in_store store feed (w_prime a)
        = value_in_store store feed (weights a) ≫= nd_transpose /\
        forall r c rows,
          value_in_store store feed (weights a) = Some (Matrix r c rows) ->
          rows_wf r c rows ->
          exists rows',
            value_in_store store feed (w_prime a) = Some (Matrix c r rows') /\
            rows_wf c r rows' /\
            forall i j, (i < r)%nat -> (j < c)%nat ->
              entry (Matrix c r rows') j i = entry (Matrix r c rows) i j.
Proof.
  split; [reflexivity|].
  destruct (__init__ (new_instance Plain) 2 3 (ActName "sigmoid") ActNone
          true None 0%Q 0%Q 0%Q (1 # 1000)%Q (Seed 9001) empty_world)
    as [[a|e] w'] eqn:E; [|vm_compute in E; discriminate E].
  exists a, w'. split; [reflexivity|].
  exact (C1_tied_w_prime_is_transpose (H := lcg) (H0 := registry)
           _ _ _ _ _ _ _ _ _ _ _ _ _ _ (eq_refl : 0 < 2) E).
Defined.

(** ** The initial values of the parameters *)

Lemma lookup_past {A} (l l' : list A) k :
  (l ++ l') !! (k + length l)%nat = l' !! k.
Proof.
  rewrite lookup_app_r by lia. f_equal. lia.
Qed.

Ltac past k :=
  match goal with
  | |- context [(?l ++ ?l') !! ?i] =>
      change i with (k + length l)%nat; rewrite (lookup_past l l' k)
  end; try reflexivity.

Section InitialValues.
Context {NR : NumpyRandom} {TN : TheanoNames}.

(** The arrays that the parameters of a new model hold. *)
Lemma init_values self nvis nhid' enc dec tied sol sp st stp ir rng'
    (w : World) a w' :
  __init__ self nvis nhid' enc dec tied sol sp st stp ir rng' w = (Ok a, w') ->
  exists r w0 g0,
    as_generator rng' w = (Ok r, w0) /\ generators w0 !! r = Some g0 /\
    value_in w' (hidbias a)
      = Some (Vector (replicate (Z.to_nat nhid') 0%Q)) /\
    value_in w' (visbias a)
      = (if 0 <? nvis then Some (Vector (replicate (Z.to_nat nvis) 0%Q))
         else None) /\
    value_in w' (weights a)
      = (if 0 <? nvis then Some (drawn_weights nvis nhid' ir g0) else None) /\
    value_in w' (w_prime a)
      = (if tied then nd_transpose (drawn_weights nvis nhid' ir g0)
         else Some (drawn_w_prime nvis nhid' ir g0)).
Proof.
  intros Hinit.
  apply init_inv in Hinit as (r & w0 & g0 & Hgen & O).
  pose proof (init_tied_nvis O) as Htied. pose proof (init_hidbias O) as Hhb.
  pose proof (init_visbias O) as Hvb. pose proof (init_weights O) as HW.
  pose proof (init_w_prime O) as Hwp. pose proof (init_store O) as Hvals.
  exists r, w0, g0. split; [exact Hgen|]. split; [exact (init_generator O)|].
  clear O.
  unfold value_in, value_in_store.
  rewrite Hwp, Hhb, Hvb, HW, Hvals. clear Hhb Hvb HW Hwp Hvals.
  destruct (0 <? nvis) eqn:Hpos; simpl.
  - repeat split.
    + past 0%nat.
    + past 1%nat.
    + past 2%nat.
    + destruct tied; simpl.
      * past 2%nat.
      * past 3%nat.
  - repeat split.
    + past 0%nat.
    + destruct tied; simpl.
      * specialize (Htied eq_refl). apply Z.ltb_lt in Htied. congruence.
      * past 1%nat.
Qed.

End InitialValues.

(** ** C2: the range of the initial weights *)

Lemma centred_range (ir u : Q) :
  (0 < ir)%Q -> (0 <= u)%Q -> (u < 1)%Q ->
  ((1 # 2) - ir < centred ir u)%Q /\ (centred ir u <= 1 # 2)%Q.
Proof.
  intros Hir H0 H1. unfold centred.
  assert (u * ir < 1 * ir)%Q by (apply Qmult_lt_compat_r; assumption).
  assert (0 <= u * ir)%Q by (apply Qmult_le_0_compat; lra).
  split; lra.
Qed.

Lemma centred_rows_range (ir : Q) (us : list (list Q)) :
  (0 < ir)%Q ->
  Forall (Forall (fun u => 0 <= u /\ u < 1)%Q) us ->
  Forall (Forall (fun x => (1 # 2) - ir < x /\ x <= 1 # 2)%Q)
         (map (map (centred ir)) us).
Proof.
  intros Hir Hus. apply List.Forall_map.
  eapply List.Forall_impl; [|exact Hus].
  intros row Hrow. apply List.Forall_map.
  eapply List.Forall_impl; [|exact Hrow].
  intros u [H0 H1]. apply centred_range; assumption.
Qed.

(** When [irange <= 1/3] the whole range [(1/2 - irange, 1/2]] lies above
    [irange / 2]. *)
Lemma off_centre (ir : Q) (rows : list (list Q)) :
  (ir <= 1 # 3)%Q ->
  Forall (Forall (fun x => (1 # 2) - ir < x /\ x <= 1 # 2)%Q) rows ->
  Forall (Forall (fun x => ir / 2 < x)%Q) rows.
Proof.
  intros Hir Hrows.
  eapply List.Forall_impl; [|exact Hrows].
  intros row Hrow. eapply List.Forall_impl; [|exact Hrow].
  intros x [Hlo _].
  assert (ir / 2 == ir * (1 # 2))%Q as -> by (unfold Qdiv; reflexivity).
  lra.
Qed.

(** C2 (what the code does).  The weights are drawn as
    [.5 - rand * irange]: with [irange > 0] every initial entry of the
    encoder weights, and of the decoder weights of an untied model, lies
    in [(1/2 - irange, 1/2]], an interval around [1/2] and not around
    zero; for [irange <= 1/3] (the default is [1e-3]) every entry is
    above [irange / 2].  Both biases are zero. *)
Theorem C2_initial_weights_around_one_half `{NumpyRandom} `{TheanoNames}
    self nvis nhid' enc dec tied sol sp st stp ir rng' (w : World) a w' :
  0 < nvis -> (0 < ir)%Q ->
  __init__ self nvis nhid' enc dec tied sol sp st stp ir rng' w = (Ok a, w') ->
  value_in w' (hidbias a) = Some (Vector (replicate (Z.to_nat nhid') 0%Q)) /\
  value_in w' (visbias a) = Some (Vector (replicate (Z.to_nat nvis) 0%Q)) /\
  (exists rows,
     value_in w' (weights a)
       = Some (Matrix (Z.to_nat nvis) (Z.to_nat nhid') rows) /\
     rows_wf (Z.to_nat nvis) (Z.to_nat nhid') rows /\
     Forall (Forall (fun x => (1 # 2) - ir < x /\ x <= 1 # 2)%Q) rows /\
     ((ir <= 1 # 3)%Q -> Forall (Forall (fun x => ir / 2 < x)%Q) rows)) /\
  (tied = false ->
   exists rows,
     value_in w' (w_prime a)
       = Some (Matrix (Z.to_nat nhid') (Z.to_nat nvis) rows) /\
     rows_wf (Z.to_nat nhid') (Z.to_nat nvis) rows /\
     Forall (Forall (fun x => (1 # 2) - ir < x /\ x <= 1 # 2)%Q) rows /\
     ((ir <= 1 # 3)%Q -> Forall (Forall (fun x => ir / 2 < x)%Q) rows)).
Proof.
  intros Hpos Hir Hinit.
  apply init_values in Hinit
    as (r & w0 & g0 & _ & _ & Hhb & Hvb & HW & Hwp).
  apply Z.ltb_lt in Hpos. rewrite Hpos in Hvb, HW.
  split; [exact Hhb|]. split; [exact Hvb|]. split.
  - eexists. split; [exact HW|].
    assert (Forall (Forall (fun x => (1 # 2) - ir < x /\ x <= 1 # 2)%Q)
              (map (map (centred ir))
                 (rand_rows (Z.to_nat nvis) (Z.to_nat nhid') g0).1)) as Hr
      by (apply centred_rows_range; [exact Hir | apply rand_rows_range]).
    split; [|split; [exact Hr | intros Hle; exact (off_centre _ _ Hle Hr)]].
    destruct (rand_rows_wf (Z.to_nat nvis) (Z.to_nat nhid') g0) as [Hl Hf].
    split; [rewrite length_map; exact Hl|].
    apply List.Forall_map. eapply List.Forall_impl; [|exact Hf].
    intros row Hrow. rewrite length_map. exact Hrow.
  - intros ->. eexists. split; [exact Hwp|].
    set (g1 := after_weights nvis nhid' g0).
    assert (Forall (Forall (fun x => (1 # 2) - ir < x /\ x <= 1 # 2)%Q)
              (map (map (centred ir))
                 (rand_rows (Z.to_nat nhid') (Z.to_nat nvis) g1).1)) as Hr
      by (apply centred_rows_range; [exact Hir | apply rand_rows_range]).
    split; [|split; [exact Hr | intros Hle; exact (off_centre _ _ Hle Hr)]].
    destruct (rand_rows_wf (Z.to_nat nhid') (Z.to_nat nvis) g1) as [Hl Hf].
    split; [rewrite length_map; exact Hl|].
    apply List.Forall_map. eapply List.Forall_impl; [|exact Hf].
    intros row Hrow. rewrite length_map. exact Hrow.
Qed.

Lemma C2_witness :
  0 < 2 /\ (0 < 1 # 1000)%Q /\
  exists a w',
    __init__ (new_instance Plain) 2 3 ActNone ActNone false None
      0%Q 0%Q 0%Q (1 # 1000)%Q (Seed 9001) empty_world = (Ok a, w') /\
    value_in w' (hidbias a) = Some (Vector [0; 0; 0]%Q) /\
    value_in w' (visbias a) = Some (Vector [0; 0]%Q) /\
    (exists rows,
       value_in w' (weights a) = Some (Matrix 2 3 rows) /\
       rows_wf 2 3 rows /\
       Forall (Forall (fun x => (1 # 2) - (1 # 1000) < x /\ x <= 1 # 2)%Q) rows /\
       ((1 # 1000 <= 1 # 3)%Q ->
        Forall (Forall (fun x => (1 # 1000) / 2 < x)%Q) rows)) /\
    (false = false ->
     exists rows,
       value_in w' (w_prime a) = Some (Matrix 3 2 rows) /\
       rows_wf 3 2 rows /\
       Forall (Forall (fun x => (1 # 2) - (1 # 1000) < x /\ x <= 1 # 2)%Q) rows /\
       ((1 # 1000 <= 1 # 3)%Q ->
        Forall (Forall (fun x => (1 # 1000) / 2 < x)%Q) rows)).
Proof.
  split; [reflexivity|]. split; [reflexivity|].
  destruct (__init__ (new_instance Plain) 2 3 ActNone ActNone false None
      0%Q 0%Q 0%Q (1 # 1000)%Q (Seed 9001) empty_world)
    as [[a|e] w'] eqn:E; [|vm_compute in E; discriminate E].
  exists a, w'. split; [reflexivity|].
  exact (C2_initial_weights_around_one_half (H := lcg) (H0 := registry)
           _ _ _ _ _ _ _ _ _ _ _ _ _ _ _
           (eq_refl : 0 < 2) (eq_refl : (0 < 1 # 1000)%Q) E).
Defined.

(** ** C3: deferred initialisation *)

Lemma as_generator_run `{NumpyRandom} `{TheanoNames} rng' (w : World) :
  generator_exists rng' w ->
  exists r w0 g0,
    as_generator rng' w = (Ok r, w0) /\ generators w0 !! r = Some g0.
Proof.
  destruct rng' as [z|r]; simpl.
  - intros Hseed. exists (length (generators w)). eexists _, (seed_state z).
    unfold new_RandomState. rewrite Hseed.
    split; [reflexivity|]. simpl.
    rewrite (lookup_past (generators w) _ 0). reflexivity.
  - intros [g0 Hg]. exists r, w, g0. split; [reflexivity | exact Hg].
Qed.

(** C3 (what the code does).  With [tied_weights=True] a construction
    with [nvis == 0] does not succeed: [self.weights] is [None] when
    [self.weights.T] is taken, and [__init__] raises [AttributeError]. *)
Theorem C3_deferred_tied_construction_raises `{NumpyRandom} `{TheanoNames}
    self nhid' enc dec sol sp st stp ir rng' (w : World) :
  0 < nhid' -> generator_exists rng' w ->
  fst (__init__ self 0 nhid' enc dec true sol sp st stp ir rng' w)
  = Raise (AttributeError "'NoneType' object has no attribute 'T'").
Proof.
  intros Hnhid Hgen.
  destruct (as_generator_run _ _ Hgen) as (r & w0 & g0 & Has & Hg).
  unfold __init__.
  rewrite (bind_step _ _ _ _ _ (assert_run _ _ _ eq_refl)).
  rewrite (bind_step _ _ _ _ _ (assert_run _ _ _ (proj2 (Z.ltb_lt _ _) Hnhid))).
  rewrite (bind_step _ _ _ _ _ Has).
  erewrite bind_step by (apply initialize_hidbias_run; simpl; lia).
  erewrite bind_step by reflexivity.
  erewrite bind_step by (apply rng_randint_run; simpl; exact Hg).
  erewrite bind_raise by reflexivity.
  reflexivity.
Qed.

Lemma C3_witness :
  0 < 3 /\ generator_exists (H := lcg) (Seed 9001) empty_world /\
  fst (__init__ (new_instance Plain) 0 3 ActNone ActNone true None
         0%Q 0%Q 0%Q (1 # 1000)%Q (Seed 9001) empty_world)
  = Raise (AttributeError "'NoneType' object has no attribute 'T'").
Proof.
  split; [reflexivity|]. split; [reflexivity|].
  exact (C3_deferred_tied_construction_raises (H := lcg) (H0 := registry)
           _ _ _ _ _ _ _ _ _ (Seed 9001) empty_world (eq_refl : 0 < 3) eq_refl).
Defined.

(** ** C4: the regularisation term *)

Lemma nd_map_map (f g : Q -> Q) (x : ndarray) :
  nd_map g (nd_map f x) = nd_map (fun v => g (f v)) x.
Proof.
  destruct x; simpl; f_equal; rewrite ?map_map; try reflexivity.
  - apply map_ext. intros row. apply map_map.
  - apply map_ext. intros m. rewrite map_map. apply map_ext.
    intros row. apply map_map.
Qed.

Lemma nd_zip_scalar_r (f : Q -> Q -> Q) (x : ndarray) (b : Q) :
  nd_zip f x (Scalar b) = Some (nd_map (fun a => f a b) x).
Proof. destruct x; reflexivity. Qed.

(** C4 (what the code does).  [compute_regularization(h)], for hidden
    activations [h] whose value is the array [x], returns a graph whose
    value is [sparse_penalty * sum(x)] when [solution] is
    ['l1_penalty'], and the constant [0] for every [solution] other
    than the two penalties (which is never rejected), whether [h] is a
    variable or the list of variables that [encode] returns for a list
    of minibatches.  With ['sqr_penalty'] it returns a graph whose value
    is [sparsity_target_penalty * sum((x - sparsity_target)^2)] when [h]
    is a variable, and raises [TypeError] when [h] is a list: a Python
    list has no subtraction.  The result depends on [h] and on the
    penalty settings only. *)
Theorem C4_compute_regularization `{TheanoNames}
    (self : Autoencoder) (h : tensor)
    (store : list ndarray) (feed : gmap nat ndarray) (x : ndarray) :
  eval scalar_impl store feed h = Some x ->
  (is_Variable h = true \/ solution self <> Some "sqr_penalty"%string ->
   exists reg q,
     compute_regularization self h = Ok reg /\
     eval scalar_impl store feed reg = Some (Scalar q) /\
     (solution self = Some "l1_penalty"%string ->
      q = (sparse_penalty self * nd_sum x)%Q) /\
     (solution self = Some "sqr_penalty"%string ->
      q = (sparsity_target_penalty self
           * squared_deviations (sparsity_target self) x)%Q) /\
     (solution self <> Some "l1_penalty"%string ->
      solution self <> Some "sqr_penalty"%string ->
      reg = TConst 0%Q /\ q = 0%Q)) /\
  (is_Variable h = false -> solution self = Some "sqr_penalty"%string ->
   compute_regularization self h
   = Raise (TypeError "unsupported operand type(s) for -: 'list' and 'float'")) /\
  (forall other, same_penalties self other ->
     compute_regularization other h = compute_regularization self h).
Proof.
  intros Hx. split; [|split].
  - intros Hcase. unfold compute_regularization.
    destruct (bool_decide (solution self = Some "l1_penalty"%string)) eqn:E1.
    + apply bool_decide_eq_true in E1.
      eexists _, _. split; [reflexivity|]. split.
      * simpl. rewrite Hx. simpl. reflexivity.
      * split; [reflexivity|]. split.
        -- intros E2. rewrite E1 in E2. discriminate E2.
        -- intros E2. contradiction.
    + apply bool_decide_eq_false in E1.
      destruct (bool_decide (solution self = Some "sqr_penalty"%string)) eqn:E2.
      * apply bool_decide_eq_true in E2.
        destruct Hcase as [Hvar | Hsol]; [|contradiction].
        unfold py_sub. rewrite Hvar.
        eexists _, _. split; [reflexivity|]. split.
        -- simpl. rewrite Hx. simpl. rewrite nd_zip_scalar_r. simpl.
           rewrite nd_map_map. reflexivity.
        -- split; [intros E; contradiction|].
           split; [reflexivity | intros _ E; contradiction].
      * apply bool_decide_eq_false in E2.
        exists (TConst 0%Q), 0%Q. split; [reflexivity|]. split; [reflexivity|].
        split; [intros E; contradiction|].
        split; [intros E; contradiction | auto].
  - intros Hlist Hsol. unfold compute_regularization, py_sub.
    rewrite Hsol, Hlist. reflexivity.
  - intros other (Hs & Hp & Ht & Htp). unfold compute_regularization.
    rewrite Hs, Hp, Ht, Htp. reflexivity.
Qed.

Lemma C4_witness :
  let feed : gmap nat ndarray := {[ 0%nat := Matrix 2 2 [[1; 2]; [3; 4]]%Q ]} in
  eval (scalar_impl (TheanoNames := registry)) [] feed (TList [TVar 0])
    = Some (Stack 1 2 2 [[[1; 2]; [3; 4]]]%Q) /\
  is_Variable (TList [TVar 0]) = false /\
  solution sqr_instance = Some "sqr_penalty"%string /\
  compute_regularization sqr_instance (TList [TVar 0])
  = Raise (TypeError "unsupported operand type(s) for -: 'list' and 'float'") /\
  exists reg q,
    compute_regularization l1_instance (TList [TVar 0]) = Ok reg /\
    eval (scalar_impl (TheanoNames := registry)) [] feed reg = Some (Scalar q) /\
    q = ((1 # 10) * nd_sum (Stack 1 2 2 [[[1; 2]; [3; 4]]]%Q))%Q.
Proof.
  intros feed.
  assert (eval (scalar_impl (TheanoNames := registry)) [] feed (TList [TVar 0])
          = Some (Stack 1 2 2 [[[1; 2]; [3; 4]]]%Q)) as Hx
    by (vm_compute; reflexivity).
  assert (solution l1_instance <> Some "sqr_penalty"%string) as Hl1
    by discriminate.
  split; [exact Hx|]. split; [reflexivity|]. split; [reflexivity|]. split.
  - exact (proj1 (proj2 (C4_compute_regularization (H := registry)
                           sqr_instance (TList [TVar 0]) [] feed _ Hx))
             eq_refl eq_refl).
  - destruct (proj1 (C4_compute_regularization (H := registry)
                       l1_instance (TList [TVar 0]) [] feed _ Hx)
                (or_intror Hl1))
      as (reg & q & Hreg & Hq & Hsum & _).
    exists reg, q. split; [exact Hreg|]. split; [exact Hq|].
    exact (Hsum eq_refl).
Defined.

(** ** C10: the assertion of [_initialize_w_prime] *)

(** C10.  The argument of the [assert] in [_initialize_w_prime] is a
    pair, which is true whatever [tied_weights] is: the method never
    raises [AssertionError], and on a model with tied weights it
    allocates a new shared variable for [w_prime], which is no longer the
    transpose of [weights]. *)
Theorem C10_w_prime_assertion_is_vacuous `{NumpyRandom} `{TheanoNames}
    (self : Autoencoder) (nvis : Z) (rng' : option nat) (irange' : option Q)
    (w : World) (g : RandomState) :
  tied_weights self = true ->
  generators w !! or_else rng' (rng self) = Some g ->
  0 <= nvis -> 0 <= nhid self ->
  (forall (b : bool) msg, truthy (PyTuple [PyBool b; PyStr msg]) = true) /\
  (forall any nvis' r' i' (w1 : World) msg,
     fst (_initialize_w_prime any nvis' r' i' w1) <> Raise (AssertionError msg)) /\
  exists self' w',
    _initialize_w_prime self nvis rng' irange' w = (Ok self', w') /\
    w_prime self' = Some (TShared (length (values w))) /\
    weights self' = weights self /\
    w_prime self' <> (TTranspose <$> weights self') /\
    length (values w') = S (length (values w)) /\
    exists rows,
      value_in w' (w_prime self')
      = Some (Matrix (Z.to_nat (nhid self)) (Z.to_nat nvis) rows).
Proof.
  intros Htied Hg Hnvis Hnhid. split; [reflexivity|]. split.
  - intros any nvis' r' i' w1 msg. unfold _initialize_w_prime.
    rewrite (bind_step _ _ _ _ _ (w_prime_assertion _ _ _)).
    unfold bind, rng_rand, with_generator.
    destruct (generators w1 !! or_else r' (rng any)) as [g1|];
      [|simpl; discriminate].
    destruct ((nhid any <? 0) || (nvis' <? 0)); [simpl; discriminate|].
    destruct (rand_rows _ _ g1) as [rows g2]. simpl. discriminate.
  - eexists _, _. split.
    + apply initialize_w_prime_run; eassumption.
    + simpl. split; [reflexivity|]. split; [reflexivity|].
      split; [destruct (weights self); discriminate|].
      split; [rewrite length_app; simpl; lia|].
      eexists. unfold value_in, value_in_store. simpl.
      rewrite (lookup_past (values w) _ 0). reflexivity.
Qed.

Lemma C10_witness :
  tied_weights tied_instance = true /\
  generators one_generator !! or_else None (rng tied_instance) = Some 9001 /\
  0 <= 2 /\ 0 <= nhid tied_instance /\
  exists self' w',
    _initialize_w_prime (NR := lcg) tied_instance 2 None None one_generator
      = (Ok self', w') /\
    w_prime self' = Some (TShared 1) /\
    weights self' = Some (TShared 0).
Proof.
  split; [reflexivity|]. split; [reflexivity|].
  split; [discriminate|]. split; [discriminate|].
  destruct (C10_w_prime_assertion_is_vacuous (H := lcg) (H0 := registry)
              tied_instance 2 None None one_generator 9001
              eq_refl eq_refl
              (fun E : (0 ?= 2) = Gt => ltac:(discriminate E))
              (fun E : (0 ?= 3) = Gt => ltac:(discriminate E)))
    as (_ & _ & self' & w' & Hrun & Hwp & HW & _).
  exists self', w'. split; [exact Hrun|]. split; [exact Hwp | exact HW].
Defined.

(** ** C5: the check of [ContractingAutoencoder] *)

(** C5 (what the code does).  [ContractingAutoencoder.__init__] runs the
    constructor of [Autoencoder] and then calls [self.act_enc] on a
    placeholder.  When the encoder activation is linear ([None] or
    ["linear"]) [self.act_enc] is [None], and the call raises [TypeError]:
    the construction fails although the identity is elementwise.  With an
    elementwise op the construction succeeds, with [softmax] it raises
    the [ValueError] of the check. *)
Theorem C5_contracting_linear_encoder_raises `{NumpyRandom} `{TheanoNames}
    self nvis nhid' enc dec tied sol sp st stp ir rng' (w : World) a w1 :
  __init__ self nvis nhid' enc dec tied sol sp st stp ir rng' w = (Ok a, w1) ->
  let run := ContractingAutoencoder__init__ self nvis nhid' enc dec tied sol
               sp st stp ir rng' w in
  ((enc = ActNone \/ enc = ActName "linear") -> act_enc a = None) /\
  (act_enc a = None ->
   run = (Raise (TypeError "'NoneType' object is not callable"),
          one_more_placeholder w1)) /\
  (forall op, act_enc a = Some (Elemwise op) ->
   run = (Ok a, one_more_placeholder w1)) /\
  (act_enc a = Some Softmax ->
   run = (Raise (ValueError "Invalid encoder activation function: not an elementwise function of its input"),
          one_more_placeholder w1)).
Proof.
  intros Hinit run. subst run. unfold ContractingAutoencoder__init__.
  rewrite (bind_step _ _ _ _ _ Hinit).
  erewrite bind_step by reflexivity.
  apply init_inv in Hinit as (r & w0 & g0 & _ & O).
  pose proof (init_act_enc O) as Henc. clear O.
  repeat split.
  - intros [-> | ->]; cbv [_resolve_callable ret] in Henc; simpl in Henc;
      inversion Henc; reflexivity.
  - intros ->. reflexivity.
  - intros op ->. unfold call_attr. erewrite bind_step by reflexivity.
    simpl. rewrite Nat.eqb_refl. reflexivity.
  - intros ->. reflexivity.
Qed.

Lemma C5_witness :
  exists a w1,
    __init__ (new_instance Contracting) 2 3 ActNone ActNone false None
      0%Q 0%Q 0%Q (1 # 1000)%Q (Seed 9001) empty_world = (Ok a, w1) /\
    ContractingAutoencoder__init__ (new_instance Contracting) 2 3 ActNone
      ActNone false None 0%Q 0%Q 0%Q (1 # 1000)%Q (Seed 9001) empty_world
    = (Raise (TypeError "'NoneType' object is not callable"),
       one_more_placeholder w1).
Proof.
  destruct (__init__ (new_instance Contracting) 2 3 ActNone ActNone false None
      0%Q 0%Q 0%Q (1 # 1000)%Q (Seed 9001) empty_world)
    as [[a|e] w1] eqn:E; [|vm_compute in E; discriminate E].
  exists a, w1. split; [reflexivity|].
  destruct (C5_contracting_linear_encoder_raises (H := lcg) (H0 := registry)
              _ _ _ _ _ _ _ _ _ _ _ _ _ _ _ E) as (Hnone & Hraise & _).
  exact (Hraise (Hnone (or_introl eq_refl))).
Defined.

(** ** The layers of a stack *)

Section Layers.
Context {NR : NumpyRandom} {TN : TheanoNames}.

(** A layer that is built is an [Autoencoder] of the selected class,
    initialised by [Autoencoder.__init__] on the shared generator; the
    store is the one [__init__] leaves. *)
Lemma build_layer_ok rng' nhid' nvis enc dec corr cae tied ir sol sp st stp
    (w : World) a w' :
  build_layer rng'
    (nhid', (nvis, (enc, (dec, (corr, (cae, (tied, (ir,
      (sol, (sp, (st, stp))))))))))) w = (Ok a, w') ->
  (cae = true -> corr = None) /\
  exists a0 w0,
    __init__ (new_instance (selected_class cae corr)) nvis nhid' enc dec tied
      sol sp st stp ir (Generator rng') w = (Ok a0, w0) /\
    a = match corr with
        | Some c => set_corruptor (Some c) a0
        | None => a0
        end /\
    values w' = values w0 /\ generators w' = generators w0.
Proof.
  unfold build_layer. destruct cae; simpl.
  - destruct corr as [c|]; simpl; [discriminate|].
    intros Hrun. split; [reflexivity|].
    unfold ContractingAutoencoder__init__ in Hrun.
    step_in Hrun as a0 w0 Hinit. exists a0, w0. split; [exact Hinit|].
    step_in Hrun as x w1 Hx. cbv [tensor_matrix] in Hx. inversion Hx; subst.
    step_in Hrun as gr w2 Hgr.
    destruct (act_enc a0); cbv [call_attr ret raise] in Hgr;
      inversion Hgr; subst.
    destruct (negb _); cbv [ret raise] in Hrun; inversion Hrun; subst.
    repeat split.
  - intros Hrun. split; [discriminate|].
    destruct corr as [c|].
    + unfold DenoisingAutoencoder__init__ in Hrun.
      step_in Hrun as a0 w0 Hinit. exists a0, w0. split; [exact Hinit|].
      cbv [ret] in Hrun. inversion Hrun; subst. repeat split.
    + exists a, w'. repeat split. exact Hrun.
Qed.

(** A layer with both a corruptor and the contracting flag is refused
    before anything is allocated or drawn. *)
Lemma build_layer_conflict rng' nhid' nvis enc dec c tied ir sol sp st stp
    (w : World) :
  build_layer rng'
    (nhid', (nvis, (enc, (dec, (Some c, (true, (tied, (ir,
      (sol, (sp, (st, stp))))))))))) w
  = (Raise (ValueError "Can't specify denoising and contracting objectives simultaneously"), w).
Proof. reflexivity. Qed.

End Layers.

Section Stack.
Context {NR : NumpyRandom} {TN : TheanoNames}.

(** Building a layer only adds to the store. *)
Lemma build_layer_extends rng' item (w : World) a w' :
  build_layer rng' item w = (Ok a, w') -> values w `prefix_of` values w'.
Proof.
  destruct item
    as (nhid' & nvis & enc & dec & corr & cae & tied & ir & sol & sp & st & stp).
  intros Hrun. apply build_layer_ok in Hrun
    as (_ & a0 & w0 & Hinit & _ & Hv & _).
  apply init_inv in Hinit as (r & v0 & g0 & _ & O).
  rewrite Hv, (init_store O). eexists. reflexivity.
Qed.

(** The loop of [build_stacked_ae]: the layers are appended in order,
    one for each item, and each is built in some state of the heap whose
    store is part of the final one. *)
Lemma build_layers_inv rng' seq acc (w : World) ls w' :
  build_layers rng' seq acc w = (Ok ls, w') ->
  values w `prefix_of` values w' /\
  exists new, ls = acc ++ new /\
    Forall2 (fun item a =>
               exists wi wi', build_layer rng' item wi = (Ok a, wi') /\
                 values wi' `prefix_of` values w') seq new.
Proof.
  revert acc w. induction seq as [|item rest IH]; intros acc w; simpl.
  - cbv [ret]. intros E; inversion E; subst. split; [reflexivity|].
    exists []. rewrite app_nil_r. split; [reflexivity | constructor].
  - intros Hrun. step_in Hrun as a w1 Hlayer.
    apply IH in Hrun as (Hpre & new & -> & Hall).
    pose proof (build_layer_extends _ _ _ _ _ Hlayer) as Hext.
    split; [etransitivity; eassumption|].
    exists (a :: new). rewrite <- app_assoc. split; [reflexivity|].
    constructor; [|exact Hall].
    exists w, w1. split; [exact Hlayer | exact Hpre].
Qed.

(** The loop stops at the first layer with both a corruptor and the
    contracting flag, in the heap the layers before it have left. *)
Lemma build_layers_conflict rng' pre post acc (w : World) ls w1
    nhid' nvis enc dec c tied ir sol sp st stp :
  build_layers rng' pre acc w = (Ok ls, w1) ->
  build_layers rng'
    (pre ++ (nhid', (nvis, (enc, (dec, (Some c, (true, (tied, (ir,
               (sol, (sp, (st, stp))))))))))) :: post) acc w
  = (Raise (ValueError "Can't specify denoising and contracting objectives simultaneously"), w1).
Proof.
  revert acc w. induction pre as [|item rest IH]; intros acc w; simpl.
  - cbv [ret]. intros E; inversion E; subst. reflexivity.
  - intros Hrun. step_in Hrun as a w2 Hlayer.
    rewrite (bind_step _ _ _ _ _ Hlayer). apply IH. exact Hrun.
Qed.

Lemma broadcast_inv {A} (x : per_layer A) n (w : World) l w' :
  broadcast x n w = (Ok l, w') ->
  w' = w /\ length l = n /\
  forall i, (i < n)%nat ->
    l !! i = match x with Single a => Some a | Sequence s => s !! i end.
Proof.
  destruct x as [a|s]; simpl.
  - cbv [ret]. intros E; inversion E; subst.
    split; [reflexivity|]. split; [apply length_replicate|].
    intros i Hi. apply lookup_replicate_2. exact Hi.
  - intros Hrun. step_in Hrun as u w1 Hassert.
    apply assert_ok in Hassert as [Hlen ->].
    cbv [ret] in Hrun. inversion Hrun; subst.
    apply Nat.eqb_eq in Hlen. split; [reflexivity|]. split; [lia|].
    intros i _. reflexivity.
Qed.

End Stack.

Section StackBuilder.
Context {NR : NumpyRandom} {TN : TheanoNames}.

Lemma broadcast_lookup {A} (x : per_layer A) n (w : World) l w' i :
  broadcast x n w = (Ok l, w') -> (i < n)%nat ->
  exists a, l !! i = Some a /\ at_layer x i = Some a.
Proof.
  intros Hrun Hi. apply broadcast_inv in Hrun as (_ & Hlen & Hl).
  destruct (lookup_lt_is_Some_2 l i) as [a Ha]; [lia|].
  exists a. split; [exact Ha|]. rewrite <- Ha, (Hl i Hi).
  destruct x; reflexivity.
Qed.

Lemma length_removelast {A} (l : list A) :
  length (removelast l) = pred (length l).
Proof.
  induction l as [|x [|y l] IH]; simpl in *; [reflexivity..|].
  rewrite IH. reflexivity.
Qed.

Lemma lookup_removelast {A} (l : list A) i :
  (S i < length l)%nat -> removelast l !! i = l !! i.
Proof.
  revert i. induction l as [|x [|y l] IH]; intros i Hi; simpl in *; [lia..|].
  destruct i as [|i]; [reflexivity|]. simpl. apply IH. lia.
Qed.

(** What [build_stacked_ae] runs: the generator is resolved, and the
    loop is run on one item for each hidden size; item [i] holds the
    hidden size [nhids[i]], the visible size [([nvis] + nhids[:-1])[i]]
    and the value of every other argument for layer [i]. *)
Lemma build_stacked_ae_inv nvis nhids enc dec tied ir rng' corr cae sol
    sp st stp (w : World) stack w' :
  build_stacked_ae nvis nhids enc dec tied ir rng' corr cae sol sp st stp w
  = (Ok stack, w') ->
  exists r w0 seq,
    as_generator rng' w = (Ok r, w0) /\
    build_layers r seq [] w0 = (Ok (layers stack), w') /\
    length seq = length nhids /\
    forall i, (i < length nhids)%nat ->
      exists nh nv e d co ca t rg so p1 p2 p3,
        seq !! i = Some (nh, (nv, (e, (d, (co, (ca, (t, (rg,
                           (so, (p1, (p2, p3))))))))))) /\
        nhids !! i = Some nh /\
        (nvis :: nhids) !! i = Some nv /\
        at_layer enc i = Some e /\ at_layer dec i = Some d /\
        at_layer corr i = Some co /\ at_layer cae i = Some ca /\
        at_layer tied i = Some t /\ at_layer ir i = Some rg /\
        at_layer sol i = Some so /\ at_layer sp i = Some p1 /\
        at_layer st i = Some p2 /\ at_layer stp i = Some p3.
Proof.
  unfold build_stacked_ae. intros Hrun.
  step_in Hrun as r w0 Hgen.
  step_in Hrun as l_corr w1 Hcorr.
  pose proof (proj1 (broadcast_inv _ _ _ _ _ Hcorr)); subst w1.
  step_in Hrun as l_cae w1 Hcae.
  pose proof (proj1 (broadcast_inv _ _ _ _ _ Hcae)); subst w1.
  step_in Hrun as l_enc w1 Henc.
  pose proof (proj1 (broadcast_inv _ _ _ _ _ Henc)); subst w1.
  step_in Hrun as l_dec w1 Hdec.
  pose proof (proj1 (broadcast_inv _ _ _ _ _ Hdec)); subst w1.
  step_in Hrun as l_tied w1 Htied.
  pose proof (proj1 (broadcast_inv _ _ _ _ _ Htied)); subst w1.
  step_in Hrun as l_ir w1 Hir.
  pose proof (proj1 (broadcast_inv _ _ _ _ _ Hir)); subst w1.
  step_in Hrun as l_sol w1 Hsol.
  pose proof (proj1 (broadcast_inv _ _ _ _ _ Hsol)); subst w1.
  step_in Hrun as l_sp w1 Hsp.
  pose proof (proj1 (broadcast_inv _ _ _ _ _ Hsp)); subst w1.
  step_in Hrun as l_st w1 Hst.
  pose proof (proj1 (broadcast_inv _ _ _ _ _ Hst)); subst w1.
  step_in Hrun as l_stp w1 Hstp.
  pose proof (proj1 (broadcast_inv _ _ _ _ _ Hstp)); subst w1.
  step_in Hrun as ls w1 Hloop.
  cbv [ret] in Hrun. inversion Hrun; subst stack w1. clear Hrun. simpl.
  exists r, w0. eexists. split; [exact Hgen|]. split; [exact Hloop|].
  assert (forall i, (i < length nhids)%nat ->
            (nvis :: removelast nhids) !! i = (nvis :: nhids) !! i) as Hnviss.
  { intros [|i] Hi; [reflexivity|]. simpl. apply lookup_removelast. lia. }
  split.
  - cbv [layer_args]. rewrite !length_zip_with.
    change (length (nvis :: removelast nhids))
      with (S (length (removelast nhids))).
    rewrite length_removelast.
    rewrite (proj1 (proj2 (broadcast_inv _ _ _ _ _ Hcorr))),
      (proj1 (proj2 (broadcast_inv _ _ _ _ _ Hcae))),
      (proj1 (proj2 (broadcast_inv _ _ _ _ _ Henc))),
      (proj1 (proj2 (broadcast_inv _ _ _ _ _ Hdec))),
      (proj1 (proj2 (broadcast_inv _ _ _ _ _ Htied))),
      (proj1 (proj2 (broadcast_inv _ _ _ _ _ Hir))),
      (proj1 (proj2 (broadcast_inv _ _ _ _ _ Hsol))),
      (proj1 (proj2 (broadcast_inv _ _ _ _ _ Hsp))),
      (proj1 (proj2 (broadcast_inv _ _ _ _ _ Hst))),
      (proj1 (proj2 (broadcast_inv _ _ _ _ _ Hstp))).
    lia.
  - intros i Hi.
    destruct (lookup_lt_is_Some_2 nhids i Hi) as [nh Hnh].
    destruct (lookup_lt_is_Some_2 (nvis :: nhids) i) as [nv Hnv];
      [simpl; lia|].
    destruct (broadcast_lookup _ _ _ _ _ i Henc Hi) as (e & He & He').
    destruct (broadcast_lookup _ _ _ _ _ i Hdec Hi) as (d & Hd & Hd').
    destruct (broadcast_lookup _ _ _ _ _ i Hcorr Hi) as (co & Hco & Hco').
    destruct (broadcast_lookup _ _ _ _ _ i Hcae Hi) as (ca & Hca & Hca').
    destruct (broadcast_lookup _ _ _ _ _ i Htied Hi) as (t & Ht & Ht').
    destruct (broadcast_lookup _ _ _ _ _ i Hir Hi) as (rg & Hrg & Hrg').
    destruct (broadcast_lookup _ _ _ _ _ i Hsol Hi) as (so & Hso & Hso').
    destruct (broadcast_lookup _ _ _ _ _ i Hsp Hi) as (p1 & Hp1 & Hp1').
    destruct (broadcast_lookup _ _ _ _ _ i Hst Hi) as (p2 & Hp2 & Hp2').
    destruct (broadcast_lookup _ _ _ _ _ i Hstp Hi) as (p3 & Hp3 & Hp3').
    exists nh, nv, e, d, co, ca, t, rg, so, p1, p2, p3.
    split; [|repeat split; assumption].
    cbv [layer_args]. rewrite !lookup_zip_with.
    rewrite Hnh, (Hnviss i Hi), Hnv, He, Hd, Hco, Hca, Ht, Hrg, Hso, Hp1,
      Hp2, Hp3.
    reflexivity.
Qed.

End StackBuilder.

(** ** C7: the class of each layer *)

Section LayerClass.
Context {NR : NumpyRandom} {TN : TheanoNames}.

Lemma build_layer_class rng' nhid' nvis enc dec corr cae tied ir sol sp st stp
    (w : World) a w' :
  build_layer rng'
    (nhid', (nvis, (enc, (dec, (corr, (cae, (tied, (ir,
      (sol, (sp, (st, stp))))))))))) w = (Ok a, w') ->
  ~ (cae = true /\ corr <> None) /\
  class_of a = selected_class cae corr /\
  (cae = false -> corr <> None -> corruptor a = corr).
Proof.
  intros Hrun. apply build_layer_ok in Hrun
    as (Hflags & a0 & w0 & Hinit & -> & _).
  apply init_inv in Hinit as (r & v0 & g0 & _ & O).
  pose proof (init_class O) as Hcls. clear O.
  split; [intros [Hc Hco]; exact (Hco (Hflags Hc))|].
  destruct corr as [c|]; simpl; (split; [exact Hcls|]);
    [reflexivity | intros _ Hne; contradiction].
Qed.

(** The layers of a stack that is built, one by one. *)
Lemma stack_layers nvis nhids enc dec tied ir rng' corr cae sol
    sp st stp (w : World) stack w' :
  build_stacked_ae nvis nhids enc dec tied ir rng' corr cae sol sp st stp w
  = (Ok stack, w') ->
  length (layers stack) = length nhids /\
  forall i a, layers stack !! i = Some a ->
    exists r nh nv e d co ca t rg so p1 p2 p3 wi wi',
      build_layer r (nh, (nv, (e, (d, (co, (ca, (t, (rg,
                           (so, (p1, (p2, p3))))))))))) wi = (Ok a, wi') /\
      values wi' `prefix_of` values w' /\
      nhids !! i = Some nh /\
      (nvis :: nhids) !! i = Some nv /\
      at_layer enc i = Some e /\ at_layer dec i = Some d /\
      at_layer corr i = Some co /\ at_layer cae i = Some ca /\
      at_layer tied i = Some t /\ at_layer ir i = Some rg /\
      at_layer sol i = Some so /\ at_layer sp i = Some p1 /\
      at_layer st i = Some p2 /\ at_layer stp i = Some p3.
Proof.
  intros Hrun. apply build_stacked_ae_inv in Hrun
    as (r & w0 & seq & _ & Hloop & Hlen & Hitems).
  apply build_layers_inv in Hloop as (_ & new & Hnew & Hall).
  simpl in Hnew. rewrite Hnew.
  pose proof (Forall2_length _ _ _ Hall) as Hlen'.
  split; [lia|].
  intros i a Ha.
  destruct (Forall2_lookup_r _ _ _ _ _ Hall Ha)
    as (item & Hitem & wi & wi' & Hlayer & Hpre).
  assert (i < length nhids)%nat as Hi
    by (apply lookup_lt_Some in Ha; lia).
  destruct (Hitems i Hi)
    as (nh & nv & e & d & co & ca & t & rg & so & p1 & p2 & p3 & Hseq & Hrest).
  pose proof (eq_trans (eq_sym Hitem) Hseq) as Heq.
  inversion Heq; subst item. clear Heq.
  exists r, nh, nv, e, d, co, ca, t, rg, so, p1, p2, p3, wi, wi'.
  split; [exact Hlayer|]. split; [exact Hpre | exact Hrest].
Qed.

End LayerClass.

(** C7.  In a stack that [build_stacked_ae] returns there is one layer
    for each hidden size, and layer [i] is of the class its flags select:
    [ContractingAutoencoder] when its contracting flag is set (its
    corruptor is then [None]), [DenoisingAutoencoder] with its corruptor
    when it has one, plain [Autoencoder] when it has neither; no layer
    has both.  In the loop, a layer with both raises [ValueError] in the
    heap the layers before it have left: nothing is allocated or drawn
    for it. *)
Theorem C7_layer_class_selection `{NumpyRandom} `{TheanoNames} :
  (forall nvis nhids enc dec tied ir rng' corr cae sol sp st stp
          (w : World) stack w',
     build_stacked_ae nvis nhids enc dec tied ir rng' corr cae sol sp st stp w
     = (Ok stack, w') ->
     length (layers stack) = length nhids /\
     forall i a, layers stack !! i = Some a ->
       exists ca co,
         at_layer cae i = Some ca /\ at_layer corr i = Some co /\
         ~ (ca = true /\ co <> None) /\
         class_of a = selected_class ca co /\
         (ca = true -> class_of a = Contracting) /\
         (ca = false -> co <> None ->
          class_of a = Denoising /\ corruptor a = co) /\
         (ca = false -> co = None -> class_of a = Plain)) /\
  (forall rng' pre post acc (w : World) ls w1
          nhid' nvis enc dec c tied ir sol sp st stp,
     build_layers rng' pre acc w = (Ok ls, w1) ->
     build_layers rng'
       (pre ++ (nhid', (nvis, (enc, (dec, (Some c, (true, (tied, (ir,
                  (sol, (sp, (st, stp))))))))))) :: post) acc w
     = (Raise (ValueError "Can't specify denoising and contracting objectives simultaneously"), w1)).
Proof.
  split.
  - intros nvis nhids enc dec tied ir rng' corr cae sol sp st stp w stack w'
      Hrun.
    apply stack_layers in Hrun as (Hlen & Hlayers).
    split; [exact Hlen|].
    intros i a Ha.
    destruct (Hlayers i a Ha)
      as (r & nh & nv & e & d & co & ca & t & rg & so & p1 & p2 & p3 & wi & wi'
          & Hlayer & _ & _ & _ & _ & _ & Hco & Hca & _).
    apply build_layer_class in Hlayer as (Hexcl & Hcls & Hcorr).
    exists ca, co. split; [exact Hca|]. split; [exact Hco|].
    split; [exact Hexcl|]. split; [exact Hcls|].
    rewrite Hcls. unfold selected_class. repeat split.
    + intros ->. reflexivity.
    + subst ca. destruct co; [reflexivity | contradiction].
    + subst ca. apply Hcorr; [reflexivity | assumption].
    + intros -> ->. reflexivity.
  - intros. apply build_layers_conflict with (ls := ls). assumption.
Qed.

Lemma C7_witness :
  exists stack w',
    build_stacked_ae (NR := lcg) (TN := registry) 10 [8; 4; 2]
      (Single (ActName "sigmoid")) (Single ActNone) (Single false)
      (Single (1 # 1000)%Q) (Seed 9001)
      (Sequence [None; Some (CorruptorObject 0); None])
      (Sequence [true; false; false])
      (Single None) (Single 0%Q) (Single 0%Q) (Single 0%Q) empty_world
    = (Ok stack, w') /\
    length (layers stack) = length [8; 4; 2] /\
    forall i a, layers stack !! i = Some a ->
      exists ca co,
        at_layer (Sequence [true; false; false]) i = Some ca /\
        at_layer (Sequence [None; Some (CorruptorObject 0); None]) i = Some co /\
        ~ (ca = true /\ co <> None) /\
        class_of a = selected_class ca co /\
        (ca = true -> class_of a = Contracting) /\
        (ca = false -> co <> None ->
         class_of a = Denoising /\ corruptor a = co) /\
        (ca = false -> co = None -> class_of a = Plain).
Proof.
  destruct (build_stacked_ae (NR := lcg) (TN := registry) 10 [8; 4; 2]
      (Single (ActName "sigmoid")) (Single ActNone) (Single false)
      (Single (1 # 1000)%Q) (Seed 9001)
      (Sequence [None; Some (CorruptorObject 0); None])
      (Sequence [true; false; false])
      (Single None) (Single 0%Q) (Single 0%Q) (Single 0%Q) empty_world)
    as [[stack|e] w'] eqn:E; [|vm_compute in E; discriminate E].
  exists stack, w'. split; [reflexivity|].
  exact (proj1 (C7_layer_class_selection (H := lcg) (H0 := registry))
           _ _ _ _ _ _ _ _ _ _ _ _ _ _ _ _ E).
Defined.

(** ** C9: the state [reconstruct] leaves *)

Lemma reconstruct_list (inps : list tensor) :
  reconstruct (TList inps) =
  (let* hiddens := reading (fun self => encode self (TList inps)) in
   let* _ := assign (set_hiddens (Some hiddens)) in
   let* reg := reading (fun self => compute_regularization self hiddens) in
   let* _ := assign (set_regularization reg) in
   let* act_dec :=
     reading (fun self => Ok (match act_dec self with
                              | None => fun x => x
                              | Some f => TApply f
                              end)) in
   let* rs := reconstruct_each inps in
   ret (TList rs)).
Proof. reflexivity. Qed.

(** On one minibatch, [reconstruct] caches the hidden activations and
    their regularisation, and changes nothing else. *)
Lemma reconstruct_variable (x : tensor) (self : Autoencoder) y self' :
  is_Variable x = true ->
  reconstruct x self = (Ok y, self') ->
  exists h reg,
    encode self x = Ok h /\ compute_regularization self h = Ok reg /\
    self' = cached h reg self /\
    compute_penalty_value self' = reg /\ hiddens self' = Some h.
Proof.
  intros Hvar Hrun.
  assert (exists h reg, encode self x = Ok h /\
            compute_regularization self h = Ok reg /\
            self' = cached h reg self) as (h & reg & Hh & Hreg & ->).
  { destruct x; try discriminate Hvar; simpl in Hrun;
      (step_in Hrun as h s1 Hh; cbv [reading] in Hh;
       destruct (_hidden_activation self _) as [h'|e] eqn:Eh;
         inversion Hh; subst;
       step_in Hrun as u1 s2 Hu1; cbv [assign] in Hu1; inversion Hu1; subst;
       step_in Hrun as reg s3 Hreg; cbv [reading] in Hreg;
       destruct (compute_regularization _ h) as [reg'|e] eqn:Ereg;
         inversion Hreg; subst;
       step_in Hrun as u2 s4 Hu2; cbv [assign] in Hu2; inversion Hu2; subst;
       step_in Hrun as ad s5 Had; cbv [reading] in Had; inversion Had; subst;
       cbv [reading] in Hrun;
       exists h, reg; split; [exact Eh|]; split; [exact Ereg|];
       match type of Hrun with
       | (match ?t with _ => _ end, _) = _ =>
           destruct t; inversion Hrun; reflexivity
       end). }
  exists h, reg. repeat split; assumption.
Qed.

Lemma encode_cached (x h reg : tensor) (self : Autoencoder) :
  is_Variable x = true ->
  encode (set_regularization reg (set_hiddens (Some h) self)) x
  = encode self x.
Proof. destruct x; intros Hvar; try discriminate Hvar; reflexivity. Qed.

Lemma reconstruct_each_last (l : list tensor) (self : Autoencoder) rs self' :
  Forall (fun x => is_Variable x = true) l ->
  reconstruct_each l self = (Ok rs, self') ->
  match last l with
  | None => self' = self
  | Some x =>
      exists h reg,
        encode self x = Ok h /\ compute_regularization self h = Ok reg /\
        self' = cached h reg self
  end.
Proof.
  intros Hvars. revert self rs.
  induction Hvars as [|x rest Hx Hrest IH]; intros self rs Hrun.
  - cbv [reconstruct_each ret] in Hrun. inversion Hrun. reflexivity.
  - simpl in Hrun. step_in Hrun as y s1 Hy.
    apply reconstruct_variable in Hy as (h1 & r1 & Hh1 & Hr1 & -> & _);
      [|exact Hx].
    step_in Hrun as ys s2 Hys. cbv [ret] in Hrun. inversion Hrun; subst.
    apply IH in Hys. rewrite last_cons.
    destruct (last rest) as [z|] eqn:Hlast.
    + destruct Hys as (h & reg & Hh & Hreg & ->).
      assert (is_Variable z = true) as Hz.
      { apply last_Some in Hlast as [l' ->].
        apply Forall_app in Hrest as [_ Hz]. inversion Hz; assumption. }
      unfold cached in Hh. rewrite encode_cached in Hh by exact Hz.
      exists h, reg. repeat split; assumption.
    + subst self'. exists h1, r1. repeat split; assumption.
Qed.

(** When [compute_regularization] accepts the list of the hidden
    activations, [reconstruct] on a sequence of minibatches leaves the
    regularisation of the last one. *)
Lemma reconstruct_batches_last (inps : list tensor) (x : tensor)
    (self : Autoencoder) y self' :
  Forall (fun x => is_Variable x = true) inps ->
  last inps = Some x ->
  reconstruct (TList inps) self = (Ok y, self') ->
  exists h reg,
    encode self x = Ok h /\ compute_regularization self h = Ok reg /\
    compute_penalty_value self' = reg /\ hiddens self' = Some h.
Proof.
  intros Hvars Hlast Hrun. rewrite reconstruct_list in Hrun.
  step_in Hrun as hs s1 Hhs. cbv [reading] in Hhs.
  destruct (encode self (TList inps)) as [hs'|e]; inversion Hhs; subst.
  step_in Hrun as u1 s2 Hu1. cbv [assign] in Hu1. inversion Hu1; subst.
  step_in Hrun as reg0 s3 Hreg0. cbv [reading] in Hreg0.
  destruct (compute_regularization _ hs) as [reg0'|e]; inversion Hreg0; subst.
  step_in Hrun as u2 s4 Hu2. cbv [assign] in Hu2. inversion Hu2; subst.
  step_in Hrun as ad s5 Had. cbv [reading] in Had. inversion Had; subst.
  step_in Hrun as rs s6 Heach. cbv [ret] in Hrun. inversion Hrun; subst.
  apply reconstruct_each_last in Heach; [|exact Hvars].
  rewrite Hlast in Heach. destruct Heach as (h & reg & Hh & Hreg & ->).
  assert (is_Variable x = true) as Hx.
  { apply last_Some in Hlast as [l' ->].
    apply Forall_app in Hvars as [_ Hz]. inversion Hz; assumption. }
  unfold cached in Hh. rewrite (encode_cached x hs reg0) in Hh by exact Hx.
  exists h, reg. repeat split; assumption.
Qed.

(** C9 (what the code does).  On a sequence of minibatches
    [reconstruct] first passes the Python list of the hidden activations
    to [compute_regularization]; with [solution == 'sqr_penalty'] that
    subtracts a number from the list, and the call raises [TypeError]
    before any minibatch of the sequence is reconstructed: the list is
    cached in [self.hiddens], and [compute_penalty_value] still returns
    the value it had before the call. *)
Theorem C9_reconstruct_sequence_sqr_penalty_raises
    (self : Autoencoder) (inps : list tensor) (hs : tensor) :
  solution self = Some "sqr_penalty"%string ->
  encode self (TList inps) = Ok hs ->
  reconstruct (TList inps) self
  = (Raise (TypeError "unsupported operand type(s) for -: 'list' and 'float'"),
     set_hiddens (Some hs) self) /\
  compute_penalty_value (snd (reconstruct (TList inps) self))
  = compute_penalty_value self.
Proof.
  intros Hsol Henc.
  assert (reconstruct (TList inps) self
          = (Raise (TypeError "unsupported operand type(s) for -: 'list' and 'float'"),
             set_hiddens (Some hs) self)) as Hrun.
  { rewrite reconstruct_list.
    erewrite bind_step by (cbv [reading]; rewrite Henc; reflexivity).
    erewrite bind_step by reflexivity.
    erewrite bind_raise; [reflexivity|].
    cbv [reading]. unfold compute_regularization. simpl. rewrite Hsol.
    assert (is_Variable hs = false) as Hlist.
    { simpl in Henc.
      match type of Henc with
      | match ?t with _ => _ end = _ => destruct t; inversion Henc; reflexivity
      end. }
    unfold py_sub. rewrite Hlist. reflexivity. }
  split; [exact Hrun|]. rewrite Hrun. reflexivity.
Qed.

Lemma C9_witness :
  solution sqr_instance = Some "sqr_penalty"%string /\
  encode sqr_instance (TList [TVar 0])
    = Ok (TList [TAdd (TShared 0) (TDot (TVar 0) (TShared 1))]) /\
  reconstruct (TList [TVar 0]) sqr_instance
  = (Raise (TypeError "unsupported operand type(s) for -: 'list' and 'float'"),
     set_hiddens (Some (TList [TAdd (TShared 0) (TDot (TVar 0) (TShared 1))]))
       sqr_instance) /\
  compute_penalty_value (snd (reconstruct (TList [TVar 0]) sqr_instance))
  = TConst 0%Q.
Proof.
  split; [reflexivity|]. split; [reflexivity|].
  exact (C9_reconstruct_sequence_sqr_penalty_raises sqr_instance [TVar 0]
           _ eq_refl eq_refl).
Defined.

(** ** C8: the seed determines the initial parameters *)

Section Seeds.
Context {NR : NumpyRandom} {TN : TheanoNames}.

Lemma resolve_callable_anywhere conf attr (w1 w2 : World) x :
  _resolve_callable conf attr w1 = (x, w1) ->
  _resolve_callable conf attr w2 = (x, w2).
Proof.
  unfold _resolve_callable.
  destruct conf as [|name|f]; cbv [ret raise];
    try (intros E; inversion E; reflexivity).
  destruct (String.eqb name "linear");
    [intros E; inversion E; reflexivity|].
  destruct (module_globals name); [intros E; inversion E; reflexivity|].
  destruct (tensor_nnet name); [intros E; inversion E; reflexivity|].
  destruct (tensor_ns name); intros E; inversion E; reflexivity.
Qed.

(** A generator made from a seed starts in the state of that seed,
    whatever the heap. *)
Lemma seeded_generator seed (w : World) r w0 g0 :
  as_generator (Seed seed) w = (Ok r, w0) ->
  generators w0 !! r = Some g0 -> g0 = seed_state seed.
Proof.
  intros Hgen Hg. apply as_generator_inv in Hgen as (_ & _ & -> & Hgens).
  rewrite Hgens in Hg.
  change (length (generators w)) with (0 + length (generators w))%nat in Hg.
  rewrite lookup_past in Hg. inversion Hg. reflexivity.
Qed.

(** A construction from a seed that succeeds in one heap succeeds in
    every heap. *)
Lemma init_seed_anywhere self nvis nhid' enc dec tied sol sp st stp ir seed
    (w1 w2 : World) a1 w1' :
  __init__ self nvis nhid' enc dec tied sol sp st stp ir (Seed seed) w1
  = (Ok a1, w1') ->
  exists a2 w2',
    __init__ self nvis nhid' enc dec tied sol sp st stp ir (Seed seed) w2
    = (Ok a2, w2').
Proof.
  intros Hinit. apply init_inv in Hinit as (r & v0 & g0 & Hgen & O).
  pose proof (init_nvis O) as Hnvis. pose proof (init_nhid_positive O) as Hnhid.
  pose proof (init_tied_nvis O) as Htied. pose proof (init_act_enc O) as Henc.
  pose proof (init_act_dec O) as Hdec.
  assert (valid_seed seed = true) as Hseed.
  { revert Hgen. cbv [as_generator new_RandomState].
    destruct (valid_seed seed); [reflexivity | discriminate]. }
  clear O.
  destruct (as_generator_run (Seed seed) w2 Hseed)
    as (r2 & u0 & g2 & Hgen2 & Hg2).
  eapply init_total; try eassumption.
  - intros w. eapply resolve_callable_anywhere. exact Henc.
  - intros w. eapply resolve_callable_anywhere. exact Hdec.
Qed.

End Seeds.

(** C8.  Two constructions with the same integer seed and the same
    other arguments, in any two states of the heap: one succeeds exactly
    when the other does, and then the two models have the same initial
    values for the biases, the weights and [w_prime], and the same seed
    for their Theano stream. *)
Theorem C8_same_seed_same_initial_parameters `{NumpyRandom} `{TheanoNames}
    self nvis nhid' enc dec tied sol sp st stp ir (seed : Z)
    (w1 w2 : World) :
  let run1 :=
    __init__ self nvis nhid' enc dec tied sol sp st stp ir (Seed seed) w1 in
  let run2 :=
    __init__ self nvis nhid' enc dec tied sol sp st stp ir (Seed seed) w2 in
  is_ok (fst run1) = is_ok (fst run2) /\
  forall a1 w1' a2 w2',
    run1 = (Ok a1, w1') -> run2 = (Ok a2, w2') ->
    value_in w1' (hidbias a1) = value_in w2' (hidbias a2) /\
    value_in w1' (visbias a1) = value_in w2' (visbias a2) /\
    value_in w1' (weights a1) = value_in w2' (weights a2) /\
    value_in w1' (w_prime a1) = value_in w2' (w_prime a2) /\
    s_rng a1 = s_rng a2.
Proof.
  intros run1 run2. split.
  - destruct run1 as [[a1|e1] w1'] eqn:E1;
      destruct run2 as [[a2|e2] w2'] eqn:E2; try reflexivity; exfalso.
    + destruct (init_seed_anywhere _ _ _ _ _ _ _ _ _ _ _ _ w1 w2 _ _ E1)
        as (a & w' & E). subst run2. congruence.
    + destruct (init_seed_anywhere _ _ _ _ _ _ _ _ _ _ _ _ w2 w1 _ _ E2)
        as (a & w' & E). subst run1. congruence.
  - intros a1 w1' a2 w2' E1 E2. subst run1 run2.
    pose proof (init_values _ _ _ _ _ _ _ _ _ _ _ _ _ _ _ E1)
      as (r1 & u1 & g1 & Hgen1 & Hg1 & Hhb1 & Hvb1 & HW1 & Hwp1).
    pose proof (init_values _ _ _ _ _ _ _ _ _ _ _ _ _ _ _ E2)
      as (r2 & u2 & g2 & Hgen2 & Hg2 & Hhb2 & Hvb2 & HW2 & Hwp2).
    pose proof (seeded_generator _ _ _ _ _ Hgen1 Hg1). subst g1.
    pose proof (seeded_generator _ _ _ _ _ Hgen2 Hg2). subst g2.
    rewrite Hhb1, Hhb2, Hvb1, Hvb2, HW1, HW2, Hwp1, Hwp2.
    repeat split.
    apply init_inv in E1 as (r1' & u1' & g1' & Hgen1' & O1).
    apply init_inv in E2 as (r2' & u2' & g2' & Hgen2' & O2).
    pose proof (init_generator O1) as Hg1'. pose proof (init_s_rng O1) as Hs1.
    pose proof (init_generator O2) as Hg2'. pose proof (init_s_rng O2) as Hs2.
    clear O1 O2.
    pose proof (seeded_generator _ _ _ _ _ Hgen1' Hg1'). subst g1'.
    pose proof (seeded_generator _ _ _ _ _ Hgen2' Hg2'). subst g2'.
    rewrite Hs1, Hs2. reflexivity.
Qed.

(** ** Shapes through [encode] *)


Lemma map_rows_wf {A} (f : A -> list Q) (n c : nat) (l : list A) :
  length l = n -> (forall x, length (f x) = c) -> rows_wf n c (map f l).
Proof.
  intros Hl Hf. split; [rewrite length_map; exact Hl|].
  apply List.Forall_map. apply List.Forall_forall. intros x _. apply Hf.
Qed.

Lemma nd_dot_shape b k n xs ws :
  length xs = b ->
  exists ys, nd_dot (Matrix b k xs) (Matrix k n ws) = Some (Matrix b n ys) /\
             rows_wf b n ys.
Proof.
  intros Hxs. unfold nd_dot. rewrite Nat.eqb_refl. eexists.
  split; [reflexivity|]. apply map_rows_wf; [exact Hxs|].
  intros row. rewrite length_map, length_seq. reflexivity.
Qed.

Lemma nd_add_bias_shape b n v ys :
  length v = n -> rows_wf b n ys ->
  exists zs, nd_zip Qplus (Vector v) (Matrix b n ys) = Some (Matrix b n zs) /\
             rows_wf b n zs.
Proof.
  intros Hv [Hb Hn]. unfold nd_zip. rewrite Hv, Nat.eqb_refl. eexists.
  split; [reflexivity|]. split; [rewrite length_map; exact Hb|].
  apply List.Forall_map. eapply List.Forall_impl; [|exact Hn].
  intros row Hrow. simpl in Hrow |- *.
  rewrite length_zip_with, Hv, Hrow. apply Nat.min_id.
Qed.

Lemma nd_apply_shape impl op b n ys :
  keeps_shape (Some op) = true ->
  rows_wf b n ys ->
  exists zs, nd_apply impl op (Matrix b n ys) = Some (Matrix b n zs) /\
             rows_wf b n zs.
Proof.
  intros Hop [Hb Hn]. destruct op as [s| |]; [| |discriminate Hop]; simpl;
    eexists;
    (split; [reflexivity|]); (split; [rewrite length_map; exact Hb|]);
    apply List.Forall_map; (eapply List.Forall_impl; [|exact Hn]);
    intros row Hrow; simpl.
  - rewrite length_map. exact Hrow.
  - unfold softmax_row. rewrite !length_map. exact Hrow.
Qed.

Section EncodeShapes.
Context {TN : TheanoNames}.


(** A ready layer whose activation keeps the shape maps a batch of
    [nv] columns to a batch of [nh] columns with as many rows. *)
Lemma encode_shape store feed a nv nh x b xs :
  layer_ready store a nv nh ->
  keeps_shape (act_enc a) = true ->
  is_Variable x = true ->
  eval scalar_impl store feed x = Some (Matrix b nv xs) ->
  rows_wf b nv xs ->
  exists t ys,
    encode a x = Ok t /\ is_Variable t = true /\
    eval scalar_impl store feed t = Some (Matrix b nh ys) /\
    rows_wf b nh ys.
Proof.
  intros (iw & ib & rows & HW & Hhb & Hiw & Hwf & Hib) Hkeeps Hvar Hx Hxs.
  assert (encode a x = _hidden_activation a x) as ->
    by (destruct x; try discriminate Hvar; reflexivity).
  unfold _hidden_activation, _hidden_input, tensor_dot, tensor_add.
  rewrite HW, Hhb.
  destruct (nd_dot_shape b nv nh xs rows (proj1 Hxs)) as (ys & Hdot & Hys).
  destruct (nd_add_bias_shape b nh (replicate nh 0%Q) ys
              (length_replicate _ _) Hys) as (zs & Hadd & Hzs).
  assert (eval scalar_impl store feed
            (TAdd (TShared ib) (TDot x (TShared iw)))
          = Some (Matrix b nh zs)) as Hpre.
  { cbn [eval]. rewrite Hib, Hx, Hiw. cbn [mbind option_bind].
    rewrite Hdot. cbn [mbind option_bind]. exact Hadd. }
  destruct (act_enc a) as [op|].
  - destruct (nd_apply_shape scalar_impl op b nh zs Hkeeps Hzs)
      as (us & Hact & Hus).
    eexists _, us. split; [reflexivity|]. split; [reflexivity|].
    split; [|exact Hus].
    change (eval scalar_impl store feed
              (TApply op (TAdd (TShared ib) (TDot x (TShared iw)))))
      with (eval scalar_impl store feed
              (TAdd (TShared ib) (TDot x (TShared iw)))
            ≫= nd_apply scalar_impl op).
    rewrite Hpre. exact Hact.
  - eexists _, zs. split; [reflexivity|]. split; [reflexivity|].
    split; [exact Hpre | exact Hzs].
Qed.


End EncodeShapes.

(** ** C6: the shapes of a stack *)


Section StackShapes.
Context {NR : NumpyRandom} {TN : TheanoNames}.


End StackShapes.




(** With a visible size the last part of the claim still asks that the
    activations keep the shape: [build_stacked_ae(2, [3], 'sum', None)]
    succeeds ([tensor.sum] is a name of [theano.tensor]), and its stack
    encodes a batch with two columns into a number. *)
Lemma sum_encoder_changes_the_shape :
  exists stack (w' : Heap Z) t q,
    build_stacked_ae (NR := lcg) (TN := registry) 2 [3]
      (Single (ActName "sum")) (Single ActNone) (Single false)
      (Single (1 # 1000)%Q) (Seed 9001) (Single None) (Single false)
      (Single None) (Single 0%Q) (Single 0%Q) (Single 0%Q) empty_world
    = (Ok stack, w') /\
    Forall (fun a => keeps_shape (act_enc a) = false) (layers stack) /\
    StackedBlocks_encode stack (TVar 0) = Ok t /\
    eval (scalar_impl (TheanoNames := registry)) (values w')
      {[ 0%nat := Matrix 1 2 [[1; 1]]%Q ]} t = Some (Scalar q).
Proof.
  destruct (build_stacked_ae (NR := lcg) (TN := registry) 2 [3]
      (Single (ActName "sum")) (Single ActNone) (Single false)
      (Single (1 # 1000)%Q) (Seed 9001) (Single None) (Single false)
      (Single None) (Single 0%Q) (Single 0%Q) (Single 0%Q) empty_world)
    as [[stack|e] w'] eqn:E; [|vm_compute in E; discriminate E].
  exists stack, w'.
  assert (exists t q,
            Forall (fun a => keeps_shape (act_enc a) = false) (layers stack) /\
            StackedBlocks_encode stack (TVar 0) = Ok t /\
            eval (scalar_impl (TheanoNames := registry)) (values w')
              {[ 0%nat := Matrix 1 2 [[1; 1]]%Q ]} t = Some (Scalar q))
    as (t & q & Hk & Ht & Hq).
  { clear -E. vm_compute in E. inversion E; subst stack w'. clear E.
    eexists _, _. split; [repeat constructor|]. split; [reflexivity|].
    vm_compute. reflexivity. }
  exists t, q. split; [reflexivity|]. split; [exact Hk|].
  split; [exact Ht | exact Hq].
Qed.

(** ** Deferred initialisation of an untied model *)

(** With [tied_weights=False] the rest of what is said of deferred
    initialisation holds: a construction with [nvis == 0] leaves the
    weights and the visible bias unallocated; [set_visible_size(k)] then
    allocates them, after which the model encodes batches with [k]
    columns; a second call raises [ValueError]. *)
Lemma deferred_untied_initialization `{NumpyRandom} `{TheanoNames}
    self nhid' enc dec sol sp st stp ir rng' (w : World) a w1 :
  __init__ self 0 nhid' enc dec false sol sp st stp ir rng' w = (Ok a, w1) ->
  weights a = None /\ visbias a = None /\
  forall k, 0 < k ->
    exists a' w2,
      set_visible_size a k None w1 = (Ok a', w2) /\
      layer_ready (values w2) a' (Z.to_nat k) (Z.to_nat nhid') /\
      forall k' r (w3 : World),
        set_visible_size a' k' r w3
        = (Raise (ValueError "parameters of this model already initialized; create a new object instead"), w3).
Proof.
  intros Hinit. apply init_inv in Hinit as (r & w0 & g0 & _ & O).
  pose proof (init_generator O) as Hg.
  pose proof (init_nhid_positive O) as Hnhid. pose proof (init_nhid O) as Hnh.
  pose proof (init_tied O) as Htied. pose proof (init_rng O) as Hrng.
  pose proof (init_hidbias O) as Hhb. pose proof (init_visbias O) as Hvb.
  pose proof (init_weights O) as HW. pose proof (init_store O) as Hvals.
  pose proof (init_generators O) as Hgens. clear O.
  simpl in Hvb, HW, Hvals, Hgens.
  split; [exact HW|]. split; [exact Hvb|].
  intros k Hk.
  assert (exists g1, generators w1 !! rng a = Some g1) as [g1 Hg1].
  { rewrite Hgens, Hrng. eexists. apply list_lookup_insert_eq.
    eapply lookup_lt_Some; exact Hg. }
  unfold set_visible_size. rewrite HW. cbn [or_else].
  erewrite bind_step by (apply initialize_visbias_run; lia).
  erewrite bind_step; cycle 1.
  { apply initialize_weights_run with (g := g1);
      [exact Hg1 | lia | simpl; lia]. }
  simpl tied_weights. rewrite Htied. simpl negb. cbv iota.
  erewrite bind_step; cycle 1.
  { apply initialize_w_prime_run;
      [simpl; rewrite Hrng; apply list_lookup_insert_eq;
       rewrite <- Hrng; eapply lookup_lt_Some; exact Hg1
      | lia | simpl; lia]. }
  eexists _, _. split; [reflexivity|]. split.
  - eexists _, (length (values w)), _.
    simpl. rewrite Hhb, Hnh. split; [reflexivity|]. split; [reflexivity|].
    split; [|split].
    + rewrite length_app, <- !app_assoc. simpl length.
      rewrite (Nat.add_comm (length (values w1)) 1).
      rewrite (lookup_past (values w1) _ 1). reflexivity.
    + destruct (rand_rows_wf (Z.to_nat k) (Z.to_nat nhid') g1) as [Hl Hf].
      split; [rewrite length_map; exact Hl|].
      apply List.Forall_map. eapply List.Forall_impl; [|exact Hf].
      intros row Hrow. simpl. rewrite length_map. exact Hrow.
    + rewrite Hvals, <- !app_assoc. past 0%nat.
  - intros k' r' w3. reflexivity.
Qed.

(** * Further properties of the module *)

(** ** Which constructions succeed *)

Ltac late_failure Hfail Hres :=
  let Henc := fresh "Henc" in
  let Hok := fresh "Hok" in
  let Hdec := fresh "Hdec" in
  let f := fresh "f" in
  let Hf := fresh "Hf" in
  destruct Hfail as [Henc | [Hok Hdec]];
  [ apply bind_raise; apply Henc
  | destruct (Hres Hok) as (f & Hf);
    rewrite (bind_step _ _ _ _ _ (Hf _)); apply bind_raise; apply Hdec ].

Section Admissible.
Context {NR : NumpyRandom} {TN : TheanoNames}.

(** An activation that resolves in one heap resolves to the same
    callable in every heap. *)
Lemma resolve_callable_ok conf attr (w : World) :
  is_ok (fst (_resolve_callable conf attr w)) = true ->
  exists f, forall w1 : World, _resolve_callable conf attr w1 = (Ok f, w1).
Proof.
  destruct (_resolve_callable conf attr w) as [[f|e] w1] eqn:E;
    [|discriminate].
  intros _. exists f. intros w2.
  pose proof (resolve_callable_world _ _ _ _ _ E); subst w1.
  exact (resolve_callable_anywhere _ _ _ w2 _ E).
Qed.


(** The allocations of a construction, up to the lookup of the
    activations: when one of the two lookups raises, the construction
    raises the same, with the parameters already in the store. *)
Lemma init_late_failure self nvis nhid' enc dec tied sol sp st stp ir rng'
    (w : World) e :
  0 <= nvis -> 0 < nhid' -> generator_exists rng' w ->
  (tied = true -> 0 < nvis) ->
  (forall w1 : World, _resolve_callable enc "act_enc" w1 = (Raise e, w1)) \/
  (is_ok (fst (_resolve_callable enc "act_enc" w)) = true /\
   forall w1 : World, _resolve_callable dec "act_dec" w1 = (Raise e, w1)) ->
  exists w',
    __init__ self nvis nhid' enc dec tied sol sp st stp ir rng' w
    = (Raise e, w') /\
    length (values w') = (length (values w) + allocated nvis tied)%nat.
Proof.
  intros Hnvis Hnhid Hex Htied Hfail.
  destruct (as_generator_run _ _ Hex) as (r & w0 & g0 & Hgen & Hg).
  pose proof (as_generator_inv _ _ _ _ Hgen) as (Hv0 & _ & _).
  assert (is_ok (fst (_resolve_callable enc "act_enc" w)) = true ->
          exists f, forall w1 : World,
            _resolve_callable enc "act_enc" w1 = (Ok f, w1)) as Hres
    by apply resolve_callable_ok.
  unfold __init__, allocated.
  rewrite (bind_step _ _ _ _ _ (assert_run _ _ _ (proj2 (Z.leb_le _ _) Hnvis))).
  rewrite (bind_step _ _ _ _ _ (assert_run _ _ _ (proj2 (Z.ltb_lt _ _) Hnhid))).
  rewrite (bind_step _ _ _ _ _ Hgen).
  erewrite bind_step by (apply initialize_hidbias_run; simpl; lia).
  destruct (Z.ltb_spec 0 nvis) as [Hpos|Hzero].
  - erewrite bind_step; cycle 1.
    { erewrite bind_step by (apply initialize_visbias_run; exact Hnvis).
      apply initialize_weights_run with (g := g0);
        [exact Hg | exact Hnvis | simpl; lia]. }
    erewrite bind_step; cycle 1.
    { apply rng_randint_run. simpl. apply list_lookup_insert_eq.
      eapply lookup_lt_Some; eassumption. }
    destruct tied.
    + erewrite bind_step by reflexivity.
      eexists. split; [late_failure Hfail Hres|].
      simpl. rewrite !length_app, Hv0. simpl. lia.
    + erewrite bind_step; cycle 1.
      { apply initialize_w_prime_run;
          [simpl; apply list_lookup_insert_eq; rewrite length_insert;
           eapply lookup_lt_Some; eassumption
          | exact Hnvis | simpl; lia]. }
      eexists. split; [late_failure Hfail Hres|].
      simpl. rewrite !length_app, Hv0. simpl. lia.
  - destruct tied; [specialize (Htied eq_refl); lia|].
    erewrite bind_step by reflexivity.
    erewrite bind_step; cycle 1.
    { apply rng_randint_run. simpl. exact Hg. }
    erewrite bind_step; cycle 1.
    { apply initialize_w_prime_run;
        [simpl; apply list_lookup_insert_eq; eapply lookup_lt_Some; eassumption
        | exact Hnvis | simpl; lia]. }
    eexists. split; [late_failure Hfail Hres|].
    simpl. rewrite !length_app, Hv0. simpl. lia.
Qed.

Lemma unresolved_name name attr (w : World) :
  name <> "linear"%string -> module_globals name = None ->
  tensor_nnet name = None -> tensor_ns name = None ->
  _resolve_callable (ActName name) attr w
  = (Raise (unknown_activation attr name), w).
Proof.
  intros Hlin Hg Hn Ht. unfold _resolve_callable.
  destruct (String.eqb_spec name "linear"); [contradiction|].
  rewrite Hg, Hn, Ht. reflexivity.
Qed.

End Admissible.



(** X2.  A negative [nvis], or an [nhid] that is not positive, makes
    [__init__] raise [AssertionError] before anything is allocated or
    drawn: the heap is the one of the call.  The assertion on [nvis]
    comes first, so that its message is the one raised when both sizes
    are out of range. *)
Theorem X2_init_rejects_sizes `{NumpyRandom} `{TheanoNames}
    self nvis nhid' enc dec tied sol sp st stp ir rng' (w : World) :
  nvis < 0 \/ nhid' <= 0 ->
  __init__ self nvis nhid' enc dec tied sol sp st stp ir rng' w
  = (Raise (AssertionError
              (if nvis <? 0
               then "Number of visible units must be non-negative"
               else "Number of hidden units must be positive")), w).
Proof.
  intros Hbad. unfold __init__.
  destruct (Z.ltb_spec nvis 0) as [Hneg|Hok].
  - apply bind_raise. unfold assert_.
    destruct (Z.leb_spec 0 nvis); [lia | reflexivity].
  - rewrite (bind_step _ _ _ _ _ (assert_run _ _ _ (proj2 (Z.leb_le _ _) Hok))).
    apply bind_raise. unfold assert_.
    destruct (Z.ltb_spec 0 nhid'); [lia | reflexivity].
Qed.

Lemma X2_witness :
  ((-1) < 0 \/ 3 <= 0) /\
  __init__ (NR := lcg) (TN := registry) (new_instance Plain) (-1) 3
    ActNone ActNone false None 0%Q 0%Q 0%Q (1 # 1000)%Q (Seed 9001) empty_world
  = (Raise (AssertionError "Number of visible units must be non-negative"),
     empty_world).
Proof.
  split; [left; reflexivity|].
  exact (X2_init_rejects_sizes (H := lcg) (H0 := registry)
           (new_instance Plain) (-1) 3 ActNone ActNone false None
           0%Q 0%Q 0%Q (1 # 1000)%Q (Seed 9001) empty_world
           (or_introl eq_refl)).
Defined.

(** X3.  An activation name that is not ["linear"] and that none of the
    three namespaces binds makes [__init__] raise [ValueError] with the
    message [Couldn't interpret act_enc value: '<name>'] (and
    [act_dec] when the encoder resolves and the decoder does not).  The
    names are looked up after the parameters are allocated: the store
    the exception leaves holds the one to four shared variables of the
    model that was not built. *)
Theorem X3_unknown_activation_name `{NumpyRandom} `{TheanoNames}
    self nvis nhid' tied sol sp st stp ir rng' (w : World) (name : string) :
  0 <= nvis -> 0 < nhid' -> generator_exists rng' w ->
  (tied = true -> 0 < nvis) ->
  name <> "linear"%string -> module_globals name = None ->
  tensor_nnet name = None -> tensor_ns name = None ->
  (forall dec, exists w',
     __init__ self nvis nhid' (ActName name) dec tied sol sp st stp ir rng' w
     = (Raise (unknown_activation "act_enc" name), w') /\
     length (values w') = (length (values w) + allocated nvis tied)%nat) /\
  (forall enc,
     is_ok (fst (_resolve_callable enc "act_enc" w)) = true ->
     exists w',
       __init__ self nvis nhid' enc (ActName name) tied sol sp st stp ir rng' w
       = (Raise (unknown_activation "act_dec" name), w') /\
       length (values w') = (length (values w) + allocated nvis tied)%nat).
Proof.
  intros Hnvis Hnhid Hex Htied Hlin Hg Hn Ht. split.
  - intros dec. apply init_late_failure; try assumption.
    left. intros w1. apply unresolved_name; assumption.
  - intros enc Henc. apply init_late_failure; try assumption.
    right. split; [exact Henc|].
    intros w1. apply unresolved_name; assumption.
Qed.

(** X4.  What a construction leaves alone: the shared variables of the
    heap keep their index and their content (the store only grows), no
    placeholder is made, and the only generator that advances is the
    one of the model; a seed adds one generator, a generator object adds
    none. *)
Theorem X4_construction_frame `{NumpyRandom} `{TheanoNames}
    self nvis nhid' enc dec tied sol sp st stp ir rng' (w : World) a w' :
  __init__ self nvis nhid' enc dec tied sol sp st stp ir rng' w = (Ok a, w') ->
  values w `prefix_of` values w' /\
  placeholders w' = placeholders w /\
  match rng' with
  | Seed _ =>
      generators w `prefix_of` generators w' /\
      length (generators w') = S (length (generators w))
  | Generator r =>
      length (generators w') = length (generators w) /\
      forall r', r' <> r -> generators w' !! r' = generators w !! r'
  end.
Proof.
  intros Hinit. apply init_inv in Hinit as (r & w0 & g0 & Hgen & O).
  split; [rewrite (init_store O); eexists; reflexivity|].
  split; [exact (init_placeholders O)|].
  pose proof (init_generators O) as Hgens.
  apply as_generator_inv in Hgen as (_ & _ & Hr).
  destruct rng' as [z|r1]; destruct Hr as [-> Hg0]; rewrite Hgens, Hg0.
  - split.
    + exists [if tied then after_weights nvis nhid' g0
              else after_w_prime nvis nhid' g0].
      rewrite insert_app_r_alt by lia.
      rewrite Nat.sub_diag. reflexivity.
    + rewrite length_insert, length_app. simpl. lia.
  - split; [apply length_insert|].
    intros r' Hne. apply list_lookup_insert_ne. congruence.
Qed.

Lemma X3_witness :
  (forall dec, exists w' : Heap Z,
     __init__ (NR := lcg) (TN := registry) (new_instance Plain) 2 3
       (ActName "sigmoidal") dec false None 0%Q 0%Q 0%Q (1 # 1000)%Q
       (Seed 9001) empty_world
     = (Raise (unknown_activation "act_enc" "sigmoidal"), w') /\
     length (values w') = 4%nat) /\
  (forall enc,
     is_ok (fst (_resolve_callable (NR := lcg) (TN := registry) enc "act_enc"
                   empty_world)) = true ->
     exists w' : Heap Z,
       __init__ (NR := lcg) (TN := registry) (new_instance Plain) 2 3
         enc (ActName "sigmoidal") false None 0%Q 0%Q 0%Q (1 # 1000)%Q
         (Seed 9001) empty_world
       = (Raise (unknown_activation "act_dec" "sigmoidal"), w') /\
       length (values w') = 4%nat).
Proof.
  apply (X3_unknown_activation_name (H := lcg) (H0 := registry)
           (new_instance Plain) 2 3 false None 0%Q 0%Q 0%Q (1 # 1000)%Q
           (Seed 9001) empty_world "sigmoidal").
  - discriminate.
  - reflexivity.
  - reflexivity.
  - discriminate.
  - discriminate.
  - reflexivity.
  - reflexivity.
  - reflexivity.
Defined.

Lemma X4_witness :
  exists a (w' : Heap Z),
    __init__ (NR := lcg) (TN := registry) (new_instance Plain) 2 3
      ActNone ActNone false None 0%Q 0%Q 0%Q (1 # 1000)%Q (Generator 0)
      one_generator = (Ok a, w') /\
    values one_generator `prefix_of` values w' /\
    placeholders w' = placeholders one_generator /\
    length (generators w') = length (generators one_generator) /\
    forall r', r' <> 0%nat ->
      generators w' !! r' = generators one_generator !! r'.
Proof.
  destruct (__init__ (NR := lcg) (TN := registry) (new_instance Plain) 2 3
      ActNone ActNone false None 0%Q 0%Q 0%Q (1 # 1000)%Q (Generator 0)
      one_generator) as [[a|e] w'] eqn:E; [|vm_compute in E; discriminate E].
  exists a, w'. split; [reflexivity|].
  exact (X4_construction_frame (H := lcg) (H0 := registry)
           _ _ _ _ _ _ _ _ _ _ _ _ _ _ _ E).
Defined.

(** ** Deferred models and [set_visible_size] *)

Section Deferred.
Context {NR : NumpyRandom} {TN : TheanoNames}.

(** Rows without a column take nothing from the generator. *)
Lemma rand_rows_no_column n g : rand_rows n 0 g = (replicate n [], g).
Proof.
  induction n as [|n IH]; [reflexivity|].
  simpl. rewrite IH. reflexivity.
Qed.

Lemma map_map_no_column (f : Q -> Q) n :
  map (map f) (replicate n ([] : list Q)) = replicate n [].
Proof. induction n as [|n IH]; [reflexivity|]. simpl. rewrite IH. reflexivity. Qed.

End Deferred.

(** X5.  A construction with [nvis == 0] (untied weights) leaves the
    visible bias and the weights [None]; the parameter list is
    [[None, hidbias, None, w_prime]]; two shared variables are
    allocated, the hidden bias and a [w_prime] with [nhid] rows and no
    column; the only draw from the generator is the seed of the Theano
    stream. *)
Theorem X5_deferred_construction `{NumpyRandom} `{TheanoNames}
    self nhid' enc dec sol sp st stp ir rng' (w : World) a w' :
  __init__ self 0 nhid' enc dec false sol sp st stp ir rng' w = (Ok a, w') ->
  visbias a = None /\ weights a = None /\
  _params a = [None; hidbias a; None; w_prime a] /\
  values w' = values w ++ [Vector (replicate (Z.to_nat nhid') 0%Q);
                           no_column (Z.to_nat nhid')] /\
  value_in w' (hidbias a) = Some (Vector (replicate (Z.to_nat nhid') 0%Q)) /\
  value_in w' (w_prime a) = Some (no_column (Z.to_nat nhid')) /\
  exists r w0 g0,
    as_generator rng' w = (Ok r, w0) /\ generators w0 !! r = Some g0 /\
    generators w' = <[r := (randint (2 ^ 30) g0).2]> (generators w0).
Proof.
  intros Hinit. apply init_inv in Hinit as (r & w0 & g0 & Hgen & O).
  pose proof (init_visbias O) as Hvb. pose proof (init_weights O) as HW.
  pose proof (init_hidbias O) as Hhb. pose proof (init_w_prime O) as Hwp.
  pose proof (init_params O) as Hpar. pose proof (init_tied O) as Htied.
  pose proof (init_store O) as Hvals. pose proof (init_generators O) as Hgens.
  pose proof (init_generator O) as Hg. clear O.
  simpl in Hvb, HW, Hwp, Hvals, Hgens.
  assert (drawn_w_prime 0 nhid' ir g0 = no_column (Z.to_nat nhid')) as Hdrawn.
  { unfold drawn_w_prime, no_column. simpl Z.to_nat.
    rewrite rand_rows_no_column. simpl. rewrite map_map_no_column.
    reflexivity. }
  rewrite Hdrawn in Hvals.
  unfold build_params in Hpar. rewrite Htied, Hvb, HW in Hpar. simpl in Hpar.
  split; [exact Hvb|]. split; [exact HW|]. split; [exact Hpar|].
  split; [exact Hvals|].
  unfold value_in, value_in_store. rewrite Hhb, Hwp, Hvals. simpl.
  split; [past 0%nat|]. split; [past 1%nat|].
  exists r, w0, g0. split; [exact Hgen|]. split; [exact Hg|].
  rewrite Hgens. unfold after_w_prime, after_weights, before_seed. simpl.
  rewrite rand_rows_no_column. reflexivity.
Qed.

Lemma X5_witness :
  exists a w',
    __init__ (NR := lcg) (TN := registry) (new_instance Plain) 0 3
      ActNone ActNone false None 0%Q 0%Q 0%Q (1 # 1000)%Q (Seed 9001)
      empty_world = (Ok a, w') /\
    visbias a = None /\ weights a = None /\
    _params a = [None; hidbias a; None; w_prime a] /\
    values w' = [Vector [0; 0; 0]%Q; no_column 3].
Proof.
  destruct (__init__ (NR := lcg) (TN := registry) (new_instance Plain) 0 3
      ActNone ActNone false None 0%Q 0%Q 0%Q (1 # 1000)%Q (Seed 9001)
      empty_world) as [[a|e] w'] eqn:E; [|vm_compute in E; discriminate E].
  exists a, w'. split; [reflexivity|].
  destruct (X5_deferred_construction (H := lcg) (H0 := registry)
              _ _ _ _ _ _ _ _ _ _ _ _ _ E) as (Hvb & HW & Hpar & Hvals & _).
  split; [exact Hvb|]. split; [exact HW|]. split; [exact Hpar | exact Hvals].
Defined.

(** X6.  A model built with [nvis == 0] encodes and reconstructs no
    minibatch: [encode] raises [TypeError] ([tensor.dot] is given
    [None]), and so does [reconstruct], before it caches anything: the
    instance is unchanged. *)
Theorem X6_deferred_model_rejects_batches `{NumpyRandom} `{TheanoNames}
    self nhid' enc dec sol sp st stp ir rng' (w : World) a w' (x : tensor) :
  __init__ self 0 nhid' enc dec false sol sp st stp ir rng' w = (Ok a, w') ->
  is_Variable x = true ->
  encode a x = Raise (TypeError "Cannot convert None to TensorType") /\
  reconstruct x a = (Raise (TypeError "Cannot convert None to TensorType"), a).
Proof.
  intros Hinit Hvar. apply init_inv in Hinit as (r & w0 & g0 & _ & O).
  pose proof (init_weights O) as HW. clear O. simpl in HW.
  assert (encode a x = Raise (TypeError "Cannot convert None to TensorType"))
    as Henc.
  { destruct x; try discriminate Hvar; simpl;
      unfold _hidden_activation, _hidden_input; rewrite HW; reflexivity. }
  split; [exact Henc|].
  destruct x; try discriminate Hvar; simpl reconstruct;
    (apply bind_raise; cbv [reading]; simpl in Henc; rewrite Henc;
     reflexivity).
Qed.

Lemma X6_witness :
  exists a w',
    __init__ (NR := lcg) (TN := registry) (new_instance Plain) 0 3
      ActNone ActNone false None 0%Q 0%Q 0%Q (1 # 1000)%Q (Seed 9001)
      empty_world = (Ok a, w') /\
    is_Variable (TVar 0) = true /\
    encode a (TVar 0) = Raise (TypeError "Cannot convert None to TensorType") /\
    reconstruct (TVar 0) a
    = (Raise (TypeError "Cannot convert None to TensorType"), a).
Proof.
  destruct (__init__ (NR := lcg) (TN := registry) (new_instance Plain) 0 3
      ActNone ActNone false None 0%Q 0%Q 0%Q (1 # 1000)%Q (Seed 9001)
      empty_world) as [[a|e] w'] eqn:E; [|vm_compute in E; discriminate E].
  exists a, w'. split; [reflexivity|]. split; [reflexivity|].
  exact (X6_deferred_model_rejects_batches (H := lcg) (H0 := registry)
           _ _ _ _ _ _ _ _ _ _ _ _ _ (TVar 0) E eq_refl).
Defined.

(** X7.  A model built with [nvis > 0] is never resized: every call of
    [set_visible_size], whatever its arguments, raises [ValueError] and
    leaves the heap as it was. *)
Theorem X7_initialised_model_is_not_resized `{NumpyRandom} `{TheanoNames}
    self nvis nhid' enc dec tied sol sp st stp ir rng' (w : World) a w' :
  0 < nvis ->
  __init__ self nvis nhid' enc dec tied sol sp st stp ir rng' w = (Ok a, w') ->
  forall k r (w1 : World),
    set_visible_size a k r w1
    = (Raise (ValueError "parameters of this model already initialized; create a new object instead"), w1).
Proof.
  intros Hpos Hinit k r w1.
  apply init_inv in Hinit as (r0 & w0 & g0 & _ & O).
  pose proof (init_weights O) as HW. clear O.
  apply Z.ltb_lt in Hpos. rewrite Hpos in HW.
  unfold set_visible_size. rewrite HW. reflexivity.
Qed.

Lemma X7_witness :
  0 < 2 /\
  exists a w',
    __init__ (NR := lcg) (TN := registry) (new_instance Plain) 2 3
      ActNone ActNone false None 0%Q 0%Q 0%Q (1 # 1000)%Q (Seed 9001)
      empty_world = (Ok a, w') /\
    forall k r (w1 : Heap Z),
      set_visible_size (NR := lcg) a k r w1
      = (Raise (ValueError "parameters of this model already initialized; create a new object instead"), w1).
Proof.
  split; [reflexivity|].
  destruct (__init__ (NR := lcg) (TN := registry) (new_instance Plain) 2 3
      ActNone ActNone false None 0%Q 0%Q 0%Q (1 # 1000)%Q (Seed 9001)
      empty_world) as [[a|e] w'] eqn:E; [|vm_compute in E; discriminate E].
  exists a, w'. split; [reflexivity|].
  exact (X7_initialised_model_is_not_resized (H := lcg) (H0 := registry)
           _ _ _ _ _ _ _ _ _ _ _ _ _ _ _ (eq_refl : 0 < 2) E).
Defined.

(** X8.  [set_visible_size] does not repeat the assertion of
    [__init__] on the visible size: on a model built with [nvis == 0] a
    negative size reaches [numpy.zeros], which raises [ValueError], and
    nothing is allocated or drawn. *)
Theorem X8_negative_visible_size `{NumpyRandom} `{TheanoNames}
    self nhid' enc dec sol sp st stp ir rng' (w : World) a w' k :
  __init__ self 0 nhid' enc dec false sol sp st stp ir rng' w = (Ok a, w') ->
  k < 0 ->
  forall r (w1 : World),
    set_visible_size a k r w1
    = (Raise (ValueError "negative dimensions are not allowed"), w1).
Proof.
  intros Hinit Hk r w1.
  apply init_inv in Hinit as (r0 & w0 & g0 & _ & O).
  pose proof (init_weights O) as HW. clear O. simpl in HW.
  unfold set_visible_size. rewrite HW.
  apply bind_raise. unfold _initialize_visbias. apply bind_raise.
  unfold numpy_zeros. destruct (Z.ltb_spec k 0); [reflexivity | lia].
Qed.

Lemma X8_witness :
  exists a w',
    __init__ (NR := lcg) (TN := registry) (new_instance Plain) 0 3
      ActNone ActNone false None 0%Q 0%Q 0%Q (1 # 1000)%Q (Seed 9001)
      empty_world = (Ok a, w') /\
    (-1) < 0 /\
    forall r (w1 : Heap Z),
      set_visible_size (NR := lcg) a (-1) r w1
      = (Raise (ValueError "negative dimensions are not allowed"), w1).
Proof.
  destruct (__init__ (NR := lcg) (TN := registry) (new_instance Plain) 0 3
      ActNone ActNone false None 0%Q 0%Q 0%Q (1 # 1000)%Q (Seed 9001)
      empty_world) as [[a|e] w'] eqn:E; [|vm_compute in E; discriminate E].
  exists a, w'. split; [reflexivity|]. split; [reflexivity|].
  exact (X8_negative_visible_size (H := lcg) (H0 := registry)
           _ _ _ _ _ _ _ _ _ _ _ _ _ (-1) E (eq_refl : (-1) < 0)).
Defined.

(** ** Generators and ranges *)

Section Drawn.
Context {NR : NumpyRandom} {TN : TheanoNames}.

Lemma centred_rows_wf ir n m g :
  rows_wf n m (map (map (centred ir)) (rand_rows n m g).1).
Proof.
  destruct (rand_rows_wf n m g) as [Hl Hf].
  split; [rewrite length_map; exact Hl|].
  apply List.Forall_map. eapply List.Forall_impl; [|exact Hf].
  intros row Hrow. simpl. rewrite length_map. exact Hrow.
Qed.

Lemma drawn_below_half ir n m g (store : list ndarray) feed :
  (0 < ir)%Q ->
  entries_below_half ir
    (value_in_store
       (store ++ [Matrix n m (map (map (centred ir)) (rand_rows n m g).1)])
       feed (Some (TShared (length store)))) n m.
Proof.
  intros Hir. eexists. split; [|split].
  - unfold value_in_store. simpl.
    rewrite (lookup_past store _ 0). reflexivity.
  - apply centred_rows_wf.
  - apply centred_rows_range; [exact Hir | apply rand_rows_range].
Qed.

End Drawn.

(** X9.  Two models built one after the other on the same
    [RandomState] object share it: both hold the object, the first
    construction leaves it advanced by its own draws, and the weights
    of the second are drawn from that state, not from the state the
    first model started from. *)
Theorem X9_shared_generator_advances `{NumpyRandom} `{TheanoNames}
    self1 nv1 nh1 enc1 dec1 tied1 sol1 sp1 st1 stp1 ir1
    self2 nv2 nh2 enc2 dec2 tied2 sol2 sp2 st2 stp2 ir2
    (r : nat) (g0 : RandomState) (w : World) a1 w1 a2 w2 :
  generators w !! r = Some g0 ->
  __init__ self1 nv1 nh1 enc1 dec1 tied1 sol1 sp1 st1 stp1 ir1 (Generator r) w
  = (Ok a1, w1) ->
  __init__ self2 nv2 nh2 enc2 dec2 tied2 sol2 sp2 st2 stp2 ir2 (Generator r) w1
  = (Ok a2, w2) ->
  rng a1 = r /\ rng a2 = r /\
  generators w1 !! r = Some (generator_after nv1 nh1 tied1 g0) /\
  (0 < nv1 -> value_in w1 (weights a1) = Some (drawn_weights nv1 nh1 ir1 g0)) /\
  (0 < nv2 ->
   value_in w2 (weights a2)
   = Some (drawn_weights nv2 nh2 ir2 (generator_after nv1 nh1 tied1 g0))).
Proof.
  intros Hg0 Hone Htwo.
  pose proof (init_values _ _ _ _ _ _ _ _ _ _ _ _ _ _ _ Hone)
    as (r1 & u1 & g1 & Hgen1 & Hg1 & _ & _ & HW1 & _).
  apply init_inv in Hone as (r1' & u1' & g1' & Hgen1' & O1).
  cbv [as_generator ret] in Hgen1, Hgen1'.
  inversion Hgen1; subst r1 u1. inversion Hgen1'; subst r1' u1'.
  rewrite Hg0 in Hg1. inversion Hg1; subst g1.
  pose proof (init_generator O1) as Hg1'. rewrite Hg0 in Hg1'.
  inversion Hg1'; subst g1'.
  assert (generators w1 !! r = Some (generator_after nv1 nh1 tied1 g0)) as Hleft.
  { rewrite (init_generators O1). apply list_lookup_insert_eq.
    eapply lookup_lt_Some; exact Hg0. }
  pose proof (init_values _ _ _ _ _ _ _ _ _ _ _ _ _ _ _ Htwo)
    as (r2 & u2 & g2 & Hgen2 & Hg2 & _ & _ & HW2 & _).
  apply init_inv in Htwo as (r2' & u2' & g2' & Hgen2' & O2).
  cbv [as_generator ret] in Hgen2, Hgen2'.
  inversion Hgen2; subst r2 u2. inversion Hgen2'; subst r2' u2'.
  rewrite Hleft in Hg2. inversion Hg2; subst g2.
  split; [exact (init_rng O1)|]. split; [exact (init_rng O2)|].
  split; [exact Hleft|]. split.
  - intros Hpos. apply Z.ltb_lt in Hpos. rewrite Hpos in HW1. exact HW1.
  - intros Hpos. apply Z.ltb_lt in Hpos. rewrite Hpos in HW2. exact HW2.
Qed.

Lemma X9_witness :
  generators one_generator !! 0%nat = Some 9001 /\
  exists a1 (w1 : Heap Z) a2 (w2 : Heap Z),
    __init__ (NR := lcg) (TN := registry) (new_instance Plain) 2 3
      ActNone ActNone true None 0%Q 0%Q 0%Q (1 # 1000)%Q (Generator 0)
      one_generator = (Ok a1, w1) /\
    __init__ (NR := lcg) (TN := registry) (new_instance Plain) 2 3
      ActNone ActNone true None 0%Q 0%Q 0%Q (1 # 1000)%Q (Generator 0)
      w1 = (Ok a2, w2) /\
    rng a1 = 0%nat /\ rng a2 = 0%nat /\
    generators w1 !! 0%nat
    = Some (generator_after (H := lcg) 2 3 true 9001) /\
    (0 < 2 ->
     value_in (H := lcg) (H0 := registry) w1 (weights a1)
     = Some (drawn_weights (H := lcg) 2 3 (1 # 1000) 9001)) /\
    (0 < 2 ->
     value_in (H := lcg) (H0 := registry) w2 (weights a2)
     = Some (drawn_weights (H := lcg) 2 3 (1 # 1000)
               (generator_after (H := lcg) 2 3 true 9001))).
Proof.
  split; [reflexivity|].
  destruct (__init__ (NR := lcg) (TN := registry) (new_instance Plain) 2 3
      ActNone ActNone true None 0%Q 0%Q 0%Q (1 # 1000)%Q (Generator 0)
      one_generator) as [[a1|e1] w1] eqn:E1; [|vm_compute in E1; discriminate E1].
  destruct (__init__ (NR := lcg) (TN := registry) (new_instance Plain) 2 3
      ActNone ActNone true None 0%Q 0%Q 0%Q (1 # 1000)%Q (Generator 0)
      w1) as [[a2|e2] w2] eqn:E2.
  - exists a1, w1, a2, w2. split; [reflexivity|]. split; [exact E2|].
    exact (X9_shared_generator_advances (H := lcg) (H0 := registry)
             (new_instance Plain) 2 3 ActNone ActNone true None 0%Q 0%Q 0%Q
             (1 # 1000)%Q
             (new_instance Plain) 2 3 ActNone ActNone true None 0%Q 0%Q 0%Q
             (1 # 1000)%Q 0%nat 9001 one_generator a1 w1 a2 w2
             eq_refl E1 E2).
  - exfalso. vm_compute in E1. inversion E1; subst a1 w1.
    vm_compute in E2. discriminate E2.
Defined.

(** X10.  [_initialize_weights] does not use its [irange] argument:
    whatever is passed, the weights are [.5 - rand * self.irange], in
    [(1/2 - self.irange, 1/2]].  Its [rng] argument is honoured: the
    draws come from that generator, no other generator advances, and the
    store only grows. *)
Theorem X10_initialize_weights_ignores_irange `{NumpyRandom} `{TheanoNames}
    self nvis (r : nat) (ir' : option Q) (w : World) s' w' :
  (0 < irange self)%Q ->
  _initialize_weights self nvis (Some r) ir' w = (Ok s', w') ->
  entries_below_half (irange self) (value_in w' (weights s'))
    (Z.to_nat nvis) (Z.to_nat (nhid self)) /\
  values w `prefix_of` values w' /\
  forall r', r' <> r -> generators w' !! r' = generators w !! r'.
Proof.
  intros Hir Hrun.
  apply initialize_weights_inv in Hrun as (g & Hg & _ & _ & -> & ->).
  split; [apply drawn_below_half; exact Hir|].
  split; [eexists; reflexivity|].
  intros r' Hne. simpl. apply list_lookup_insert_ne. congruence.
Qed.

(** X11.  [_initialize_w_prime] uses its [irange] argument: the
    decoder weights are [.5 - rand * irange], in [(1/2 - irange, 1/2]],
    drawn from the generator it is given; no other generator advances,
    and the store only grows. *)
Theorem X11_initialize_w_prime_takes_irange `{NumpyRandom} `{TheanoNames}
    self nvis (r : nat) (ir' : Q) (w : World) s' w' :
  (0 < ir')%Q ->
  _initialize_w_prime self nvis (Some r) (Some ir') w = (Ok s', w') ->
  entries_below_half ir' (value_in w' (w_prime s'))
    (Z.to_nat (nhid self)) (Z.to_nat nvis) /\
  values w `prefix_of` values w' /\
  forall r', r' <> r -> generators w' !! r' = generators w !! r'.
Proof.
  intros Hir Hrun.
  apply initialize_w_prime_inv in Hrun as (g & Hg & _ & _ & -> & ->).
  split; [apply drawn_below_half; exact Hir|].
  split; [eexists; reflexivity|].
  intros r' Hne. simpl. apply list_lookup_insert_ne. congruence.
Qed.

Lemma X10_witness :
  (0 < irange tied_instance)%Q /\
  exists s' (w' : Heap Z),
    _initialize_weights (NR := lcg) tied_instance 2 (Some 0%nat) (Some 5%Q)
      one_generator = (Ok s', w') /\
    entries_below_half (1 # 1000)
      (value_in (H := lcg) (H0 := registry) w' (weights s')) 2 3.
Proof.
  split; [reflexivity|].
  destruct (_initialize_weights (NR := lcg) tied_instance 2 (Some 0%nat)
              (Some 5%Q) one_generator)
    as [[s'|e] w'] eqn:E; [|vm_compute in E; discriminate E].
  exists s', w'. split; [reflexivity|].
  exact (proj1 (X10_initialize_weights_ignores_irange
                  (H := lcg) (H0 := registry)
                  tied_instance 2 0%nat (Some 5%Q) one_generator s' w'
                  eq_refl E)).
Defined.

Lemma X11_witness :
  (0 < 5)%Q /\
  exists s' (w' : Heap Z),
    _initialize_w_prime (NR := lcg) tied_instance 2 (Some 0%nat) (Some 5%Q)
      one_generator = (Ok s', w') /\
    entries_below_half 5
      (value_in (H := lcg) (H0 := registry) w' (w_prime s')) 3 2.
Proof.
  split; [reflexivity|].
  destruct (_initialize_w_prime (NR := lcg) tied_instance 2 (Some 0%nat)
              (Some 5%Q) one_generator)
    as [[s'|e] w'] eqn:E; [|vm_compute in E; discriminate E].
  exists s', w'. split; [reflexivity|].
  exact (proj1 (X11_initialize_w_prime_takes_irange
                  (H := lcg) (H0 := registry)
                  tied_instance 2 0%nat 5%Q one_generator s' w'
                  eq_refl E)).
Defined.

(** ** [encode] and [reconstruct] on batches and lists *)

Lemma encode_list (self : Autoencoder) (vs : list tensor) :
  encode self (TList vs)
  = match encode_each self vs with
    | Raise e => Raise e
    | Ok hs => Ok (TList hs)
    end.
Proof. reflexivity. Qed.

Lemma encode_each_ok self vs hs :
  encode_each self vs = Ok hs <->
  Forall2 (fun v h => encode self v = Ok h) vs hs.
Proof.
  revert hs. induction vs as [|v rest IH]; intros hs; simpl.
  - split.
    + intros E; inversion E. constructor.
    + intros E; inversion E. reflexivity.
  - split.
    + destruct (encode self v) as [h|e] eqn:Eh; [|discriminate].
      destruct (encode_each self rest) as [hs'|e] eqn:Er; [|discriminate].
      intros E; inversion E; subst. constructor; [exact Eh|].
      apply IH. reflexivity.
    + intros E. inversion E as [|v' h rest' hs' Hh Hrest]; subst.
      rewrite Hh. apply IH in Hrest. rewrite Hrest. reflexivity.
Qed.

Lemma encode_each_raise self pre v post e :
  Forall (fun u => is_ok (encode self u) = true) pre ->
  encode self v = Raise e ->
  encode_each self (pre ++ v :: post) = Raise e.
Proof.
  intros Hpre Hv. induction Hpre as [|u pre Hu Hpre IH]; simpl.
  - rewrite Hv. reflexivity.
  - destruct (encode self u) as [h|e']; [|discriminate Hu].
    simpl in IH. rewrite IH. reflexivity.
Qed.

(** X12.  [encode] on a list is the list of the encodings of the
    items, in order: it succeeds exactly when every item encodes, and
    when an item does not, it raises the exception of the first one
    that fails. *)
Theorem X12_encode_maps_over_a_list (self : Autoencoder) (vs : list tensor) :
  (forall t,
     encode self (TList vs) = Ok t <->
     exists hs, t = TList hs /\
                Forall2 (fun v h => encode self v = Ok h) vs hs) /\
  (forall pre v post e,
     vs = pre ++ v :: post ->
     Forall (fun u => is_ok (encode self u) = true) pre ->
     encode self v = Raise e ->
     encode self (TList vs) = Raise e).
Proof.
  split.
  - intros t. rewrite encode_list. split.
    + destruct (encode_each self vs) as [hs|e] eqn:E; [|discriminate].
      intros Ht; inversion Ht; subst. exists hs. split; [reflexivity|].
      apply encode_each_ok. exact E.
    + intros (hs & -> & Hall). apply encode_each_ok in Hall.
      rewrite Hall. reflexivity.
  - intros pre v post e -> Hpre Hv. rewrite encode_list.
    rewrite (encode_each_raise _ _ _ _ _ Hpre Hv). reflexivity.
Qed.

Section Ready.
Context {NR : NumpyRandom} {TN : TheanoNames}.

(** After a construction with a visible size the encoder and the
    decoder are in the store. *)
Lemma init_ready self nvis nhid' enc dec tied sol sp st stp ir rng'
    (w : World) a w' :
  0 < nvis ->
  __init__ self nvis nhid' enc dec tied sol sp st stp ir rng' w = (Ok a, w') ->
  layer_ready (values w') a (Z.to_nat nvis) (Z.to_nat nhid') /\
  decoder_ready (values w') a (Z.to_nat nvis) (Z.to_nat nhid').
Proof.
  intros Hpos Hinit. apply init_inv in Hinit as (r & w0 & g0 & _ & O).
  pose proof (init_hidbias O) as Hhb. pose proof (init_visbias O) as Hvb.
  pose proof (init_weights O) as HW. pose proof (init_w_prime O) as Hwp.
  pose proof (init_store O) as Hvals. clear O.
  apply Z.ltb_lt in Hpos. rewrite Hpos in Hvb, HW, Hvals, Hwp.
  assert (rows_wf (Z.to_nat nvis) (Z.to_nat nhid')
            (map (map (centred ir))
               (rand_rows (Z.to_nat nvis) (Z.to_nat nhid') g0).1)) as Hwf
    by apply centred_rows_wf.
  split.
  - eexists _, _, _. split; [exact HW|]. split; [exact Hhb|].
    split; [rewrite Hvals; past 2%nat|]. split; [exact Hwf|].
    rewrite Hvals. past 0%nat.
  - destruct tied.
    + rewrite HW in Hwp. simpl in Hwp.
      eexists _, _, _. split; [exact Hvb|].
      split; [rewrite Hvals; past 1%nat|]. split; [exact Hwp|].
      split.
      * intros feed. cbn [eval]. rewrite Hvals.
        rewrite (lookup_past (values w) _ 2). reflexivity.
      * apply transpose_rows_wf. exact (proj1 Hwf).
    + eexists _, _, _. split; [exact Hvb|].
      split; [rewrite Hvals; past 1%nat|]. split; [exact Hwp|].
      split.
      * intros feed. cbn [eval]. rewrite Hvals.
        rewrite (lookup_past (values w) _ 3). reflexivity.
      * apply centred_rows_wf.
Qed.

(** A batch of the wrong width: the graph is built, and has no value. *)
Lemma encode_wrong_width store feed a nv nh x b c xs :
  layer_ready store a nv nh ->
  is_Variable x = true ->
  eval scalar_impl store feed x = Some (Matrix b c xs) ->
  c <> nv ->
  exists t, encode a x = Ok t /\ eval scalar_impl store feed t = None.
Proof.
  intros (iw & ib & rows & HW & Hhb & Hiw & Hwf & Hib) Hvar Hx Hne.
  assert (encode a x = _hidden_activation a x) as ->
    by (destruct x; try discriminate Hvar; reflexivity).
  unfold _hidden_activation, _hidden_input, tensor_dot, tensor_add.
  rewrite HW, Hhb.
  assert (eval scalar_impl store feed
            (TAdd (TShared ib) (TDot x (TShared iw))) = None) as Hpre.
  { cbn [eval]. rewrite Hib, Hx, Hiw. cbn [mbind option_bind].
    unfold nd_dot. destruct (Nat.eqb_spec c nv); [contradiction|].
    reflexivity. }
  destruct (act_enc a) as [op|]; eexists; (split; [reflexivity|]).
  - change (eval scalar_impl store feed
              (TApply op (TAdd (TShared ib) (TDot x (TShared iw)))))
      with (eval scalar_impl store feed
              (TAdd (TShared ib) (TDot x (TShared iw)))
            ≫= nd_apply scalar_impl op).
    rewrite Hpre. reflexivity.
  - exact Hpre.
Qed.

End Ready.

(** X13.  [encode] does not check the width of a minibatch.  On a
    model built with [nvis > 0] whose encoder activation keeps the shape
    of its argument (the identity, an elementwise op, [softmax]) it
    returns a graph for every variable; the graph has a value, with as
    many rows as the minibatch and [nhid] columns, when the minibatch
    has [nvis] columns, and no value when it has not. *)
Theorem X13_encode_checks_no_width `{NumpyRandom} `{TheanoNames}
    self nvis nhid' enc dec tied sol sp st stp ir rng' (w : World) a w'
    (feed : gmap nat ndarray) (x : tensor) (b c : nat) xs :
  0 < nvis ->
  __init__ self nvis nhid' enc dec tied sol sp st stp ir rng' w = (Ok a, w') ->
  keeps_shape (act_enc a) = true ->
  is_Variable x = true ->
  eval scalar_impl (values w') feed x = Some (Matrix b c xs) ->
  rows_wf b c xs ->
  exists t,
    encode a x = Ok t /\
    (c = Z.to_nat nvis ->
     exists ys,
       eval scalar_impl (values w') feed t
       = Some (Matrix b (Z.to_nat nhid') ys) /\
       rows_wf b (Z.to_nat nhid') ys) /\
    (c <> Z.to_nat nvis -> eval scalar_impl (values w') feed t = None).
Proof.
  intros Hpos Hinit Hkeeps Hvar Hx Hxs.
  destruct (init_ready _ _ _ _ _ _ _ _ _ _ _ _ _ _ _ Hpos Hinit) as [Hready _].
  destruct (Nat.eq_dec c (Z.to_nat nvis)) as [->|Hne].
  - destruct (encode_shape _ _ _ _ _ _ _ _ Hready Hkeeps Hvar Hx Hxs)
      as (t & ys & Henc & _ & Ht & Hys).
    exists t. split; [exact Henc|]. split; [|intros Hc; contradiction].
    intros _. exists ys. split; assumption.
  - destruct (encode_wrong_width _ _ _ _ _ _ _ _ _ Hready Hvar Hx Hne)
      as (t & Henc & Ht).
    exists t. split; [exact Henc|]. split; [intros Hc; contradiction|].
    intros _. exact Ht.
Qed.

Lemma X13_witness :
  0 < 2 /\
  exists a (w' : Heap Z),
    __init__ (NR := lcg) (TN := registry) (new_instance Plain) 2 3
      (ActName "sigmoid") ActNone false None 0%Q 0%Q 0%Q (1 # 1000)%Q
      (Seed 9001) empty_world = (Ok a, w') /\
    keeps_shape (act_enc a) = true /\
    exists t,
      encode a (TVar 0) = Ok t /\
      (2%nat = Z.to_nat 2 ->
       exists ys,
         eval (scalar_impl (TheanoNames := registry)) (values w')
           {[ 0%nat := Matrix 1 2 [[1; 1]]%Q ]} t
         = Some (Matrix 1 (Z.to_nat 3) ys) /\
         rows_wf 1 (Z.to_nat 3) ys) /\
      (2%nat <> Z.to_nat 2 ->
       eval (scalar_impl (TheanoNames := registry)) (values w')
         {[ 0%nat := Matrix 1 2 [[1; 1]]%Q ]} t = None).
Proof.
  split; [reflexivity|].
  destruct (__init__ (NR := lcg) (TN := registry) (new_instance Plain) 2 3
      (ActName "sigmoid") ActNone false None 0%Q 0%Q 0%Q (1 # 1000)%Q
      (Seed 9001) empty_world)
    as [[a|e] w'] eqn:E; [|vm_compute in E; discriminate E].
  assert (keeps_shape (act_enc a) = true) as Hkeeps
    by (clear -E; vm_compute in E; inversion E; reflexivity).
  exists a, w'. split; [reflexivity|]. split; [exact Hkeeps|].
  apply (X13_encode_checks_no_width (H := lcg) (H0 := registry)
           _ _ _ _ _ _ _ _ _ _ _ _ _ _ _
           {[ 0%nat := Matrix 1 2 [[1; 1]]%Q ]} (TVar 0) 1%nat 2%nat
           [[1; 1]]%Q (eq_refl : 0 < 2) E Hkeeps).
  - reflexivity.
  - reflexivity.
  - split; [reflexivity | repeat constructor].
Defined.

Lemma encode_is_variable self x h :
  is_Variable x = true -> encode self x = Ok h -> is_Variable h = true.
Proof.
  intros Hvar.
  assert (encode self x = _hidden_activation self x) as ->
    by (destruct x; try discriminate Hvar; reflexivity).
  unfold _hidden_activation, _hidden_input, tensor_dot, tensor_add.
  destruct (weights self); [|discriminate].
  destruct (hidbias self); [|discriminate].
  destruct (act_enc self); intros E; inversion E; reflexivity.
Qed.

Lemma regularization_of_variable self h :
  is_Variable h = true ->
  exists reg, compute_regularization self h = Ok reg.
Proof.
  intros Hvar. unfold compute_regularization, py_sub. rewrite Hvar.
  repeat case_bool_decide; eexists; reflexivity.
Qed.

(** [reconstruct] on one minibatch, step by step. *)
Lemma reconstruct_variable_run (x : tensor) (self : Autoencoder) h reg :
  is_Variable x = true ->
  encode self x = Ok h -> compute_regularization self h = Ok reg ->
  reconstruct x self = (decode (cached h reg self) h, cached h reg self).
Proof.
  intros Hvar Henc Hreg.
  assert (compute_regularization (set_hiddens (Some h) self) h = Ok reg)
    as Hreg' by exact Hreg.
  destruct x; try discriminate Hvar; simpl in Henc; simpl reconstruct;
    (erewrite bind_step by (cbv [reading]; rewrite Henc; reflexivity);
     erewrite bind_step by reflexivity;
     erewrite bind_step by (cbv [reading]; rewrite Hreg'; reflexivity);
     erewrite bind_step by reflexivity;
     erewrite bind_step by reflexivity;
     cbv [reading decode cached]; simpl;
     destruct (tensor_dot h (w_prime self)) as [hw|e]; [|reflexivity];
     destruct (tensor_add (visbias self) hw) as [y|e]; [|reflexivity];
     destruct (act_dec self); reflexivity).
Qed.

Section Decode.
Context {TN : TheanoNames}.

Lemma decode_shape store feed a nv nh h b hs :
  decoder_ready store a nv nh ->
  keeps_shape (act_dec a) = true ->
  eval scalar_impl store feed h = Some (Matrix b nh hs) ->
  rows_wf b nh hs ->
  exists y zs,
    decode a h = Ok y /\
    eval scalar_impl store feed y = Some (Matrix b nv zs) /\
    rows_wf b nv zs.
Proof.
  intros (iv & wp & rows & Hvb & Hiv & Hwp & Hval & Hwf) Hkeeps Hh Hhs.
  unfold decode, tensor_dot, tensor_add. rewrite Hwp, Hvb.
  destruct (nd_dot_shape b nh nv hs rows (proj1 Hhs)) as (ys & Hdot & Hys).
  destruct (nd_add_bias_shape b nv (replicate nv 0%Q) ys
              (length_replicate _ _) Hys) as (zs & Hadd & Hzs).
  assert (eval scalar_impl store feed (TAdd (TShared iv) (TDot h wp))
          = Some (Matrix b nv zs)) as Hpre.
  { cbn [eval]. rewrite Hiv, Hh, (Hval feed). cbn [mbind option_bind].
    rewrite Hdot. cbn [mbind option_bind]. exact Hadd. }
  destruct (act_dec a) as [op|].
  - destruct (nd_apply_shape scalar_impl op b nv zs Hkeeps Hzs)
      as (us & Hact & Hus).
    eexists _, us. split; [reflexivity|]. split; [|exact Hus].
    change (eval scalar_impl store feed
              (TApply op (TAdd (TShared iv) (TDot h wp))))
      with (eval scalar_impl store feed (TAdd (TShared iv) (TDot h wp))
            ≫= nd_apply scalar_impl op).
    rewrite Hpre. exact Hact.
  - eexists _, zs. split; [reflexivity|]. split; [exact Hpre | exact Hzs].
Qed.

End Decode.

(** X14.  On a model built with [nvis > 0], tied or not, whose two
    activations keep the shape of their argument (the identity, an
    elementwise op, [softmax]), [Autoencoder.reconstruct] maps a
    minibatch with [nvis] columns to a graph whose value has the shape
    of the minibatch; it caches the hidden activations [encode]
    returns, whose value has [nhid] columns. *)
Theorem X14_reconstruct_keeps_the_shape `{NumpyRandom} `{TheanoNames}
    self nvis nhid' enc dec tied sol sp st stp ir rng' (w : World) a w'
    (feed : gmap nat ndarray) (x : tensor) (b : nat) xs :
  0 < nvis ->
  __init__ self nvis nhid' enc dec tied sol sp st stp ir rng' w = (Ok a, w') ->
  keeps_shape (act_enc a) = true -> keeps_shape (act_dec a) = true ->
  is_Variable x = true ->
  eval scalar_impl (values w') feed x = Some (Matrix b (Z.to_nat nvis) xs) ->
  rows_wf b (Z.to_nat nvis) xs ->
  exists y a' h hs zs,
    reconstruct x a = (Ok y, a') /\
    encode a x = Ok h /\ hiddens a' = Some h /\
    eval scalar_impl (values w') feed h = Some (Matrix b (Z.to_nat nhid') hs) /\
    eval scalar_impl (values w') feed y = Some (Matrix b (Z.to_nat nvis) zs) /\
    rows_wf b (Z.to_nat nvis) zs.
Proof.
  intros Hpos Hinit Hkenc Hkdec Hvar Hx Hxs.
  destruct (init_ready _ _ _ _ _ _ _ _ _ _ _ _ _ _ _ Hpos Hinit)
    as [Hready Hdec].
  destruct (encode_shape _ _ _ _ _ _ _ _ Hready Hkenc Hvar Hx Hxs)
    as (h & hs & Henc & Hhvar & Hh & Hhs).
  destruct (regularization_of_variable a h Hhvar) as (reg & Hreg).
  assert (decoder_ready (values w') (cached h reg a)
            (Z.to_nat nvis) (Z.to_nat nhid')) as Hdec' by exact Hdec.
  destruct (decode_shape _ feed _ _ _ _ _ _ Hdec' Hkdec Hh Hhs)
    as (y & zs & Hy & Hval & Hzs).
  exists y, (cached h reg a), h, hs, zs.
  rewrite (reconstruct_variable_run x a h reg Hvar Henc Hreg), Hy.
  split; [reflexivity|]. split; [exact Henc|]. split; [reflexivity|].
  split; [exact Hh|]. split; [exact Hval | exact Hzs].
Qed.

Lemma X14_witness :
  0 < 2 /\
  exists a (w' : Heap Z),
    __init__ (NR := lcg) (TN := registry) (new_instance Plain) 2 3
      (ActName "sigmoid") ActNone true None 0%Q 0%Q 0%Q (1 # 1000)%Q
      (Seed 9001) empty_world = (Ok a, w') /\
    keeps_shape (act_enc a) = true /\ keeps_shape (act_dec a) = true /\
    exists y a' h hs zs,
      reconstruct (TVar 0) a = (Ok y, a') /\
      encode a (TVar 0) = Ok h /\ hiddens a' = Some h /\
      eval (scalar_impl (TheanoNames := registry)) (values w')
        {[ 0%nat := Matrix 1 2 [[1; 1]]%Q ]} h
      = Some (Matrix 1 (Z.to_nat 3) hs) /\
      eval (scalar_impl (TheanoNames := registry)) (values w')
        {[ 0%nat := Matrix 1 2 [[1; 1]]%Q ]} y
      = Some (Matrix 1 (Z.to_nat 2) zs) /\
      rows_wf 1 (Z.to_nat 2) zs.
Proof.
  split; [reflexivity|].
  destruct (__init__ (NR := lcg) (TN := registry) (new_instance Plain) 2 3
      (ActName "sigmoid") ActNone true None 0%Q 0%Q 0%Q (1 # 1000)%Q
      (Seed 9001) empty_world)
    as [[a|e] w'] eqn:E; [|vm_compute in E; discriminate E].
  assert (keeps_shape (act_enc a) = true /\ keeps_shape (act_dec a) = true)
    as [Hkenc Hkdec]
    by (clear -E; vm_compute in E; inversion E; split; reflexivity).
  exists a, w'. split; [reflexivity|].
  split; [exact Hkenc|]. split; [exact Hkdec|].
  apply (X14_reconstruct_keeps_the_shape (H := lcg) (H0 := registry)
           _ _ _ _ _ _ _ _ _ _ _ _ _ _ _
           {[ 0%nat := Matrix 1 2 [[1; 1]]%Q ]} (TVar 0) 1%nat
           [[1; 1]]%Q (eq_refl : 0 < 2) E Hkenc Hkdec).
  - reflexivity.
  - reflexivity.
  - split; [reflexivity | repeat constructor].
Defined.

(** What [reconstruct] returns for one minibatch. *)
Lemma reconstruct_variable_result (x : tensor) (self : Autoencoder) y self' :
  is_Variable x = true ->
  reconstruct x self = (Ok y, self') ->
  exists h reg,
    encode self x = Ok h /\ decode self h = Ok y /\
    self' = cached h reg self.
Proof.
  intros Hvar Hrun.
  pose proof (reconstruct_variable x self y self' Hvar Hrun)
    as (h & reg & Henc & Hreg & -> & _).
  rewrite (reconstruct_variable_run x self h reg Hvar Henc Hreg) in Hrun.
  exists h, reg. split; [exact Henc|]. split; [|reflexivity].
  apply (f_equal fst) in Hrun. exact Hrun.
Qed.

Lemma reconstruct_each_items (l : list tensor) :
  forall self rs self',
    Forall (fun x => is_Variable x = true) l ->
    reconstruct_each l self = (Ok rs, self') ->
    Forall2 (fun x r => is_Variable x = true /\
                        exists h, encode self x = Ok h /\ decode self h = Ok r)
      l rs.
Proof.
  induction l as [|x l IH]; intros self rs self' Hvars Hrun.
  - cbv [reconstruct_each ret] in Hrun. inversion Hrun. constructor.
  - inversion Hvars as [|x' l' Hx Hl]; subst.
    simpl in Hrun. step_in Hrun as r self1 Hr. step_in Hrun as rs' self2 Hrs.
    cbv [ret] in Hrun. inversion Hrun; subst rs self2. clear Hrun.
    apply reconstruct_variable_result in Hr as (h & reg & Henc & Hdec & ->);
      [|exact Hx].
    constructor; [split; [exact Hx|]; exists h; split; assumption|].
    apply IH in Hrs; [|exact Hl].
    eapply Forall2_impl; [exact Hrs|].
    intros x0 r0 (Hx0 & h0 & Henc0 & Hdec0). split; [exact Hx0|].
    exists h0. unfold cached in Henc0.
    rewrite encode_cached in Henc0 by exact Hx0.
    split; [exact Henc0 | exact Hdec0].
Qed.

(** ** [DenoisingAutoencoder.reconstruct] *)

Lemma pbind_step {S A B} (m : partial S A) (k : A -> partial S B) s a s1 :
  m s = Some (Ok a, s1) -> pbind m k s = k a s1.
Proof. unfold pbind. intros ->. reflexivity. Qed.

Section DispatchFacts.
Context {CS : Type} (corrupt : Corruptor -> tensor -> state_exn CS tensor).

(** On one minibatch the body of [Autoencoder.reconstruct] makes no
    call of [self.reconstruct]. *)
Lemma base_reconstruct_variable rec (x : tensor) self (cs : CS) :
  is_Variable x = true ->
  Autoencoder_reconstruct rec x (self, cs)
  = Some ((reconstruct x self).1, ((reconstruct x self).2, cs)).
Proof.
  intros Hvar.
  destruct x; try discriminate Hvar;
    cbv [Autoencoder_reconstruct pbind of_self reading assign];
    simpl reconstruct; cbv [bind reading assign]; simpl;
    (destruct (_hidden_activation self _) as [h|e]; [|reflexivity]);
    (destruct (compute_regularization _ h) as [reg|e]; [|reflexivity]);
    simpl;
    (destruct (tensor_dot h _) as [hw|e]; [|reflexivity]);
    (destruct (tensor_add _ hw) as [y|e]; reflexivity).
Qed.

End DispatchFacts.

Section DenoisingMethod.
Context {CS : Type} (corrupt : Corruptor -> tensor -> state_exn CS tensor).

(** One call of [self.reconstruct] on a denoising model: the corruptor
    runs first, and the base method gets what it returns. *)
Lemma denoising_step fuel c (x : tensor) self (cs : CS) :
  class_of self = Denoising -> corruptor self = Some c ->
  self_reconstruct corrupt (S fuel) x (self, cs)
  = match corrupt c x cs with
    | (Raise e, cs') => Some (Raise e, (self, cs'))
    | (Ok y, cs') =>
        Autoencoder_reconstruct (self_reconstruct corrupt fuel) y (self, cs')
    end.
Proof.
  intros Hclass Hcorr. simpl. rewrite Hclass.
  cbv [DenoisingAutoencoder_reconstruct pbind of_self of_corruptor reading].
  simpl. rewrite Hcorr.
  destruct (corrupt c x cs) as [[y|e] cs']; reflexivity.
Qed.

Lemma reconstruct_items_denoising fuel c :
  forall ys self (cs : CS) zs cs' rs self',
    class_of self = Denoising -> corruptor self = Some c ->
    corrupt_each corrupt c ys cs = (Ok zs, cs') ->
    Forall (fun z => is_Variable z = true) zs ->
    reconstruct_each zs self = (Ok rs, self') ->
    reconstruct_items (self_reconstruct corrupt (S fuel)) ys (self, cs)
    = Some (Ok rs, (self', cs')).
Proof.
  induction ys as [|y ys IH];
    intros self cs zs cs' rs self' Hclass Hcorr Hzs Hvars Hrs.
  - cbv [corrupt_each ret] in Hzs. inversion Hzs; subst.
    cbv [reconstruct_each ret] in Hrs. inversion Hrs; subst. reflexivity.
  - simpl in Hzs. step_in Hzs as z cs1 Hz. step_in Hzs as zs' cs2 Hzs'.
    cbv [ret] in Hzs. inversion Hzs; subst zs cs2. clear Hzs.
    inversion Hvars as [|z' zs'' Hzvar Hvars']; subst.
    simpl in Hrs. step_in Hrs as r self1 Hr. step_in Hrs as rs' self2 Hrs'.
    cbv [ret] in Hrs. inversion Hrs; subst rs self2. clear Hrs.
    pose proof (reconstruct_variable z self r self1 Hzvar Hr)
      as (h & reg & _ & _ & Hself1 & _).
    assert (class_of self1 = Denoising /\ corruptor self1 = Some c)
      as [Hclass1 Hcorr1] by (subst self1; split; assumption).
    cbn [reconstruct_items]. unfold pbind at 1.
    rewrite (denoising_step fuel c y self cs Hclass Hcorr), Hz.
    rewrite (base_reconstruct_variable _ z self cs1 Hzvar), Hr.
    cbn [fst snd]. unfold pbind at 1.
    rewrite (IH self1 cs1 zs' cs' rs' self' Hclass1 Hcorr1 Hzs' Hvars' Hrs').
    reflexivity.
Qed.

End DenoisingMethod.

(** X16.  [DenoisingAutoencoder.reconstruct] on one minibatch: the
    corruptor is called once, on the input as it is given, and the
    result is the reconstruction by [Autoencoder.reconstruct] of what
    the corruptor returns, on the same instance; when the corruptor
    raises, the exception goes through and the instance is unchanged. *)
Theorem X16_denoising_reconstruct_one_batch {CS : Type}
    (corrupt : Corruptor -> tensor -> state_exn CS tensor)
    (self : Autoencoder) (c : Corruptor) (x : tensor) (cs : CS) (fuel : nat) :
  class_of self = Denoising -> corruptor self = Some c ->
  (forall e cs',
     corrupt c x cs = (Raise e, cs') ->
     self_reconstruct corrupt (S fuel) x (self, cs)
     = Some (Raise e, (self, cs'))) /\
  (forall y cs',
     corrupt c x cs = (Ok y, cs') -> is_Variable y = true ->
     self_reconstruct corrupt (S fuel) x (self, cs)
     = Some ((reconstruct y self).1, ((reconstruct y self).2, cs'))).
Proof.
  intros Hclass Hcorr. split.
  - intros e cs' Hrun.
    rewrite (denoising_step corrupt fuel c x self cs Hclass Hcorr), Hrun.
    reflexivity.
  - intros y cs' Hrun Hvar.
    rewrite (denoising_step corrupt fuel c x self cs Hclass Hcorr), Hrun.
    apply base_reconstruct_variable. exact Hvar.
Qed.

Lemma X16_witness :
  class_of denoising_instance = Denoising /\
  corruptor denoising_instance = Some (CorruptorObject 0) /\
  self_reconstruct counting_corruptor 1 (TVar 0) (denoising_instance, 0%nat)
  = Some ((reconstruct (halve (TVar 0)) denoising_instance).1,
          ((reconstruct (halve (TVar 0)) denoising_instance).2, 1%nat)).
Proof.
  split; [reflexivity|]. split; [reflexivity|].
  exact (proj2 (X16_denoising_reconstruct_one_batch counting_corruptor
                  denoising_instance (CorruptorObject 0) (TVar 0) 0%nat 0%nat
                  eq_refl eq_refl)
           (halve (TVar 0)) 1%nat eq_refl eq_refl).
Defined.

(** X17.  [DenoisingAutoencoder.reconstruct] on a list: the corruptor
    is called on the whole list, and then once more on each item of the
    list it returned, because [Autoencoder.reconstruct] calls
    [self.reconstruct] on the items and that is the overriding method.
    The reconstructions returned are those of the twice corrupted
    minibatches, and the corruptor has been called once more than there
    are items. *)
Theorem X17_denoising_reconstruct_corrupts_a_list_twice {CS : Type}
    (corrupt : Corruptor -> tensor -> state_exn CS tensor)
    (self : Autoencoder) (c : Corruptor) (xs ys zs rs : list tensor)
    (hs reg : tensor) (self' : Autoencoder) (cs cs1 cs2 : CS) (fuel : nat) :
  class_of self = Denoising -> corruptor self = Some c ->
  corrupt c (TList xs) cs = (Ok (TList ys), cs1) ->
  corrupt_each corrupt c ys cs1 = (Ok zs, cs2) ->
  Forall (fun z => is_Variable z = true) zs ->
  encode self (TList ys) = Ok hs ->
  compute_regularization self hs = Ok reg ->
  reconstruct_each zs (cached hs reg self) = (Ok rs, self') ->
  self_reconstruct corrupt (S (S fuel)) (TList xs) (self, cs)
  = Some (Ok (TList rs), (self', cs2)).
Proof.
  intros Hclass Hcorr Hys Hzs Hvars Henc Hreg Hrs.
  rewrite (denoising_step corrupt (S fuel) c _ self cs Hclass Hcorr), Hys.
  assert (compute_regularization (set_hiddens (Some hs) self) hs = Ok reg)
    as Hreg' by exact Hreg.
  cbv [Autoencoder_reconstruct].
  erewrite pbind_step
    by (cbv [of_self reading]; cbn [fst snd]; rewrite Henc; reflexivity).
  erewrite pbind_step by reflexivity.
  erewrite pbind_step
    by (cbv [of_self reading]; cbn [fst snd]; rewrite Hreg'; reflexivity).
  erewrite pbind_step by reflexivity.
  erewrite pbind_step by reflexivity.
  cbn [fst snd].
  change (set_regularization reg (set_hiddens (Some hs) self))
    with (cached hs reg self).
  erewrite pbind_step; [reflexivity|].
  exact (reconstruct_items_denoising corrupt fuel c ys (cached hs reg self)
           cs1 zs cs2 rs self' Hclass Hcorr Hzs Hvars Hrs).
Qed.

Lemma X17_witness :
  exists rs self',
    self_reconstruct counting_corruptor 2 (TList [TVar 0; TVar 1])
      (denoising_instance, 0%nat)
    = Some (Ok (TList rs), (self', 3%nat)).
Proof.
  destruct (encode denoising_instance
              (TList [halve (TVar 0); halve (TVar 1)]))
    as [hs|e] eqn:Eh; [|vm_compute in Eh; discriminate Eh].
  destruct (reconstruct_each [halve (halve (TVar 0)); halve (halve (TVar 1))]
              (cached hs (TConst 0) denoising_instance))
    as [[rs|e] self'] eqn:Er; [|vm_compute in Er; discriminate Er].
  exists rs, self'.
  apply (X17_denoising_reconstruct_corrupts_a_list_twice counting_corruptor
           denoising_instance (CorruptorObject 0) [TVar 0; TVar 1]
           [halve (TVar 0); halve (TVar 1)]
           [halve (halve (TVar 0)); halve (halve (TVar 1))]
           rs hs (TConst 0) self' 0%nat 1%nat 3%nat 0%nat);
    [reflexivity | reflexivity | reflexivity | reflexivity
    | repeat constructor | exact Eh | reflexivity | exact Er].
Defined.

(** ** [self.reconstruct] on a model that does not override it *)

Section PlainMethod.
Context {CS : Type} (corrupt : Corruptor -> tensor -> state_exn CS tensor).

Lemma plain_step fuel (x : tensor) self (cs : CS) :
  class_of self <> Denoising ->
  self_reconstruct corrupt (S fuel) x (self, cs)
  = Autoencoder_reconstruct (self_reconstruct corrupt fuel) x (self, cs).
Proof.
  intros Hclass. simpl. destruct (class_of self); congruence.
Qed.

(** [reconstruct] assigns to [hiddens] and [regularization] only. *)
Lemma reconstruct_keeps_class (x : tensor) self :
  is_Variable x = true -> class_of (reconstruct x self).2 = class_of self.
Proof.
  intros Hvar.
  destruct x; try discriminate Hvar;
    simpl reconstruct; cbv [bind reading assign]; simpl;
    (destruct (_hidden_activation self _) as [h|e]; [|reflexivity]);
    (destruct (compute_regularization _ h) as [reg|e]; [|reflexivity]);
    simpl;
    repeat match goal with
           | |- context [match ?t with Ok _ => _ | Raise _ => _ end] =>
               destruct t
           end;
    reflexivity.
Qed.

Lemma reconstruct_items_plain fuel :
  forall l self (cs : CS),
    class_of self <> Denoising ->
    Forall (fun x => is_Variable x = true) l ->
    reconstruct_items (self_reconstruct corrupt (S fuel)) l (self, cs)
    = Some ((reconstruct_each l self).1, ((reconstruct_each l self).2, cs)).
Proof.
  induction l as [|x l IH]; intros self cs Hclass Hvars; [reflexivity|].
  inversion Hvars as [|x' l' Hx Hl]; subst.
  cbn [reconstruct_items]. unfold pbind at 1.
  rewrite (plain_step fuel x self cs Hclass).
  rewrite (base_reconstruct_variable _ x self cs Hx).
  pose proof (reconstruct_keeps_class x self Hx) as Hkeep.
  change (reconstruct_each (x :: l) self)
    with (bind (reconstruct x)
            (fun r => bind (reconstruct_each l) (fun rs => ret (r :: rs)))
            self).
  unfold bind.
  destruct (reconstruct x self) as [[r|e] self1]; [|reflexivity].
  cbn [fst snd] in Hkeep |- *.
  assert (class_of self1 <> Denoising) as Hclass1
    by (rewrite Hkeep; exact Hclass).
  unfold pbind at 1. rewrite (IH self1 cs Hclass1 Hl).
  destruct (reconstruct_each l self1) as [[rs|e] self2]; reflexivity.
Qed.

End PlainMethod.

(** X15.  On a model of a class that does not override [reconstruct] (a
    plain or a contracting autoencoder) and on a list of minibatches,
    [self.reconstruct] is [Autoencoder.reconstruct] all the way down:
    with fuel for two calls it ends, and no corruptor is called.  When
    it succeeds it returns a list holding, for each minibatch, the
    decoding of its encoding by the model as it was before the call:
    what the call caches in the instance as it goes does not change
    what it returns. *)
Theorem X15_reconstruct_maps_over_a_list {CS : Type}
    (corrupt : Corruptor -> tensor -> state_exn CS tensor)
    (self : Autoencoder) (inps : list tensor) (cs : CS) (fuel : nat) :
  class_of self <> Denoising ->
  Forall (fun x => is_Variable x = true) inps ->
  self_reconstruct corrupt (S (S fuel)) (TList inps) (self, cs)
  = Some ((reconstruct (TList inps) self).1,
          ((reconstruct (TList inps) self).2, cs)) /\
  forall y self',
    reconstruct (TList inps) self = (Ok y, self') ->
    exists rs,
      y = TList rs /\
      Forall2 (fun x r => exists h, encode self x = Ok h /\ decode self h = Ok r)
        inps rs.
Proof.
  intros Hclass Hvars. split.
  - rewrite (plain_step corrupt (S fuel) _ self cs Hclass).
    rewrite reconstruct_list.
    cbv [Autoencoder_reconstruct].
    unfold pbind, bind, of_self, reading, assign, pret, ret. cbn [fst snd].
    destruct (encode self (TList inps)) as [hs|e]; [|reflexivity].
    destruct (compute_regularization (set_hiddens (Some hs) self) hs)
      as [reg|e]; [|reflexivity].
    rewrite (reconstruct_items_plain corrupt fuel inps _ cs);
      [|exact Hclass|exact Hvars].
    destruct (reconstruct_each inps
                (set_regularization reg (set_hiddens (Some hs) self)))
      as [[rs|e] self2]; reflexivity.
  - intros y self' Hrun. rewrite reconstruct_list in Hrun.
    step_in Hrun as hs s1 Hhs. cbv [reading] in Hhs.
    destruct (encode self (TList inps)) as [hs'|e]; inversion Hhs; subst.
    step_in Hrun as u1 s2 Hu1. cbv [assign] in Hu1. inversion Hu1; subst.
    step_in Hrun as reg0 s3 Hreg0. cbv [reading] in Hreg0.
    destruct (compute_regularization _ hs) as [reg0'|e]; inversion Hreg0; subst.
    step_in Hrun as u2 s4 Hu2. cbv [assign] in Hu2. inversion Hu2; subst.
    step_in Hrun as ad s5 Had. cbv [reading] in Had. inversion Had; subst.
    step_in Hrun as rs s6 Heach. cbv [ret] in Hrun. inversion Hrun; subst.
    exists rs. split; [reflexivity|].
    apply reconstruct_each_items in Heach; [|exact Hvars].
    eapply Forall2_impl; [exact Heach|].
    intros x0 r0 (Hx0 & h0 & Henc0 & Hdec0). exists h0.
    rewrite encode_cached in Henc0 by exact Hx0.
    split; [exact Henc0 | exact Hdec0].
Qed.

Lemma X15_witness :
  class_of plain_instance <> Denoising /\
  Forall (fun x => is_Variable x = true) [TVar 0; TVar 1] /\
  self_reconstruct counting_corruptor 2 (TList [TVar 0; TVar 1])
    (plain_instance, 0%nat)
  = Some ((reconstruct (TList [TVar 0; TVar 1]) plain_instance).1,
          ((reconstruct (TList [TVar 0; TVar 1]) plain_instance).2, 0%nat)) /\
  exists y self' rs,
    reconstruct (TList [TVar 0; TVar 1]) plain_instance = (Ok y, self') /\
    y = TList rs /\
    Forall2 (fun x r => exists h, encode plain_instance x = Ok h /\
                                  decode plain_instance h = Ok r)
      [TVar 0; TVar 1] rs.
Proof.
  assert (class_of plain_instance <> Denoising) as Hclass by discriminate.
  assert (Forall (fun x => is_Variable x = true) [TVar 0; TVar 1]) as Hvars
    by (repeat constructor).
  destruct (X15_reconstruct_maps_over_a_list counting_corruptor
              plain_instance [TVar 0; TVar 1] 0%nat 0%nat Hclass Hvars)
    as [Hrun Hmap].
  split; [exact Hclass|]. split; [exact Hvars|]. split; [exact Hrun|].
  destruct (reconstruct (TList [TVar 0; TVar 1]) plain_instance)
    as [[y|e] self'] eqn:E; [|vm_compute in E; discriminate E].
  destruct (Hmap y self' eq_refl) as (rs & Hy & Hall).
  exists y, self', rs. split; [reflexivity|]. split; [exact Hy | exact Hall].
Defined.

(** ** [build_stacked_ae]: arguments, generator, store *)

Section Broadcast.
Context {NR : NumpyRandom} {TN : TheanoNames}.

Lemma broadcast_fits {A} (x : per_layer A) n :
  fits n x = true -> exists l, forall w : World, broadcast x n w = (Ok l, w).
Proof.
  destruct x as [a|s]; simpl; intros Hfit.
  - eexists. intros w. reflexivity.
  - exists s. intros w. rewrite Hfit. reflexivity.
Qed.

Lemma broadcast_misfit {A} (x : per_layer A) n (w : World) :
  fits n x = false -> broadcast x n w = (Raise (AssertionError ""), w).
Proof.
  destruct x as [a|s]; simpl; intros Hfit; [discriminate|].
  rewrite Hfit. reflexivity.
Qed.

End Broadcast.

Ltac next_broadcast H x :=
  let E := fresh "Efit" in
  let l := fresh "l" in
  let Hl := fresh "Hl" in
  match goal with
  | |- context [broadcast x ?n] =>
      destruct (fits n x) eqn:E;
      [ destruct (broadcast_fits x n E) as [l Hl];
        rewrite (bind_step _ _ _ _ _ (Hl _)); clear Hl
      | apply bind_raise; apply broadcast_misfit; exact E ]
  end.

(** X18.  When the [rng] argument is accepted (a generator object, or
    a seed from which [numpy.random.RandomState] makes a generator), a
    per-layer argument of [build_stacked_ae] that is a sequence of
    another length than [nhids] makes the call raise [AssertionError]
    before any layer is built: the heap is the one the resolution of
    the generator left, with the store and the placeholders of the
    call. *)
Theorem X18_stack_rejects_a_mismatched_sequence `{NumpyRandom} `{TheanoNames}
    nvis nhids enc dec tied ir rng' corr cae sol sp st stp
    (w : World) (r : nat) (w0 : World) :
  as_generator rng' w = (Ok r, w0) ->
  fits (length nhids) corr && fits (length nhids) cae
  && fits (length nhids) enc && fits (length nhids) dec
  && fits (length nhids) tied && fits (length nhids) ir
  && fits (length nhids) sol && fits (length nhids) sp
  && fits (length nhids) st && fits (length nhids) stp = false ->
  build_stacked_ae nvis nhids enc dec tied ir rng' corr cae sol sp st stp w
  = (Raise (AssertionError ""), w0) /\
  values w0 = values w /\ placeholders w0 = placeholders w /\
  generators w `prefix_of` generators w0.
Proof.
  intros Hgen Hmis.
  pose proof (as_generator_inv _ _ _ _ Hgen) as (Hv & Hp & Hg).
  split.
  - unfold build_stacked_ae. rewrite (bind_step _ _ _ _ _ Hgen).
    next_broadcast Hmis corr. next_broadcast Hmis cae.
    next_broadcast Hmis enc. next_broadcast Hmis dec.
    next_broadcast Hmis tied. next_broadcast Hmis ir.
    next_broadcast Hmis sol. next_broadcast Hmis sp.
    next_broadcast Hmis st. next_broadcast Hmis stp.
    discriminate Hmis.
  - split; [exact Hv|]. split; [exact Hp|].
    destruct rng'; destruct Hg as [_ ->]; [eexists|]; reflexivity.
Qed.

Lemma X18_witness :
  exists (r : nat) (w0 : Heap Z),
    as_generator (NR := lcg) (Seed 9001) empty_world = (Ok r, w0) /\
    fits (length [3; 2]) (Single (None : option Corruptor))
    && fits (length [3; 2]) (Single false)
    && fits (length [3; 2]) (Sequence [ActNone; ActNone; ActNone])
    && fits (length [3; 2]) (Single ActNone)
    && fits (length [3; 2]) (Single false)
    && fits (length [3; 2]) (Single (1 # 1000)%Q)
    && fits (length [3; 2]) (Single (None : option string))
    && fits (length [3; 2]) (Single 0%Q)
    && fits (length [3; 2]) (Single 0%Q)
    && fits (length [3; 2]) (Single 0%Q) = false /\
    build_stacked_ae (NR := lcg) (TN := registry) 4 [3; 2]
      (Sequence [ActNone; ActNone; ActNone]) (Single ActNone) (Single false)
      (Single (1 # 1000)%Q) (Seed 9001) (Single None) (Single false)
      (Single None) (Single 0%Q) (Single 0%Q) (Single 0%Q) empty_world
    = (Raise (AssertionError ""), w0) /\
    values w0 = values (empty_world (G := Z)) /\
    placeholders w0 = placeholders (empty_world (G := Z)) /\
    generators (empty_world (G := Z)) `prefix_of` generators w0.
Proof.
  eexists _, _. split; [reflexivity|]. split; [reflexivity|].
  exact (X18_stack_rejects_a_mismatched_sequence (H := lcg) (H0 := registry)
           4 [3; 2] (Sequence [ActNone; ActNone; ActNone]) (Single ActNone)
           (Single false) (Single (1 # 1000)%Q) (Seed 9001) (Single None)
           (Single false) (Single None) (Single 0%Q) (Single 0%Q)
           (Single 0%Q) empty_world _ _ eq_refl eq_refl).
Defined.

Section OneGenerator.
Context {NR : NumpyRandom} {TN : TheanoNames}.

(** What building one layer does to the heap and leaves in the layer. *)
Lemma build_layer_effect r item (w : World) a w' :
  build_layer r item w = (Ok a, w') ->
  rng a = r /\
  length (values w') = (length (values w) + parameter_count a)%nat /\
  length (generators w') = length (generators w) /\
  forall r', r' <> r -> generators w' !! r' = generators w !! r'.
Proof.
  destruct item
    as (nhid' & nvis & enc & dec & corr & cae & tied & ir & sol & sp & st & stp).
  intros Hrun. apply build_layer_ok in Hrun
    as (_ & a0 & w0 & Hinit & Ha & Hv & Hg).
  apply init_inv in Hinit as (r0 & v0 & g0 & Hgen & O).
  cbv [as_generator ret] in Hgen. inversion Hgen; subst r0 v0. clear Hgen.
  assert (rng a = rng a0 /\ _params a = _params a0) as [Hrng Hpar]
    by (subst a; destruct corr; split; reflexivity).
  split; [rewrite Hrng; exact (init_rng O)|]. split; [|split].
  - unfold parameter_count. rewrite Hpar, (init_params O). unfold build_params.
    rewrite (init_visbias O), (init_hidbias O), (init_weights O),
      (init_tied O), Hv, (init_store O).
    pose proof (init_w_prime O) as Hwp.
    destruct (0 <? nvis); destruct tied; simpl in Hwp |- *;
      rewrite ?Hwp, !length_app; simpl; lia.
  - rewrite Hg, (init_generators O). apply length_insert.
  - intros r' Hne. rewrite Hg, (init_generators O).
    apply list_lookup_insert_ne. congruence.
Qed.

Lemma build_layers_effect r seq :
  forall acc (w : World) ls w',
    build_layers r seq acc w = (Ok ls, w') ->
    exists new,
      ls = acc ++ new /\ Forall (fun a => rng a = r) new /\
      length (values w')
      = (length (values w) + sum_list (map parameter_count new))%nat /\
      length (generators w') = length (generators w) /\
      forall r', r' <> r -> generators w' !! r' = generators w !! r'.
Proof.
  induction seq as [|item rest IH]; intros acc w ls w'; simpl.
  - cbv [ret]. intros E; inversion E; subst. exists [].
    rewrite app_nil_r. simpl. repeat split; try constructor. lia.
  - intros Hrun. step_in Hrun as a w1 Hlayer.
    apply build_layer_effect in Hlayer as (Hrng & Hvals & Hlen & Hframe).
    apply IH in Hrun as (new & -> & Hall & Hvals' & Hlen' & Hframe').
    exists (a :: new). rewrite <- app_assoc. split; [reflexivity|].
    split; [constructor; assumption|]. split; [simpl; lia|].
    split; [lia|]. intros r' Hne. rewrite (Hframe' r' Hne). exact (Hframe r' Hne).
Qed.

End OneGenerator.

(** X19.  The layers of a stack share one generator: every layer holds
    the generator the call resolved from its [rng] argument, no
    generator is made or dropped while the layers are built, and no
    other generator advances. *)
Theorem X19_stack_layers_share_one_generator `{NumpyRandom} `{TheanoNames}
    nvis nhids enc dec tied ir rng' corr cae sol sp st stp
    (w : World) stack w' :
  build_stacked_ae nvis nhids enc dec tied ir rng' corr cae sol sp st stp w
  = (Ok stack, w') ->
  exists r w0,
    as_generator rng' w = (Ok r, w0) /\
    Forall (fun a => rng a = r) (layers stack) /\
    length (generators w') = length (generators w0) /\
    forall r', r' <> r -> generators w' !! r' = generators w0 !! r'.
Proof.
  intros Hrun. apply build_stacked_ae_inv in Hrun
    as (r & w0 & seq & Hgen & Hloop & _).
  apply build_layers_effect in Hloop as (new & Hnew & Hall & _ & Hlen & Hframe).
  simpl in Hnew. subst new.
  exists r, w0. repeat split; assumption.
Qed.

(** X20.  The store after [build_stacked_ae] is the store of the call
    followed by the parameters of the layers: it grows by the number of
    entries of the parameter lists that are not [None] (three for a
    tied layer, four for an untied one, when the layer has a visible
    size). *)
Theorem X20_stack_allocates_its_parameters `{NumpyRandom} `{TheanoNames}
    nvis nhids enc dec tied ir rng' corr cae sol sp st stp
    (w : World) stack w' :
  build_stacked_ae nvis nhids enc dec tied ir rng' corr cae sol sp st stp w
  = (Ok stack, w') ->
  values w `prefix_of` values w' /\
  length (values w')
  = (length (values w) + sum_list (map parameter_count (layers stack)))%nat.
Proof.
  intros Hrun. apply build_stacked_ae_inv in Hrun
    as (r & w0 & seq & Hgen & Hloop & _).
  apply as_generator_inv in Hgen as (Hv & _).
  pose proof (build_layers_inv _ _ _ _ _ _ Hloop) as [Hpre _].
  apply build_layers_effect in Hloop as (new & Hnew & _ & Hvals & _).
  simpl in Hnew. subst new. rewrite Hv in Hpre, Hvals.
  split; assumption.
Qed.

Lemma X19_witness :
  exists stack (w' : Heap Z),
    build_stacked_ae (NR := lcg) (TN := registry) 4 [3; 2]
      (Single ActNone) (Single ActNone) (Sequence [true; false])
      (Single (1 # 1000)%Q) (Seed 9001) (Single None) (Single false)
      (Single None) (Single 0%Q) (Single 0%Q) (Single 0%Q) empty_world
    = (Ok stack, w') /\
    exists r (w0 : Heap Z),
      as_generator (NR := lcg) (Seed 9001) empty_world = (Ok r, w0) /\
      Forall (fun a => rng a = r) (layers stack) /\
      length (generators w') = length (generators w0) /\
      forall r', r' <> r -> generators w' !! r' = generators w0 !! r'.
Proof.
  destruct (build_stacked_ae (NR := lcg) (TN := registry) 4 [3; 2]
      (Single ActNone) (Single ActNone) (Sequence [true; false])
      (Single (1 # 1000)%Q) (Seed 9001) (Single None) (Single false)
      (Single None) (Single 0%Q) (Single 0%Q) (Single 0%Q) empty_world)
    as [[stack|e] w'] eqn:E; [|vm_compute in E; discriminate E].
  exists stack, w'. split; [reflexivity|].
  exact (X19_stack_layers_share_one_generator (H := lcg) (H0 := registry)
           _ _ _ _ _ _ _ _ _ _ _ _ _ _ _ _ E).
Defined.

Lemma X20_witness :
  exists stack (w' : Heap Z),
    build_stacked_ae (NR := lcg) (TN := registry) 4 [3; 2]
      (Single ActNone) (Single ActNone) (Sequence [true; false])
      (Single (1 # 1000)%Q) (Seed 9001) (Single None) (Single false)
      (Single None) (Single 0%Q) (Single 0%Q) (Single 0%Q) empty_world
    = (Ok stack, w') /\
    values (empty_world (G := Z)) `prefix_of` values w' /\
    length (values w')
    = (length (values (empty_world (G := Z)))
       + sum_list (map parameter_count (layers stack)))%nat.
Proof.
  destruct (build_stacked_ae (NR := lcg) (TN := registry) 4 [3; 2]
      (Single ActNone) (Single ActNone) (Sequence [true; false])
      (Single (1 # 1000)%Q) (Seed 9001) (Single None) (Single false)
      (Single None) (Single 0%Q) (Single 0%Q) (Single 0%Q) empty_world)
    as [[stack|e] w'] eqn:E; [|vm_compute in E; discriminate E].
  exists stack, w'. split; [reflexivity|].
  exact (X20_stack_allocates_its_parameters (H := lcg) (H0 := registry)
           _ _ _ _ _ _ _ _ _ _ _ _ _ _ _ _ E).
Defined.
